(** * eos-chronicle receiver: a shallow embedding of receiver_plugin.cpp

    The receiver engine of [chronicle-receiver/receiver_plugin.cpp] as
    executable Rocq definitions: the chainbase-backed decoder state, the
    fork controller of [receive_result], the ABI registry
    ([save_contract_abi], [clear_contract_abi], [get_contract_abi_ready]),
    the delta and trace paths and the backpressure check [check_pause].

    - [uint32_t] values are [Z]; where the source computes on them the
      wrap-around is written out ([wrap32]).
    - [abieos::name] is compared by value only; it is modelled by the
      string it was built from.
    - member functions are computations in a state-and-exception monad
      over the members of [receiver_plugin_impl]; the events handed to the
      appbase channels are appended to [published] in publication order. *)

From stdpp Require Import gmap strings list pretty sorting.
From Stdlib Require Import ZArith Lia.

Local Open Scope Z_scope.

(** ** Primitive types *)

Abbreviation name := string (only parsing).
Abbreviation bytes := (list Byte.byte) (only parsing).
Abbreviation checksum256 := Z (only parsing).
Abbreviation block_timestamp_t := Z (only parsing).

Definition wrap32 (z : Z) : Z := z mod 2 ^ 32.

Inductive exception :=
| runtime_error (what : string)
| logic_error (what : string).

Definition what_of (e : exception) : string :=
  match e with runtime_error w => w | logic_error w => w end.

(** A decoder of the abieos library either yields a value or fails with
    the text it left in [error]. *)
Inductive decoded (A : Type) :=
| bin_ok (a : A)
| bin_error (error : string).
Arguments bin_ok {A} a.
Arguments bin_error {A} error.

(** ** namespace chronicle: the decoder state database objects *)
Module chronicle.

(** The singleton keeping the state of the receiver. *)
Record state_object := {
  head : Z;
  head_id : checksum256;
  irreversible : Z;
  irreversible_id : checksum256
}.

(** Received blocks and their ids. *)
Record received_block_object := {
  block_index : Z;
  block_id : checksum256
}.

(** The three chainbase indexes.  [state_index] holds at most the one
    object the receiver creates; [received_block_index] is kept in
    [by_blocknum] order ([ordered_unique] on [block_index]), so that its
    first element is [idx.begin()]; [contract_abi_index] is keyed
    [by_name] on the account. *)
Record indexes := {
  state_index : option state_object;
  received_block_index : list received_block_object;
  contract_abi_index : gmap name bytes
}.

Definition empty_indexes : indexes :=
  {| state_index := None; received_block_index := []; contract_abi_index := ∅ |}.

End chronicle.

(** ** chainbase: the revisioned store *)
Module chainbase.

(** Modelled from the spec: chainbase::database, the store behind [db].
    chainbase is a library of its own, the repository only includes
    <chainbase/chainbase.hpp>.  Section 3 of the spec gives the store's
    contract: [set_revision(n)], [start_undo_scope()], [handle.push()],
    [undo()] discards the top scope and fails at baseline, [commit(n)]
    fuses all scopes with revision <= n into the baseline.  One entry of
    the undo stack holds what the indexes were when the scope was opened,
    and the revision the scope stands for. *)
Record undo_state := {
  old_values : chronicle.indexes;
  us_revision : Z
}.

(** Modelled from the spec: the database is the indexes, the undo stack
    (newest scope first) and the revision counter. *)
Record database := {
  indexes : chronicle.indexes;
  stack : list undo_state;
  revision : Z
}.

Definition open_database : database :=
  {| indexes := chronicle.empty_indexes; stack := []; revision := 0 |}.

(** Modelled from the spec: [set_revision(n)]. *)
Definition set_revision (n : Z) (d : database) : database :=
  {| indexes := indexes d; stack := stack d; revision := n |}.

(** Modelled from the spec: [start_undo_scope()].  The contract leaves
    open which number a scope gets; the model takes the rule of
    chainbase itself: a scope opened at revision r is revision r + 1
    ([_stack.back().revision = ++_revision]), which becomes the store
    revision, and [undo] returns to r.  It is the rule the fork path of
    section 4.3 relies on: the store is undone until its revision is
    below b, and the scope then pushed is revision b. *)
Definition start_undo_session (d : database) : database :=
  {| indexes := indexes d;
     stack := {| old_values := indexes d; us_revision := revision d + 1 |} :: stack d;
     revision := revision d + 1 |}.

(** Modelled from the spec: [undo()] discards the top scope; at baseline
    (no scope left) it fails, which is [None] here. *)
Definition undo (d : database) : option database :=
  match stack d with
  | [] => None
  | u :: st => Some {| indexes := old_values u; stack := st; revision := revision d - 1 |}
  end.

(** Modelled from the spec: [commit(n)] fuses the oldest scopes while
    their revision is <= n; they can no longer be undone.  The stack is
    newest first, so the oldest scope is the last element. *)
Fixpoint commit_stack (n : Z) (st : list undo_state) : list undo_state :=
  match st with
  | [] => []
  | u :: older =>
      match commit_stack n older with
      | [] => if us_revision u <=? n then [] else [u]
      | kept => u :: kept
      end
  end.

Definition commit (n : Z) (d : database) : database :=
  {| indexes := indexes d; stack := commit_stack n (stack d); revision := revision d |}.

(** The revision-control calls the receiver makes on [db], for the record
    of calls kept in [db_calls]. *)
Inductive call :=
| set_revision_call (n : Z)
| undo_call
| start_undo_session_call
| push_call
| commit_call (n : Z).

(** Writing through [db->create] / [db->modify] / [db->remove] changes
    the indexes and leaves stack and revision alone. *)
Definition with_indexes (ix : chronicle.indexes) (d : database) : database :=
  {| indexes := ix; stack := stack d; revision := revision d |}.

End chainbase.

(** ** namespace chain_state: the decoded wire structures *)
Module chain_state.

Record block_position := {
  block_num : Z;
  block_id : checksum256
}.

(** [block], [traces] and [deltas] are undecoded input buffers. *)
Record get_blocks_result_v0 := {
  head : block_position;
  last_irreversible : block_position;
  this_block : option block_position;
  prev_block : option block_position;
  block : option bytes;
  traces : option bytes;
  deltas : option bytes
}.

Record row := {
  present : bool;
  data : bytes
}.

Record table_delta_v0 := {
  td_name : string;
  rows : list row
}.

(** Of an action trace the receiver reads [account] and [name]; the
    other fields travel with the event untouched. *)
Record action_trace := {
  account : name;
  at_name : name;
  at_data : bytes;
  console : string
}.

Record transaction_trace := {
  id : checksum256;
  status : Z;
  traces_ : list action_trace
}.

(** Of a block the receiver reads the header's [timestamp]. *)
Record signed_block := {
  timestamp : block_timestamp_t;
  producer : name;
  previous : checksum256
}.

Record account_object := {
  ao_name : name;
  privileged : bool;
  code : bytes;
  abi : bytes
}.

Record key_value_object := {
  kvo_code : name;
  scope : name;
  table : name;
  primary_key : Z;
  payer : name;
  value : bytes
}.

End chain_state.

(** ** The abieos library, as far as the receiver calls it *)
Module abieos.

(** [abi_def], the decoded form of a contract ABI.  The receiver hands it
    on inside [abi_update] and never looks inside. *)
Inductive abi_def := abi_def_of (serialized : bytes).

(** A field of a schema type: its name and whether the type it refers to
    is a struct ([fields[i].type->filled_struct]). *)
Record abi_field := {
  field_name : string;
  field_type_filled_struct : bool
}.

(** [abi_type], what [check_variant] and [receive_deltas] read of it. *)
Record abi_type := {
  type_name : string;
  filled_variant : bool;
  fields : list abi_field
}.

(** Modelled from the spec: [abieos_context], the ABI decoder capability
    of section 6 ([create], [destroy], [set_abi_bin], [get_error]).  The
    context is additive; it holds the ABIs that were set, by account. *)
Record abieos_context := {
  contracts : gmap name bytes
}.

Definition abieos_create : abieos_context := {| contracts := ∅ |}.

End abieos.

(** ** The channel events *)
Module channels.

Inductive fork_reason_val := network | restart.

(** One constructor per appbase channel; the fields are the ones the
    receiver fills in before [publish]. *)
Inductive event :=
| forks (fork_block_num depth : Z) (fork_reason : fork_reason_val)
| blocks (block_num last_irreversible : Z) (block : chain_state.signed_block)
| block_table_deltas (block_timestamp : block_timestamp_t)
    (table_delta : chain_state.table_delta_v0)
| transaction_traces (block_num : Z) (block_timestamp : block_timestamp_t)
    (trace : chain_state.transaction_trace)
| abi_updates (block_num : Z) (block_timestamp : block_timestamp_t)
    (account : name) (abi_bytes : bytes) (abi : abieos.abi_def)
| abi_removals (block_num : Z) (block_timestamp : block_timestamp_t) (account : name)
| abi_errors (block_num : Z) (block_timestamp : block_timestamp_t)
    (account : name) (error : string)
| table_row_updates (block_num : Z) (block_timestamp : block_timestamp_t)
    (added : bool) (kvo : chain_state.key_value_object)
| receiver_pauses (head acknowledged : Z).


End channels.

(** ** The codec *)

(** The decoders of abieos and zlib are libraries outside the
    repository; the receiver is parameterised by them.  A reader of an [input_buffer&] returns the
    value and the rest of the buffer. *)
Class Codec := {
  read_varuint32 : bytes → decoded (Z * bytes);
  zlib_decompress : bytes → decoded bytes;
  bin_to_native_result : bytes → decoded chain_state.get_blocks_result_v0;
  bin_to_native_signed_block : bytes → decoded chain_state.signed_block;
  bin_to_native_table_delta : bytes → decoded (chain_state.table_delta_v0 * bytes);
  bin_to_native_account_object : bytes → decoded (chain_state.account_object * bytes);
  bin_to_native_key_value_object : bytes → decoded (chain_state.key_value_object * bytes);
  bin_to_native_transaction_trace : bytes → decoded (chain_state.transaction_trace * bytes);
  bin_to_native_abi_def : bytes → decoded abieos.abi_def;
  (** the validity check of [abieos_set_abi_bin]: [bin_error e] when the
      call returns false and [abieos_get_error] then gives [e] *)
  abieos_check_abi_bin : bytes → decoded unit
}.

(** ** class receiver_plugin_impl *)

(** The members of [receiver_plugin_impl] that the modelled functions
    read or write.  [*_has_subscribers] is what [has_subscribers()] of the
    channel answers, [published] collects what was passed to [publish] on
    any channel, [db_calls] the revision-control calls made on [db], in
    order, and [mytimer] is the wait the deadline timer was last armed
    with. *)
Record receiver_plugin_impl := {
  db : chainbase.database;
  db_calls : list chainbase.call;
  max_queue_size : Z;
  aborting : bool;
  head : Z;
  head_id : checksum256;
  irreversible : Z;
  irreversible_id : checksum256;
  block_timestamp : block_timestamp_t;
  abi_types : gmap string abieos.abi_type;
  contract_abi_ctxt : option abieos.abieos_context;
  contract_abi_imported : gset name;
  blacklist_actions : gmap name (gset name);
  transaction_traces_has_subscribers : bool;
  abi_updates_has_subscribers : bool;
  abi_errors_has_subscribers : bool;
  table_row_updates_has_subscribers : bool;
  published : list channels.event;
  exporter_will_ack : bool;
  exporter_acked_block : Z;
  exporter_max_unconfirmed : Z;
  mytimer : option Z;
  pause_time_msec : Z;
  slowdown_requested : bool
}.

Definition set_db (d : chainbase.database) (s : receiver_plugin_impl) :=
  {| db := d; db_calls := db_calls s; max_queue_size := max_queue_size s; aborting := aborting s;
     head := head s; head_id := head_id s; irreversible := irreversible s;
     irreversible_id := irreversible_id s; block_timestamp := block_timestamp s;
     abi_types := abi_types s; contract_abi_ctxt := contract_abi_ctxt s;
     contract_abi_imported := contract_abi_imported s;
     blacklist_actions := blacklist_actions s;
     transaction_traces_has_subscribers := transaction_traces_has_subscribers s;
     abi_updates_has_subscribers := abi_updates_has_subscribers s;
     abi_errors_has_subscribers := abi_errors_has_subscribers s;
     table_row_updates_has_subscribers := table_row_updates_has_subscribers s;
     published := published s; exporter_will_ack := exporter_will_ack s;
     exporter_acked_block := exporter_acked_block s;
     exporter_max_unconfirmed := exporter_max_unconfirmed s; mytimer := mytimer s;
     pause_time_msec := pause_time_msec s; slowdown_requested := slowdown_requested s |}.

Definition set_db_calls (cs : list chainbase.call) (s : receiver_plugin_impl) :=
  {| db := db s; db_calls := cs; max_queue_size := max_queue_size s; aborting := aborting s;
     head := head s; head_id := head_id s; irreversible := irreversible s;
     irreversible_id := irreversible_id s; block_timestamp := block_timestamp s;
     abi_types := abi_types s; contract_abi_ctxt := contract_abi_ctxt s;
     contract_abi_imported := contract_abi_imported s;
     blacklist_actions := blacklist_actions s;
     transaction_traces_has_subscribers := transaction_traces_has_subscribers s;
     abi_updates_has_subscribers := abi_updates_has_subscribers s;
     abi_errors_has_subscribers := abi_errors_has_subscribers s;
     table_row_updates_has_subscribers := table_row_updates_has_subscribers s;
     published := published s; exporter_will_ack := exporter_will_ack s;
     exporter_acked_block := exporter_acked_block s;
     exporter_max_unconfirmed := exporter_max_unconfirmed s; mytimer := mytimer s;
     pause_time_msec := pause_time_msec s; slowdown_requested := slowdown_requested s |}.

Definition set_position (h : Z) (hid : checksum256) (i : Z) (iid : checksum256)
    (s : receiver_plugin_impl) :=
  {| db := db s; db_calls := db_calls s; max_queue_size := max_queue_size s; aborting := aborting s;
     head := h; head_id := hid; irreversible := i;
     irreversible_id := iid; block_timestamp := block_timestamp s;
     abi_types := abi_types s; contract_abi_ctxt := contract_abi_ctxt s;
     contract_abi_imported := contract_abi_imported s;
     blacklist_actions := blacklist_actions s;
     transaction_traces_has_subscribers := transaction_traces_has_subscribers s;
     abi_updates_has_subscribers := abi_updates_has_subscribers s;
     abi_errors_has_subscribers := abi_errors_has_subscribers s;
     table_row_updates_has_subscribers := table_row_updates_has_subscribers s;
     published := published s; exporter_will_ack := exporter_will_ack s;
     exporter_acked_block := exporter_acked_block s;
     exporter_max_unconfirmed := exporter_max_unconfirmed s; mytimer := mytimer s;
     pause_time_msec := pause_time_msec s; slowdown_requested := slowdown_requested s |}.

Definition set_block_timestamp (t : block_timestamp_t) (s : receiver_plugin_impl) :=
  {| db := db s; db_calls := db_calls s; max_queue_size := max_queue_size s; aborting := aborting s;
     head := head s; head_id := head_id s; irreversible := irreversible s;
     irreversible_id := irreversible_id s; block_timestamp := t;
     abi_types := abi_types s; contract_abi_ctxt := contract_abi_ctxt s;
     contract_abi_imported := contract_abi_imported s;
     blacklist_actions := blacklist_actions s;
     transaction_traces_has_subscribers := transaction_traces_has_subscribers s;
     abi_updates_has_subscribers := abi_updates_has_subscribers s;
     abi_errors_has_subscribers := abi_errors_has_subscribers s;
     table_row_updates_has_subscribers := table_row_updates_has_subscribers s;
     published := published s; exporter_will_ack := exporter_will_ack s;
     exporter_acked_block := exporter_acked_block s;
     exporter_max_unconfirmed := exporter_max_unconfirmed s; mytimer := mytimer s;
     pause_time_msec := pause_time_msec s; slowdown_requested := slowdown_requested s |}.

Definition set_abi_cache (c : option abieos.abieos_context) (imp : gset name)
    (s : receiver_plugin_impl) :=
  {| db := db s; db_calls := db_calls s; max_queue_size := max_queue_size s; aborting := aborting s;
     head := head s; head_id := head_id s; irreversible := irreversible s;
     irreversible_id := irreversible_id s; block_timestamp := block_timestamp s;
     abi_types := abi_types s; contract_abi_ctxt := c;
     contract_abi_imported := imp;
     blacklist_actions := blacklist_actions s;
     transaction_traces_has_subscribers := transaction_traces_has_subscribers s;
     abi_updates_has_subscribers := abi_updates_has_subscribers s;
     abi_errors_has_subscribers := abi_errors_has_subscribers s;
     table_row_updates_has_subscribers := table_row_updates_has_subscribers s;
     published := published s; exporter_will_ack := exporter_will_ack s;
     exporter_acked_block := exporter_acked_block s;
     exporter_max_unconfirmed := exporter_max_unconfirmed s; mytimer := mytimer s;
     pause_time_msec := pause_time_msec s; slowdown_requested := slowdown_requested s |}.

Definition set_published (evs : list channels.event) (s : receiver_plugin_impl) :=
  {| db := db s; db_calls := db_calls s; max_queue_size := max_queue_size s; aborting := aborting s;
     head := head s; head_id := head_id s; irreversible := irreversible s;
     irreversible_id := irreversible_id s; block_timestamp := block_timestamp s;
     abi_types := abi_types s; contract_abi_ctxt := contract_abi_ctxt s;
     contract_abi_imported := contract_abi_imported s;
     blacklist_actions := blacklist_actions s;
     transaction_traces_has_subscribers := transaction_traces_has_subscribers s;
     abi_updates_has_subscribers := abi_updates_has_subscribers s;
     abi_errors_has_subscribers := abi_errors_has_subscribers s;
     table_row_updates_has_subscribers := table_row_updates_has_subscribers s;
     published := evs; exporter_will_ack := exporter_will_ack s;
     exporter_acked_block := exporter_acked_block s;
     exporter_max_unconfirmed := exporter_max_unconfirmed s; mytimer := mytimer s;
     pause_time_msec := pause_time_msec s; slowdown_requested := slowdown_requested s |}.

Definition set_pause (timer : option Z) (msec : Z) (slow : bool)
    (s : receiver_plugin_impl) :=
  {| db := db s; db_calls := db_calls s; max_queue_size := max_queue_size s; aborting := aborting s;
     head := head s; head_id := head_id s; irreversible := irreversible s;
     irreversible_id := irreversible_id s; block_timestamp := block_timestamp s;
     abi_types := abi_types s; contract_abi_ctxt := contract_abi_ctxt s;
     contract_abi_imported := contract_abi_imported s;
     blacklist_actions := blacklist_actions s;
     transaction_traces_has_subscribers := transaction_traces_has_subscribers s;
     abi_updates_has_subscribers := abi_updates_has_subscribers s;
     abi_errors_has_subscribers := abi_errors_has_subscribers s;
     table_row_updates_has_subscribers := table_row_updates_has_subscribers s;
     published := published s; exporter_will_ack := exporter_will_ack s;
     exporter_acked_block := exporter_acked_block s;
     exporter_max_unconfirmed := exporter_max_unconfirmed s; mytimer := timer;
     pause_time_msec := msec; slowdown_requested := slow |}.

(** ** The state-and-exception monad of the member functions *)

Inductive outcome (A : Type) :=
| returned (a : A)
| threw (e : exception).
Arguments returned {A} a.
Arguments threw {A} e.

Definition M (A : Type) : Type := receiver_plugin_impl → outcome A * receiver_plugin_impl.

Definition ret {A} (a : A) : M A := λ s, (returned a, s).

Definition bind {A B} (m : M A) (k : A → M B) : M B :=
  λ s, match m s with
       | (returned a, s') => k a s'
       | (threw e, s') => (threw e, s')
       end.

Definition throw {A} (e : exception) : M A := λ s, (threw e, s).

(** [try { body } catch (const exception& e) { handler(e) }] *)
Definition try_catch {A} (body : M A) (handler : exception → M A) : M A :=
  λ s, match body s with
       | (returned a, s') => (returned a, s')
       | (threw e, s') => handler e s'
       end.

Definition gets {A} (f : receiver_plugin_impl → A) : M A := λ s, (returned (f s), s).

Definition modify (f : receiver_plugin_impl → receiver_plugin_impl) : M unit :=
  λ s, (returned tt, f s).

Notation "x <- m ;; k" := (bind m (λ x, k))
  (at level 100, m at next level, right associativity).
Notation "m ;;; k" := (bind m (λ _, k))
  (at level 100, right associativity).

(** [chan.publish(channel_priority, ev)] *)
Definition publish (ev : channels.event) : M unit :=
  modify (λ s, set_published (published s ++ [ev]) s).

(** Unwrap a decoder: [if (!bin_to_native(...)) throw runtime_error(prefix + error)]. *)
Definition or_throw {A} (prefix : string) (d : decoded A) : M A :=
  match d with
  | bin_ok a => ret a
  | bin_error e => throw (runtime_error (prefix +:+ e))
  end.

(** ** Member functions of receiver_plugin_impl *)
Section receiver.
Context `{Codec}.

Local Open Scope string_scope.
Local Open Scope Z_scope.

(** *** Access to [db] *)

Definition db_indexes (s : receiver_plugin_impl) : chronicle.indexes :=
  chainbase.indexes (db s).

Definition revision (s : receiver_plugin_impl) : Z := chainbase.revision (db s).

Definition received_blocks (s : receiver_plugin_impl) : list chronicle.received_block_object :=
  chronicle.received_block_index (db_indexes s).

Definition contract_abis (s : receiver_plugin_impl) : gmap name bytes :=
  chronicle.contract_abi_index (db_indexes s).

(** A revision-control call on [db]: the database changes and the call is
    recorded. *)
Definition db_call (c : chainbase.call) (f : chainbase.database → chainbase.database) : M unit :=
  modify (λ s, set_db_calls (db_calls s ++ [c]) (set_db (f (db s)) s)).

Definition write_indexes (f : chronicle.indexes → chronicle.indexes) : M unit :=
  modify (λ s, set_db (chainbase.with_indexes (f (db_indexes s)) (db s)) s).

Definition set_state_index (o : option chronicle.state_object) (ix : chronicle.indexes) :=
  {| chronicle.state_index := o;
     chronicle.received_block_index := chronicle.received_block_index ix;
     chronicle.contract_abi_index := chronicle.contract_abi_index ix |}.

Definition set_received_block_index (l : list chronicle.received_block_object)
    (ix : chronicle.indexes) :=
  {| chronicle.state_index := chronicle.state_index ix;
     chronicle.received_block_index := l;
     chronicle.contract_abi_index := chronicle.contract_abi_index ix |}.

Definition set_contract_abi_index (m : gmap name bytes) (ix : chronicle.indexes) :=
  {| chronicle.state_index := chronicle.state_index ix;
     chronicle.received_block_index := chronicle.received_block_index ix;
     chronicle.contract_abi_index := m |}.

(** [db->undo()]: the spec's contract lets it fail at baseline. *)
Definition db_undo : M unit :=
  λ s, match chainbase.undo (db s) with
       | Some d => db_call chainbase.undo_call (λ _, d) s
       | None => (threw (logic_error "undo: no undo scope left"), s)
       end.

(** *** save_state *)
Definition save_state : M unit :=
  s <- gets id ;;
  let o := {| chronicle.head := head s; chronicle.head_id := head_id s;
              chronicle.irreversible := irreversible s;
              chronicle.irreversible_id := irreversible_id s |} in
  match chronicle.state_index (db_indexes s) with
  | Some _ => write_indexes (set_state_index (Some o))   (* db->modify *)
  | None => write_indexes (set_state_index (Some o))     (* db->create *)
  end.

(** *** check_pause

    [queue_size] is [app().get_priority_queue().size()].  Arming the timer
    is recorded in [mytimer]; its callback calls [continue_read] again. *)
Definition check_pause (queue_size : Z) : M bool :=
  s <- gets id ;;
  if slowdown_requested s
     || (exporter_will_ack s
         && (exporter_max_unconfirmed s <=? wrap32 (head s - exporter_acked_block s)))
     || (max_queue_size s <? queue_size)
  then
    let msec :=
      if pause_time_msec s =? 0 then 100
      else if pause_time_msec s <? 8000 then wrap32 (pause_time_msec s * 2)
      else pause_time_msec s in
    modify (set_pause (mytimer s) msec false) ;;;
    (if 2000 <=? msec
     then publish (channels.receiver_pauses (head s) (exporter_acked_block s))
     else ret tt) ;;;
    modify (set_pause (Some msec) msec false) ;;;
    ret false
  else ret true.

(** *** init_contract_abi_ctxt *)
Definition init_contract_abi_ctxt : M unit :=
  modify (λ s,
    match contract_abi_ctxt s with
    | Some _ => set_abi_cache (Some abieos.abieos_create) ∅ s
    | None => set_abi_cache (Some abieos.abieos_create) (contract_abi_imported s) s
    end).

(** [abieos_set_abi_bin(contract_abi_ctxt, account, data, size)]: the
    answer of the call, with the text [abieos_get_error] would give when
    it is false; on success the context holds the ABI for [account].  On
    a null context the call fails. *)
Definition abieos_set_abi_bin (account : name) (data : bytes) : M (decoded unit) :=
  λ s, match contract_abi_ctxt s with
       | None => (returned (bin_error "context is null"), s)
       | Some c =>
           match abieos_check_abi_bin data with
           | bin_ok _ =>
               (returned (bin_ok tt),
                set_abi_cache
                  (Some {| abieos.contracts := <[account := data]> (abieos.contracts c) |})
                  (contract_abi_imported s) s)
           | bin_error e => (returned (bin_error e), s)
           end
       end.

(** *** clear_contract_abi *)
Definition clear_contract_abi (account : name) : M unit :=
  imported <- gets contract_abi_imported ;;
  (if decide (account ∈ imported) then init_contract_abi_ctxt else ret tt) ;;;
  idx <- gets contract_abis ;;
  match idx !! account with
  | Some _ =>
      write_indexes (set_contract_abi_index (delete account idx)) ;;;
      h <- gets head ;;
      ts <- gets block_timestamp ;;
      publish (channels.abi_removals h ts account)
  | None => ret tt
  end.

(** *** save_contract_abi *)
Definition save_contract_abi (account : name) (data : bytes) : M unit :=
  imported <- gets contract_abi_imported ;;
  (if decide (account ∈ imported) then init_contract_abi_ctxt else ret tt) ;;;
  try_catch
    (set <- abieos_set_abi_bin account data ;;
     or_throw "" set ;;;
     modify (λ s, set_abi_cache (contract_abi_ctxt s)
                    ({[account]} ∪ contract_abi_imported s) s) ;;;
     idx <- gets contract_abis ;;
     match idx !! account with
     | Some _ => write_indexes (set_contract_abi_index (<[account := data]> idx))
     | None => write_indexes (set_contract_abi_index (<[account := data]> idx))
     end ;;;
     subscribed <- gets abi_updates_has_subscribers ;;
     if subscribed : bool then
       h <- gets head ;;
       ts <- gets block_timestamp ;;
       abi <- or_throw "" (bin_to_native_abi_def data) ;;
       publish (channels.abi_updates h ts account data abi)
     else ret tt)
    (λ e,
     h <- gets head ;;
     ts <- gets block_timestamp ;;
     publish (channels.abi_errors h ts account (what_of e))).

(** *** get_contract_abi_ready *)
Definition get_contract_abi_ready (account : name) : M bool :=
  imported <- gets contract_abi_imported ;;
  if decide (account ∈ imported) then ret true
  else
    idx <- gets contract_abis ;;
    match idx !! account with
    | Some abi =>
        abieos_set_abi_bin account abi ;;;
        modify (λ s, set_abi_cache (contract_abi_ctxt s)
                       ({[account]} ∪ contract_abi_imported s) s) ;;;
        ret true
    | None => ret false
    end.

(** *** receive_traces *)

(** The blacklist check on a decoded trace: its first action trace, if
    any, is looked up in [blacklist_actions]. *)
Definition blacklisted (bl : gmap name (gset name)) (trace : chain_state.transaction_trace)
    : bool :=
  match chain_state.traces_ trace with
  | [] => false
  | at0 :: _ =>
      match bl !! chain_state.account at0 with
      | Some names => bool_decide (chain_state.at_name at0 ∈ names)
      | None => false
      end
  end.

Fixpoint receive_traces_loop (num : nat) (bin : bytes) : M unit :=
  match num with
  | O => ret tt
  | S n =>
      r <- or_throw "transaction_trace conversion error: "
             (bin_to_native_transaction_trace bin) ;;
      let '(trace, bin') := r in
      bl <- gets blacklist_actions ;;
      (if blacklisted bl trace then ret tt
       else
         h <- gets head ;;
         ts <- gets block_timestamp ;;
         publish (channels.transaction_traces h ts trace)) ;;;
      receive_traces_loop n bin'
  end.

Definition receive_traces (buf : bytes) : M unit :=
  subscribed <- gets transaction_traces_has_subscribers ;;
  if subscribed : bool then
    data <- or_throw "" (zlib_decompress buf) ;;
    r <- or_throw "" (read_varuint32 data) ;;
    let '(num, bin) := r in
    receive_traces_loop (Z.to_nat num) bin
  else ret tt.

(** The default blacklist of [plugin_initialize]. *)
Definition default_blacklist_actions : gmap name (gset name) :=
  <["blocktwitter" := {["tweet"]}]> (<["eosio" := {["onblock"]}]> ∅).

(** *** get_type and check_variant *)
Definition get_type (nm : string) : M abieos.abi_type :=
  types <- gets abi_types ;;
  match types !! nm with
  | Some t => ret t
  | None => throw (runtime_error ("unknown type " +:+ nm))
  end.

(** [type.fields[i].name] *)
Definition field_name_at (type : abieos.abi_type) (i : Z) : string :=
  match abieos.fields type !! Z.to_nat i with
  | Some f => abieos.field_name f
  | None => ""
  end.

(** [check_variant(bin, type, uint32_t expected)]; returns [bin] advanced
    past the tag. *)
Definition check_variant_index (bin : bytes) (type : abieos.abi_type) (expected : Z)
    : M bytes :=
  r <- or_throw "" (read_varuint32 bin) ;;
  let '(index, bin') := r in
  if negb (abieos.filled_variant type)
  then throw (runtime_error (abieos.type_name type +:+ " is not a variant"))
  else if Z.of_nat (length (abieos.fields type)) <=? index
  then throw (runtime_error
                ("expected " +:+ field_name_at type expected +:+ " got " +:+ pretty index))
  else if negb (index =? expected)
  then throw (runtime_error
                ("expected " +:+ field_name_at type expected
                 +:+ " got " +:+ field_name_at type index))
  else ret bin'.

(** [check_variant(bin, type, const char* expected)] *)
Definition check_variant_name (bin : bytes) (type : abieos.abi_type) (expected : string)
    : M bytes :=
  r <- or_throw "" (read_varuint32 bin) ;;
  let '(index, bin') := r in
  if negb (abieos.filled_variant type)
  then throw (runtime_error (abieos.type_name type +:+ " is not a variant"))
  else if Z.of_nat (length (abieos.fields type)) <=? index
  then throw (runtime_error ("expected " +:+ expected +:+ " got " +:+ pretty index))
  else if negb (bool_decide (field_name_at type index = expected))
  then throw (runtime_error
                ("expected " +:+ expected +:+ " got " +:+ field_name_at type index))
  else ret bin'.

(** *** receive_block (the progress log lines write no state) *)
Definition receive_block (bin : bytes) : M unit :=
  h <- gets head ;;
  i <- gets irreversible ;;
  blk <- or_throw "block conversion error: " (bin_to_native_signed_block bin) ;;
  modify (set_block_timestamp (chain_state.timestamp blk)) ;;;
  publish (channels.blocks h i blk).

(** *** receive_deltas *)

Definition with_data (r : chain_state.row) (d : bytes) : chain_state.row :=
  {| chain_state.present := chain_state.present r; chain_state.data := d |}.

(** [for (auto& row : rows) check_variant(row.data, variant_type, 0u);] *)
Fixpoint check_rows (type : abieos.abi_type) (rows : list chain_state.row)
    : M (list chain_state.row) :=
  match rows with
  | [] => ret []
  | r :: rs =>
      d <- check_variant_index (chain_state.data r) type 0 ;;
      rs' <- check_rows type rs ;;
      ret (with_data r d :: rs')
  end.

(** The rows of an "account" delta: memorize the contract ABI. *)
Fixpoint account_rows (rows : list chain_state.row) : M (list chain_state.row) :=
  match rows with
  | [] => ret []
  | r :: rs =>
      r' <- (if chain_state.present r then
               x <- or_throw "account row conversion error: "
                      (bin_to_native_account_object (chain_state.data r)) ;;
               let '(acc, rest) := x in
               (if decide (chain_state.abi acc = [])
                then clear_contract_abi (chain_state.ao_name acc)
                else save_contract_abi (chain_state.ao_name acc) (chain_state.abi acc)) ;;;
               ret (with_data r rest)
             else ret r) ;;
      rs' <- account_rows rs ;;
      ret (r' :: rs')
  end.

(** The rows of a "contract_row" delta. *)
Fixpoint contract_rows (rows : list chain_state.row) : M (list chain_state.row) :=
  match rows with
  | [] => ret []
  | r :: rs =>
      h <- gets head ;;
      ts <- gets block_timestamp ;;
      x <- or_throw "cannot read table row object"
             (bin_to_native_key_value_object (chain_state.data r)) ;;
      let '(kvo, rest) := x in
      ready <- get_contract_abi_ready (chain_state.kvo_code kvo) ;;
      (if ready : bool
       then publish (channels.table_row_updates h ts (chain_state.present r) kvo)
       else publish (channels.abi_errors h ts (chain_state.kvo_code kvo)
                       "cannot decode table delta because of missing ABI")) ;;;
      rs' <- contract_rows rs ;;
      ret (with_data r rest :: rs')
  end.

(** One turn of the loop over the deltas; returns [bin] advanced. *)
Definition receive_delta (bin : bytes) : M bytes :=
  table_delta_type <- get_type "table_delta" ;;
  bin1 <- check_variant_name bin table_delta_type "table_delta_v0" ;;
  ts <- gets block_timestamp ;;
  x <- or_throw "table_delta conversion error: " (bin_to_native_table_delta bin1) ;;
  let '(td, bin2) := x in
  variant_type <- get_type (chain_state.td_name td) ;;
  (if negb (abieos.filled_variant variant_type)
      || negb (bool_decide (length (abieos.fields variant_type) = 1%nat))
      || negb (match abieos.fields variant_type with
               | f :: _ => abieos.field_type_filled_struct f
               | [] => false
               end)
   then throw (runtime_error
                 ("don't know how to proccess " +:+ abieos.type_name variant_type))
   else ret tt) ;;;
  rows1 <- check_rows variant_type (chain_state.rows td) ;;
  tru <- gets table_row_updates_has_subscribers ;;
  ae <- gets abi_errors_has_subscribers ;;
  rows2 <- (if bool_decide (chain_state.td_name td = "account") then account_rows rows1
            else if bool_decide (chain_state.td_name td = "contract_row") && (tru || ae)
            then contract_rows rows1
            else ret rows1) ;;
  publish (channels.block_table_deltas ts
             {| chain_state.td_name := chain_state.td_name td;
                chain_state.rows := rows2 |}) ;;;
  ret bin2.

Fixpoint receive_deltas_loop (num : nat) (bin : bytes) : M unit :=
  match num with
  | O => ret tt
  | S n => bin' <- receive_delta bin ;; receive_deltas_loop n bin'
  end.

Definition receive_deltas (buf : bytes) : M unit :=
  data <- or_throw "" (zlib_decompress buf) ;;
  r <- or_throw "" (read_varuint32 data) ;;
  let '(num, bin) := r in
  receive_deltas_loop (Z.to_nat num) bin.

(** *** receive_result *)

(** Decoding the frame: [check_variant] on the "result" type, then
    [bin_to_native]. *)
Definition decode_result (p : bytes) : M chain_state.get_blocks_result_v0 :=
  result_type <- get_type "result" ;;
  bin <- check_variant_name p result_type "get_blocks_result_v0" ;;
  or_throw "result conversion error: " (bin_to_native_result bin).

(** [while( db->revision() >= block_num ) db->undo();]  Every turn that
    does not fail discards one scope, so the depth of the undo stack bounds
    the number of turns ([undo_while_unfold] below states the loop
    equation). *)
Fixpoint undo_while_fuel (fuel : nat) (block_num : Z) : M unit :=
  r <- gets revision ;;
  if block_num <=? r then
    match fuel with
    | O => db_undo
    | S n => db_undo ;;; undo_while_fuel n block_num
    end
  else ret tt.

Definition undo_while (block_num : Z) : M unit :=
  λ s, undo_while_fuel (length (chainbase.stack (db s))) block_num s.

(** [db->create<received_block_object>]: the object goes to its place in
    [by_blocknum] order; the [ordered_unique] index refuses a second
    object with the same [block_index]. *)
Fixpoint insert_by_blocknum (o : chronicle.received_block_object)
    (l : list chronicle.received_block_object)
    : option (list chronicle.received_block_object) :=
  match l with
  | [] => Some [o]
  | x :: l' =>
      if chronicle.block_index o <? chronicle.block_index x then Some (o :: l)
      else if chronicle.block_index o =? chronicle.block_index x then None
      else cons x <$> insert_by_blocknum o l'
  end.

(** [itr = idx.begin(); while( itr->block_index < irreversible && itr != idx.end() )
    { db->remove( *itr ); itr = idx.begin(); }] *)
Fixpoint truncate_front (irreversible : Z) (l : list chronicle.received_block_object)
    : list chronicle.received_block_object :=
  match l with
  | [] => []
  | x :: l' =>
      if chronicle.block_index x <? irreversible then truncate_front irreversible l' else l
  end.

(** Lines 470-483: add the new block, truncate old blocks up to the
    previously known irreversible. *)
Definition add_received_block (block_num : Z) (block_id : checksum256) : M unit :=
  idx <- gets received_blocks ;;
  match insert_by_blocknum
          {| chronicle.block_index := block_num; chronicle.block_id := block_id |} idx with
  | None =>
      throw (logic_error
               "could not insert object, most likely a uniqueness constraint was violated")
  | Some idx' => write_indexes (set_received_block_index idx')
  end ;;;
  irr <- gets irreversible ;;
  idx <- gets received_blocks ;;
  write_indexes (set_received_block_index (truncate_front irr idx)).

(** Lines 442-466: at the blockchain head, a block not above [head] is a
    fork; otherwise it has to continue [head_id]. *)
Definition fork_or_continuation (result : chain_state.get_blocks_result_v0)
    (block_num : Z) : M unit :=
  let last_irreversoble_num :=
    chain_state.block_num (chain_state.last_irreversible result) in
  if last_irreversoble_num <? block_num then
    h <- gets head ;;
    if block_num <=? h then
      let depth := wrap32 (h - block_num) in
      init_contract_abi_ctxt ;;;
      undo_while block_num ;;;
      r <- gets revision ;;
      if r <=? 0
      then throw (runtime_error
                    ("Cannot rollback, no undo stack at revision " +:+ pretty r))
      else publish (channels.forks block_num depth channels.network)
    else
      hid <- gets head_id ;;
      if (0 <? h)
         && match chain_state.prev_block result with
            | None => true
            | Some pb => negb (chain_state.block_id pb =? hid)
            end
      then throw (runtime_error "prev_block does not match")
      else ret tt
  else ret tt.

(** [db->start_undo_session(true)], [undo_session.push()] and what
    [~session()] does to a session that was not pushed. *)
Definition start_undo_session : M unit :=
  db_call chainbase.start_undo_session_call chainbase.start_undo_session.

Definition session_push : M unit := db_call chainbase.push_call id.

Definition session_destructor : M unit :=
  λ s, match chainbase.undo (db s) with
       | Some d => db_call chainbase.undo_call (λ _, d) s
       | None => (returned tt, s)
       end.

(** Stack unwinding: when [m] throws, [dtor] runs before the exception
    travels on. *)
Definition on_unwind {A} (dtor : M unit) (m : M A) : M A :=
  λ s, match m s with
       | (threw e, s') => (threw e, (dtor s').2)
       | r => r
       end.

(** Lines 470-495: the ring, the receiver state, then the block, delta
    and trace paths. *)
Definition apply_block (result : chain_state.get_blocks_result_v0)
    (block_num : Z) (block_id : checksum256) : M unit :=
  irr <- gets irreversible ;;
  (if irr <? block_num then add_received_block block_num block_id else ret tt) ;;;
  modify (set_position block_num block_id
            (chain_state.block_num (chain_state.last_irreversible result))
            (chain_state.block_id (chain_state.last_irreversible result))) ;;;
  (match chain_state.block result with Some b => receive_block b | None => ret tt end) ;;;
  (match chain_state.deltas result with Some b => receive_deltas b | None => ret tt end) ;;;
  (match chain_state.traces result with Some b => receive_traces b | None => ret tt end).

(** Lines 503-508: if the exporter is acknowledging, only what is
    confirmed is committed. *)
Definition commit_rev (s : receiver_plugin_impl) : Z :=
  if exporter_will_ack s && (exporter_acked_block s <? irreversible s)
  then exporter_acked_block s
  else irreversible s.

Definition commit_confirmed : M unit :=
  s <- gets id ;;
  db_call (chainbase.commit_call (commit_rev s)) (chainbase.commit (commit_rev s)).

(** Lines 437-440: [if( db->revision() < block_num ) db->set_revision(block_num);] *)
Definition raise_revision (block_num : Z) : M unit :=
  r <- gets revision ;;
  if r <? block_num
  then db_call (chainbase.set_revision_call block_num) (chainbase.set_revision block_num)
  else ret tt.

(** Lines 497-510: leave without pushing when aborting; otherwise save
    the state, push the session and commit. *)
Definition finish_block : M bool :=
  stop <- gets aborting ;;
  if stop : bool then session_destructor ;;; ret false
  else save_state ;;; session_push ;;; commit_confirmed ;;; ret true.

(** Lines 468-510: what happens inside the undo session. *)
Definition in_undo_session (result : chain_state.get_blocks_result_v0)
    (block_num : Z) (block_id : checksum256) : M bool :=
  start_undo_session ;;;
  on_unwind session_destructor (apply_block result block_num block_id) ;;;
  finish_block.

(** Lines 432-510: a result that carries [this_block]. *)
Definition receive_block_frame (result : chain_state.get_blocks_result_v0)
    (this_block : chain_state.block_position) : M bool :=
  let block_num := chain_state.block_num this_block in
  let block_id := chain_state.block_id this_block in
  raise_revision block_num ;;;
  fork_or_continuation result block_num ;;;
  in_undo_session result block_num block_id.

Definition receive_result (p : bytes) : M bool :=
  result <- decode_result p ;;
  match chain_state.this_block result with
  | None => ret true
  | Some this_block => receive_block_frame result this_block
  end.

(** *** continue_read

    One round of the read loop: [check_pause], then either the next frame
    [p] is read and applied, or the timer is left armed and the round
    ends.  [read_rounds] chains rounds, one per queue size and frame on
    offer, until [receive_result] returns false or throws. *)
Inductive read_step :=
| paused (msec : Z)
| frame_read (continue : bool).

Definition continue_read (queue_size : Z) (p : bytes) : M read_step :=
  go <- check_pause queue_size ;;
  if go : bool then
    modify (λ s, set_pause (mytimer s) 0 (slowdown_requested s) s) ;;;
    c <- receive_result p ;;
    ret (frame_read c)
  else
    msec <- gets pause_time_msec ;;
    ret (paused msec).

Fixpoint read_rounds (inputs : list (Z * bytes)) : M (list read_step) :=
  match inputs with
  | [] => ret []
  | (queue_size, p) :: rest =>
      st <- continue_read queue_size p ;;
      match st with
      | frame_read false => ret [st]
      | _ => sts <- read_rounds rest ;; ret (st :: sts)
      end
  end.

End receiver.

(** ** A concrete codec and concrete receivers, for the examples

    A toy wire format: a varuint32 is one byte; a result frame is the
    variant tag, ten bytes for [head], [last_irreversible], [this_block]
    and [prev_block] (flag, number, id), and what follows, if anything, is
    the [traces] payload; a transaction trace is one byte saying what its
    first action is. *)

Definition byte_of (n : N) : Byte.byte := default Byte.x00 (Byte.of_N n).

Definition demo_num (b : Byte.byte) : Z := Z.of_N (Byte.to_N b).

Definition demo_position (n i : Byte.byte) : chain_state.block_position :=
  {| chain_state.block_num := demo_num n; chain_state.block_id := demo_num i |}.

Definition demo_optional_position (f n i : Byte.byte) : option chain_state.block_position :=
  if Byte.eqb f Byte.x00 then None else Some (demo_position n i).

Definition demo_action (account action : string) : chain_state.action_trace :=
  {| chain_state.account := account; chain_state.at_name := action;
     chain_state.at_data := []; chain_state.console := "" |}.

Definition demo_trace (actions : list chain_state.action_trace)
    : chain_state.transaction_trace :=
  {| chain_state.id := 7; chain_state.status := 0; chain_state.traces_ := actions |}.

#[local] Instance demo_codec : Codec := {|
  read_varuint32 bin :=
    match bin with
    | b :: rest => bin_ok (demo_num b, rest)
    | [] => bin_error "read past end"
    end;
  zlib_decompress bin := bin_ok bin;
  bin_to_native_result bin :=
    match bin with
    | hn :: hi :: ln :: li :: tf :: tn :: ti :: pf :: pn :: pi :: rest =>
        bin_ok {| chain_state.head := demo_position hn hi;
                  chain_state.last_irreversible := demo_position ln li;
                  chain_state.this_block := demo_optional_position tf tn ti;
                  chain_state.prev_block := demo_optional_position pf pn pi;
                  chain_state.block := None;
                  chain_state.traces := match rest with [] => None | _ => Some rest end;
                  chain_state.deltas := None |}
    | _ => bin_error "read past end"
    end;
  bin_to_native_signed_block bin :=
    match bin with
    | t :: _ => bin_ok {| chain_state.timestamp := demo_num t;
                          chain_state.producer := "eosio"; chain_state.previous := 0 |}
    | [] => bin_error "read past end"
    end;
  bin_to_native_table_delta _ := bin_error "unsupported";
  bin_to_native_account_object _ := bin_error "unsupported";
  bin_to_native_key_value_object _ := bin_error "unsupported";
  bin_to_native_transaction_trace bin :=
    match bin with
    | k :: rest =>
        if Byte.eqb k Byte.x00 then bin_ok (demo_trace [], rest)
        else if Byte.eqb k Byte.x01
        then bin_ok (demo_trace [demo_action "eosio" "onblock"], rest)
        else bin_ok (demo_trace [demo_action "eosio.token" "transfer"], rest)
    | [] => bin_error "read past end"
    end;
  bin_to_native_abi_def data := bin_ok (abieos.abi_def_of data);
  abieos_check_abi_bin data :=
    match data with
    | [] => bin_error "read past end"
    | _ => bin_ok tt
    end
|}.

(** The protocol schema as far as [check_variant] needs it. *)
Definition demo_abi_types : gmap string abieos.abi_type :=
  <["result" :=
      {| abieos.type_name := "result"; abieos.filled_variant := true;
         abieos.fields := [{| abieos.field_name := "get_blocks_result_v0";
                              abieos.field_type_filled_struct := true |}] |}]> ∅.

(** The receiver after [plugin_initialize] and [load_state] on an empty
    database, with subscribers on the trace and ABI channels. *)
Definition fresh_receiver : receiver_plugin_impl :=
  {| db := chainbase.open_database; db_calls := []; max_queue_size := 10000;
     aborting := false; head := 0; head_id := 0; irreversible := 0;
     irreversible_id := 0; block_timestamp := 0; abi_types := demo_abi_types;
     contract_abi_ctxt := Some abieos.abieos_create; contract_abi_imported := ∅;
     blacklist_actions := default_blacklist_actions;
     transaction_traces_has_subscribers := true;
     abi_updates_has_subscribers := true; abi_errors_has_subscribers := true;
     table_row_updates_has_subscribers := true; published := [];
     exporter_will_ack := false; exporter_acked_block := 0;
     exporter_max_unconfirmed := 0; mytimer := None; pause_time_msec := 0;
     slowdown_requested := false |}.

(** [exporter_will_ack_blocks(max_unconfirmed)] *)
Definition exporter_will_ack_blocks (max_unconfirmed : Z) (s : receiver_plugin_impl)
    : receiver_plugin_impl :=
  {| db := db s; db_calls := db_calls s; max_queue_size := max_queue_size s;
     aborting := aborting s;
     head := head s; head_id := head_id s; irreversible := irreversible s;
     irreversible_id := irreversible_id s; block_timestamp := block_timestamp s;
     abi_types := abi_types s; contract_abi_ctxt := contract_abi_ctxt s;
     contract_abi_imported := contract_abi_imported s;
     blacklist_actions := blacklist_actions s;
     transaction_traces_has_subscribers := transaction_traces_has_subscribers s;
     abi_updates_has_subscribers := abi_updates_has_subscribers s;
     abi_errors_has_subscribers := abi_errors_has_subscribers s;
     table_row_updates_has_subscribers := table_row_updates_has_subscribers s;
     published := published s; exporter_will_ack := true;
     exporter_acked_block := exporter_acked_block s;
     exporter_max_unconfirmed := max_unconfirmed; mytimer := mytimer s;
     pause_time_msec := pause_time_msec s; slowdown_requested := slowdown_requested s |}.

(** A result frame of the toy format: [this_block] is block [b] with id
    [bid], [last_irreversible] is block [l] (id [l]), and [prev_block] is
    present with id [pid] unless [pid] is 0. *)
Definition demo_frame (b bid l pid : N) : bytes :=
  byte_of 0 :: map byte_of [b; bid; l; l; 1; b; bid; pid; b - 1; pid]%N.

(** The same with the server's head at block [hn], as during catch-up. *)
Definition demo_frame_behind (hn b bid l pid : N) : bytes :=
  byte_of 0 :: map byte_of [hn; hn; l; l; 1; b; bid; pid; b - 1; pid]%N.

(** The state a computation ends in, and what it returned. *)
Definition state_after {A} (m : M A) (s : receiver_plugin_impl) : receiver_plugin_impl :=
  (m s).2.

Definition result_of {A} (m : M A) (s : receiver_plugin_impl) : outcome A := (m s).1.

Definition run_frames `{Codec} (frames : list bytes) (s : receiver_plugin_impl)
    : receiver_plugin_impl :=
  foldl (λ s p, state_after (receive_result p) s) s frames.

(** A result frame without [this_block]. *)
Definition demo_frame_no_block : bytes :=
  byte_of 0 :: map byte_of [100; 100; 98; 98; 0; 0; 0; 0; 0; 0]%N.

(** The receiver after blocks 100, 101 and 102 in a row. *)
Definition receiver_at_102 : receiver_plugin_impl :=
  run_frames [demo_frame 100 100 98 0; demo_frame 101 101 99 100;
              demo_frame 102 102 100 101] fresh_receiver.

(** An acknowledging exporter that tolerates one unconfirmed block and
    never acknowledges; the receiver has taken block 100. *)
Definition receiver_at_100 : receiver_plugin_impl :=
  state_after (receive_result (demo_frame 100 100 98 0))
    (exporter_will_ack_blocks 1 fresh_receiver).

(** The [k]-th wait of an unbroken run of pauses: 100 ms doubled [k]
    times, the doubling ending with the first wait that is not below
    8000 ms. *)
Definition backoff (k : nat) : Z := 100 * 2 ^ Z.min (Z.of_nat k) 7.

(** The pause events such a run of [n] pauses publishes. *)
Definition pause_events (h acked : Z) (n : nat) : list channels.event :=
  omap (λ k, if 2000 <=? backoff k then Some (channels.receiver_pauses h acked) else None)
       (seq 0 n).

(** What the block, delta and trace paths may hand to a channel: no fork
    or pause event, and a transaction trace only if the blacklist [bl]
    lets it pass. *)
Definition payload_event (bl : gmap name (gset name)) (ev : channels.event) : Prop :=
  match ev with
  | channels.forks _ _ _ => False
  | channels.receiver_pauses _ _ => False
  | channels.transaction_traces _ _ trace => blacklisted bl trace = false
  | _ => True
  end.

(** The members those paths may write: the ABI records, the block
    timestamp, the ABI decode context with its loaded set, and the
    channels. *)
Definition payload_update (abis : gmap name bytes) (ts : Z)
    (ctx : option abieos.abieos_context) (imported : gset name)
    (evs : list channels.event) (s : receiver_plugin_impl) : receiver_plugin_impl :=
  set_published (published s ++ evs)
    (set_abi_cache ctx imported
       (set_block_timestamp ts
          (set_db (chainbase.with_indexes (set_contract_abi_index abis (db_indexes s)) (db s))
             s))).

Definition payload_frame (s s' : receiver_plugin_impl) : Prop :=
  ∃ abis ts ctx imported evs,
    s' = payload_update abis ts ctx imported evs s
    ∧ Forall (payload_event (blacklist_actions s)) evs.

(** What a computation hands to the channels, with [P] telling which
    events are allowed given the blacklist. *)
Definition publishes (P : gmap name (gset name) → channels.event → Prop)
    (s s' : receiver_plugin_impl) : Prop :=
  blacklist_actions s' = blacklist_actions s
  ∧ ∃ evs, published s' = published s ++ evs ∧ Forall (P (blacklist_actions s)) evs.

(** A transaction trace on the channel has passed the blacklist. *)
Definition passed_blacklist (bl : gmap name (gset name)) (ev : channels.event) : Prop :=
  match ev with
  | channels.transaction_traces _ _ trace => blacklisted bl trace = false
  | _ => True
  end.

(** The database after [k] calls of [undo]. *)
Fixpoint undone (k : nat) (d : chainbase.database) : chainbase.database :=
  match k with
  | O => d
  | S k' =>
      match chainbase.undo d with
      | Some d' => undone k' d'
      | None => d
      end
  end.

(** The receiver after [k] calls of [db->undo()]. *)
Definition rolled (k : nat) (s : receiver_plugin_impl) : receiver_plugin_impl :=
  set_db_calls (db_calls s ++ replicate k chainbase.undo_call) (set_db (undone k (db s)) s).

(** [!result.prev_block || result.prev_block->block_id.value != head_id.value] *)
Definition prev_mismatch (result : chain_state.get_blocks_result_v0)
    (s : receiver_plugin_impl) : bool :=
  match chain_state.prev_block result with
  | None => true
  | Some pb => negb (chain_state.block_id pb =? head_id s)
  end.

(** The Received Block Ring as lines 470-483 leave it. *)
Definition ring_after (block_num : Z) (block_id : checksum256) (s : receiver_plugin_impl)
    : option (list chronicle.received_block_object) :=
  if irreversible s <? block_num
  then truncate_front (irreversible s) <$>
         insert_by_blocknum
           {| chronicle.block_index := block_num; chronicle.block_id := block_id |}
           (received_blocks s)
  else Some (received_blocks s).

(** The receiver after lines 470-488, with [ring] for the ring. *)
Definition positioned (result : chain_state.get_blocks_result_v0)
    (block_num : Z) (block_id : checksum256)
    (ring : list chronicle.received_block_object) (s : receiver_plugin_impl)
    : receiver_plugin_impl :=
  set_position block_num block_id
    (chain_state.block_num (chain_state.last_irreversible result))
    (chain_state.block_id (chain_state.last_irreversible result))
    (set_db (chainbase.with_indexes (set_received_block_index ring (db_indexes s)) (db s)) s).

(** The receiver after lines 500-508: state saved, session pushed,
    [commit(commit_rev)] called. *)
Definition finished (s : receiver_plugin_impl) : receiver_plugin_impl :=
  set_db_calls
    (db_calls s ++ [chainbase.push_call; chainbase.commit_call (commit_rev s)])
    (set_db
       (chainbase.commit (commit_rev s)
          (chainbase.with_indexes
             (set_state_index
                (Some {| chronicle.head := head s; chronicle.head_id := head_id s;
                         chronicle.irreversible := irreversible s;
                         chronicle.irreversible_id := irreversible_id s |})
                (db_indexes s))
             (db s)))
       s).

(** The [by_blocknum] order of the ring, here and in every open scope. *)
Definition ring_ordered (l : list chronicle.received_block_object) : Prop :=
  StronglySorted (λ a b, chronicle.block_index a < chronicle.block_index b) l.

Definition db_ordered (d : chainbase.database) : Prop :=
  ring_ordered (chronicle.received_block_index (chainbase.indexes d))
  ∧ Forall (λ u, ring_ordered (chronicle.received_block_index (chainbase.old_values u)))
      (chainbase.stack d).

(** What the [abieos_set_abi_bin] call of [save_contract_abi] answers when
    it refuses the ABI: the error abieos reports on [data], or the null
    context (there is none, and the account was not loaded, so none was
    created either).  [None] when the call succeeds. *)
Definition abi_install_error `{Codec} (account : name) (data : bytes)
    (s : receiver_plugin_impl) : option string :=
  match contract_abi_ctxt s with
  | None =>
      if decide (account ∈ contract_abi_imported s)
      then match abieos_check_abi_bin data with
           | bin_ok _ => None
           | bin_error e => Some e
           end
      else Some "context is null"%string
  | Some _ =>
      match abieos_check_abi_bin data with
      | bin_ok _ => None
      | bin_error e => Some e
      end
  end.

(** The events a computation publishes when run from [s]: what it adds
    to [published]. *)
Definition events_of {A} (m : M A) (s : receiver_plugin_impl) : list channels.event :=
  drop (length (published s)) (published (state_after m s)).

(** The [i]-th transaction trace a traces buffer decodes to. *)
Fixpoint nth_trace `{Codec} (i : nat) (bin : bytes) : option chain_state.transaction_trace :=
  match bin_to_native_transaction_trace bin with
  | bin_ok (trace, bin') =>
      match i with
      | O => Some trace
      | S j => nth_trace j bin'
      end
  | bin_error _ => None
  end.

(** The condition of lines 341-343 and the new wait of lines 347-352. *)
Definition pausing (queue_size : Z) (s : receiver_plugin_impl) : bool :=
  slowdown_requested s
  || (exporter_will_ack s
      && (exporter_max_unconfirmed s <=? wrap32 (head s - exporter_acked_block s)))
  || (max_queue_size s <? queue_size).

Definition next_pause (msec : Z) : Z :=
  if msec =? 0 then 100 else if msec <? 8000 then wrap32 (msec * 2) else msec.

(** The exporter acknowledges, tolerates one unconfirmed block, and has
    not acknowledged up to [head]. *)
Definition unacked (s : receiver_plugin_impl) : Prop :=
  exporter_will_ack s = true ∧ exporter_max_unconfirmed s = 1
  ∧ 1 ≤ wrap32 (head s - exporter_acked_block s).

(** A computation that stays within the frame from every state. *)
Definition framed {A} (m : M A) : Prop := ∀ s, payload_frame s (m s).2.

(** A computation that writes no state. *)
Definition pure {A} (m : M A) : Prop := ∀ s, (m s).2 = s.

(** * The rest of the plugin

    The functions around the frame path: start-up and restart
    ([load_state], [request_blocks], [receive_abi]), the calls an exporter
    makes ([ack_block], [slowdown], [get_contract_abi_ctxt],
    [abort_receiver]), the handlers that wrap every asynchronous step
    ([callback], [catch_and_close], [on_fail], [close]) and the start of
    the plugin ([start_after_dependencies]). *)

(** ** More member writes *)

Definition set_exporter_acked_block (n : Z) (s : receiver_plugin_impl) :=
  {| db := db s; db_calls := db_calls s; max_queue_size := max_queue_size s; aborting := aborting s;
     head := head s; head_id := head_id s; irreversible := irreversible s;
     irreversible_id := irreversible_id s; block_timestamp := block_timestamp s;
     abi_types := abi_types s; contract_abi_ctxt := contract_abi_ctxt s;
     contract_abi_imported := contract_abi_imported s;
     blacklist_actions := blacklist_actions s;
     transaction_traces_has_subscribers := transaction_traces_has_subscribers s;
     abi_updates_has_subscribers := abi_updates_has_subscribers s;
     abi_errors_has_subscribers := abi_errors_has_subscribers s;
     table_row_updates_has_subscribers := table_row_updates_has_subscribers s;
     published := published s; exporter_will_ack := exporter_will_ack s;
     exporter_acked_block := n;
     exporter_max_unconfirmed := exporter_max_unconfirmed s; mytimer := mytimer s;
     pause_time_msec := pause_time_msec s; slowdown_requested := slowdown_requested s |}.

Definition set_aborting (b : bool) (s : receiver_plugin_impl) :=
  {| db := db s; db_calls := db_calls s; max_queue_size := max_queue_size s; aborting := b;
     head := head s; head_id := head_id s; irreversible := irreversible s;
     irreversible_id := irreversible_id s; block_timestamp := block_timestamp s;
     abi_types := abi_types s; contract_abi_ctxt := contract_abi_ctxt s;
     contract_abi_imported := contract_abi_imported s;
     blacklist_actions := blacklist_actions s;
     transaction_traces_has_subscribers := transaction_traces_has_subscribers s;
     abi_updates_has_subscribers := abi_updates_has_subscribers s;
     abi_errors_has_subscribers := abi_errors_has_subscribers s;
     table_row_updates_has_subscribers := table_row_updates_has_subscribers s;
     published := published s; exporter_will_ack := exporter_will_ack s;
     exporter_acked_block := exporter_acked_block s;
     exporter_max_unconfirmed := exporter_max_unconfirmed s; mytimer := mytimer s;
     pause_time_msec := pause_time_msec s; slowdown_requested := slowdown_requested s |}.

Definition set_abi_types (types : gmap string abieos.abi_type) (s : receiver_plugin_impl) :=
  {| db := db s; db_calls := db_calls s; max_queue_size := max_queue_size s; aborting := aborting s;
     head := head s; head_id := head_id s; irreversible := irreversible s;
     irreversible_id := irreversible_id s; block_timestamp := block_timestamp s;
     abi_types := types; contract_abi_ctxt := contract_abi_ctxt s;
     contract_abi_imported := contract_abi_imported s;
     blacklist_actions := blacklist_actions s;
     transaction_traces_has_subscribers := transaction_traces_has_subscribers s;
     abi_updates_has_subscribers := abi_updates_has_subscribers s;
     abi_errors_has_subscribers := abi_errors_has_subscribers s;
     table_row_updates_has_subscribers := table_row_updates_has_subscribers s;
     published := published s; exporter_will_ack := exporter_will_ack s;
     exporter_acked_block := exporter_acked_block s;
     exporter_max_unconfirmed := exporter_max_unconfirmed s; mytimer := mytimer s;
     pause_time_msec := pause_time_msec s; slowdown_requested := slowdown_requested s |}.

(** ** The request the receiver writes to the socket *)

(** [request_blocks] builds the JSON of a [get_blocks_request_v0] and
    [send] has abieos encode it with the protocol's "request" type.  The
    model keeps the request as the record that type describes; the
    numbers the source writes with [to_string] are the numbers. *)
Record get_blocks_request_v0 := {
  start_block_num : Z;
  end_block_num : Z;
  max_messages_in_flight : Z;
  have_positions : list chain_state.block_position;
  irreversible_only : bool;
  fetch_block : bool;
  fetch_traces : bool;
  fetch_deltas : bool
}.

(** The JSON side of abieos, again a library outside the repository:
    [json_to_native] on an [abi_def], [check_abi_version] on its
    version, [fill_contract] giving the [abi_types] of the contract, and
    [json_to_bin] for a request. *)
Class Json := {
  json_to_native_abi_def : bytes → decoded abieos.abi_def;
  check_abi_version : abieos.abi_def → decoded unit;
  fill_contract : abieos.abi_def → decoded (gmap string abieos.abi_type);
  json_to_bin : abieos.abi_type → get_blocks_request_v0 → decoded bytes
}.

(** ** The socket *)

(** Of [stream] the model keeps whether it is open and what was handed
    to [async_write], oldest first.  The pointer is null until
    [plugin_initialize] has run. *)
Record websocket_stream := {
  is_open : bool;
  written : list bytes
}.

Record connection := {
  my : receiver_plugin_impl;
  stream : option websocket_stream
}.

(** The member functions that touch the socket run on a [connection]. *)
Definition IO (A : Type) : Type := connection → outcome A * connection.

Definition lift {A} (m : M A) : IO A :=
  λ c, ((m (my c)).1, {| my := (m (my c)).2; stream := stream c |}).

Definition io_bind {A B} (m : IO A) (k : A → IO B) : IO B :=
  λ c, match m c with
       | (returned a, c') => k a c'
       | (threw e, c') => (threw e, c')
       end.

(** [stream->async_write(asio::buffer( *bin ), ...)] *)
Definition async_write (bin : bytes) : IO unit :=
  λ c, (returned tt,
        {| my := my c;
           stream := (λ st, {| is_open := is_open st; written := written st ++ [bin] |})
                       <$> stream c |}).

(** ** Start-up *)
Section startup.
Context `{Codec} `{Json}.
Local Open Scope string_scope.
Local Open Scope Z_scope.

(** [while (index.stack().size() > 0) db->undo();]  Every turn discards
    one scope, so the depth of the undo stack bounds the turns. *)
Fixpoint undo_all_fuel (fuel : nat) : M unit :=
  st <- gets (λ s, chainbase.stack (db s)) ;;
  match st with
  | [] => ret tt
  | _ :: _ =>
      match fuel with
      | O => db_undo
      | S n => db_undo ;;; undo_all_fuel n
      end
  end.

Definition undo_all : M unit :=
  λ s, undo_all_fuel (length (chainbase.stack (db s))) s.

(** *** load_state *)
Definition load_state : M unit :=
  depth <- gets (λ s, length (chainbase.stack (db s))) ;;
  let did_undo := bool_decide (0 < depth)%nat in
  (if did_undo then undo_all else ret tt) ;;;
  idx <- gets (λ s, chronicle.state_index (db_indexes s)) ;;
  match idx with
  | Some o =>
      modify (set_position (chronicle.head o) (chronicle.head_id o)
                (chronicle.irreversible o) (chronicle.irreversible_id o))
  | None => ret tt
  end ;;;
  (if did_undo then
     h <- gets head ;;
     publish (channels.forks h (wrap32 (Z.of_nat depth)) channels.restart)
   else ret tt) ;;;
  ack <- gets exporter_will_ack ;;
  (if ack : bool then modify (λ s, set_exporter_acked_block (head s) s) else ret tt) ;;;
  init_contract_abi_ctxt.

(** *** receive_abi *)
Definition receive_abi (p : bytes) : M unit :=
  abi <- or_throw "abi parse error: " (json_to_native_abi_def p) ;;
  or_throw "abi version error: " (check_abi_version abi) ;;;
  types <- or_throw "" (fill_contract abi) ;;
  modify (set_abi_types types).

(** *** send *)
Definition send (value : get_blocks_request_v0) : IO unit :=
  io_bind (lift (get_type "request")) (λ request_type,
  io_bind (lift (or_throw "failed to convert during send: "
                   (json_to_bin request_type value))) (λ bin,
  async_write bin)).

(** *** request_blocks *)

(** [idx.lower_bound(irreversible)] on the [by_blocknum] index. *)
Fixpoint lower_bound (n : Z) (l : list chronicle.received_block_object)
    : list chronicle.received_block_object :=
  match l with
  | [] => []
  | x :: l' => if chronicle.block_index x <? n then lower_bound n l' else l
  end.

(** [while( itr != idx.end() && itr->block_index <= head ) { positions.push_back(...); itr++; }] *)
Fixpoint positions_upto (h : Z) (l : list chronicle.received_block_object)
    : list chain_state.block_position :=
  match l with
  | [] => []
  | x :: l' =>
      if chronicle.block_index x <=? h
      then {| chain_state.block_num := chronicle.block_index x;
              chain_state.block_id := chronicle.block_id x |} :: positions_upto h l'
      else []
  end.

(** The request that [request_blocks] hands to [send]. *)
Definition blocks_request (s : receiver_plugin_impl) : get_blocks_request_v0 :=
  {| start_block_num := wrap32 (head s + 1);
     end_block_num := 4294967295;
     max_messages_in_flight := 4294967295;
     have_positions :=
       positions_upto (head s) (lower_bound (irreversible s) (received_blocks s));
     irreversible_only := false;
     fetch_block := true;
     fetch_traces := true;
     fetch_deltas := true |}.

Definition request_blocks : IO unit :=
  io_bind (lift (gets blocks_request)) send.

(** ** The handlers around every asynchronous step *)

(** [close()] *)
Definition close : IO unit :=
  λ c, (returned tt,
        match stream c with
        | Some st =>
            if is_open st
            then {| my := my c;
                    stream := Some {| is_open := false; written := written st |} |}
            else c
        | None => c
        end).

(** [on_fail(ec, what)]: the error is logged and the socket closed. *)
Definition on_fail : IO unit := close.

(** [catch_and_close(f)]: both handlers log and close. *)
Definition catch_and_close {A} (f : IO A) : IO unit :=
  λ c, match f c with
       | (returned _, c') => (returned tt, c')
       | (threw _, c') => close c'
       end.

(** [callback(ec, what, f)]; [ec] tells whether the error code is set. *)
Definition callback {A} (ec : bool) (f : IO A) : IO unit :=
  if ec then on_fail else catch_and_close f.

(** The handler of the first read, [receive_abi(in_buffer);
    request_blocks(); continue_read();].  What [continue_read] goes on to
    do depends on the reads and timers to come; it is a parameter. *)
Definition start_read_handler {A} (in_buffer : bytes) (continue_read : IO A) : IO A :=
  io_bind (lift (receive_abi in_buffer)) (λ _,
  io_bind request_blocks (λ _, continue_read)).

(** ** The calls of an exporter plugin *)

(** [receiver_plugin::ack_block].  Its [assert(my->exporter_will_ack)]
    is a debug check; the properties below that need it take it as a
    hypothesis. *)
Definition ack_block (block_num : Z) : M unit :=
  acked <- gets exporter_acked_block ;;
  if block_num <? acked
  then throw (runtime_error "Exporter acked block below prevuously acked one")
  else modify (set_exporter_acked_block block_num).

(** [receiver_plugin::slowdown] *)
Definition slowdown : M unit :=
  modify (λ s, set_pause (mytimer s) (pause_time_msec s) true s).

(** [receiver_plugin::get_contract_abi_ctxt] *)
Definition get_contract_abi_ctxt (account : name) : M (option abieos.abieos_context) :=
  get_contract_abi_ready account ;;;
  gets contract_abi_ctxt.

(** [receiver_plugin::abort_receiver] *)
Definition abort_receiver : IO unit :=
  io_bind close (λ _, lift (modify (set_aborting true))).

End startup.

(** ** receiver_plugin::start_after_dependencies *)

(** [appbase::abstract_plugin::state] *)
Inductive plugin_state := registered | initialized | started | stopped.

Definition is_started (st : plugin_state) : bool :=
  match st with started => true | _ => false end.

(** One call: the dependent plugins that have started are erased from
    the front of [dependent_plugins] until one has not; the answer is the
    list that is left and [mustwait].  A dependent plugin is given by the
    state [get_state()] answers and its name. *)
Fixpoint start_after_dependencies (dependent_plugins : list (plugin_state * string))
    : list (plugin_state * string) * bool :=
  match dependent_plugins with
  | [] => ([], false)
  | d :: rest =>
      if is_started d.1 then start_after_dependencies rest
      else (dependent_plugins, true)
  end.

(** [receiver_plugin::add_dependency] *)
Definition add_dependency (plug : plugin_state) (plugname : string)
    (dependent_plugins : list (plugin_state * string)) : list (plugin_state * string) :=
  dependent_plugins ++ [(plug, plugname)].

(** ** Proof devices for the rest of the plugin *)

(** The receiver's position in the chain. *)
Definition position (s : receiver_plugin_impl) : Z * checksum256 * Z * checksum256 :=
  (head s, head_id s, irreversible s, irreversible_id s).

Definition position_of (o : chronicle.state_object) : Z * checksum256 * Z * checksum256 :=
  (chronicle.head o, chronicle.head_id o, chronicle.irreversible o,
   chronicle.irreversible_id o).

(** A ring entry as a position of the protocol. *)
Definition block_position_of (o : chronicle.received_block_object)
    : chain_state.block_position :=
  {| chain_state.block_num := chronicle.block_index o;
     chain_state.block_id := chronicle.block_id o |}.

(** The receiver as [load_state] leaves it. *)
Definition loaded (s : receiver_plugin_impl) : receiver_plugin_impl :=
  let depth := length (chainbase.stack (db s)) in
  let s1 := rolled depth s in
  let s2 := match chronicle.state_index (db_indexes s1) with
            | Some o =>
                set_position (chronicle.head o) (chronicle.head_id o)
                  (chronicle.irreversible o) (chronicle.irreversible_id o) s1
            | None => s1
            end in
  let s3 := if bool_decide (0 < depth)%nat
            then set_published
                   (published s2 ++
                      [channels.forks (head s2) (wrap32 (Z.of_nat depth)) channels.restart])
                   s2
            else s2 in
  let s4 := if exporter_will_ack s3 then set_exporter_acked_block (head s3) s3 else s3 in
  state_after init_contract_abi_ctxt s4.

(** What the ABI registry consists of: the decode context, the set of
    accounts loaded into it, and the store. *)
Definition abi_view (s : receiver_plugin_impl) :=
  (contract_abi_ctxt s, contract_abi_imported s, db s).

(** The receiver after lines 650-652 (and 631-632): the context is renewed if
    [account] had been loaded into it. *)
Definition renewed_for (account : name) (s : receiver_plugin_impl) : receiver_plugin_impl :=
  if decide (account ∈ contract_abi_imported s)
  then state_after init_contract_abi_ctxt s
  else s.

(** The ABI records of a state of the store all pass the check of
    [abieos_set_abi_bin]. *)
Definition abis_valid `{Codec} (ix : chronicle.indexes) : Prop :=
  map_Forall (λ _ data, abieos_check_abi_bin data = bin_ok tt)
    (chronicle.contract_abi_index ix).

(** The ABI decode context agrees with the store: there is a context,
    every account in [contract_abi_imported] has an ABI record and the
    context holds just that ABI for it, and the context holds nothing for
    any other account. *)
Definition abi_cache_coherent (s : receiver_plugin_impl) : Prop :=
  ∃ c, contract_abi_ctxt s = Some c
    ∧ ∀ a, (a ∈ contract_abi_imported s →
            is_Some (contract_abis s !! a)
            ∧ abieos.contracts c !! a = contract_abis s !! a)
         ∧ (a ∉ contract_abi_imported s → abieos.contracts c !! a = None).

(** The ABI registry is in order: the context agrees with the store, and
    the records are valid, in the store and in every state the undo stack
    keeps. *)
Definition abi_registry_ok `{Codec} (s : receiver_plugin_impl) : Prop :=
  abi_cache_coherent s
  ∧ abis_valid (db_indexes s)
  ∧ Forall (λ u, abis_valid (chainbase.old_values u)) (chainbase.stack (db s)).

(** A computation that keeps the ABI registry in order, however it
    ends. *)
Definition keeps_abi_registry `{Codec} {A} (m : M A) : Prop :=
  ∀ s, abi_registry_ok s → abi_registry_ok (m s).2.

(** What the loop of [receive_traces] gets out of the buffer: the
    traces it decodes, [num] of them or those before the first that
    cannot be decoded, and in that case the error. *)
Fixpoint decoded_traces `{Codec} (num : nat) (bin : bytes)
    : list chain_state.transaction_trace * option string :=
  match num with
  | O => ([], None)
  | S n =>
      match bin_to_native_transaction_trace bin with
      | bin_ok (trace, bin') =>
          (trace :: (decoded_traces n bin').1, (decoded_traces n bin').2)
      | bin_error e => ([], Some e)
      end
  end.

(** The traces that pass the blacklist, as events. *)
Definition trace_events (s : receiver_plugin_impl)
    (traces : list chain_state.transaction_trace) : list channels.event :=
  channels.transaction_traces (head s) (block_timestamp s)
    <$> filter (λ trace, blacklisted (blacklist_actions s) trace = false) traces.

(** The same for the rows of a "contract_row" delta: the rows with the
    objects they decode to. *)
Fixpoint decoded_contract_rows `{Codec} (rows : list chain_state.row)
    : list (chain_state.row * chain_state.key_value_object) * option string :=
  match rows with
  | [] => ([], None)
  | r :: rs =>
      match bin_to_native_key_value_object (chain_state.data r) with
      | bin_ok (kvo, _) =>
          ((r, kvo) :: (decoded_contract_rows rs).1, (decoded_contract_rows rs).2)
      | bin_error e => ([], Some e)
      end
  end.

(** Whether the ABI of [code] can be had: it is loaded or the store has
    a record. *)
Definition abi_known (s : receiver_plugin_impl) (code : name) : bool :=
  bool_decide (code ∈ contract_abi_imported s)
  || bool_decide (is_Some (contract_abis s !! code)).

(** The event a row of a "contract_row" delta gives. *)
Definition contract_row_event (s : receiver_plugin_impl)
    (x : chain_state.row * chain_state.key_value_object) : channels.event :=
  if abi_known s (chain_state.kvo_code x.2)
  then channels.table_row_updates (head s) (block_timestamp s)
         (chain_state.present x.1) x.2
  else channels.abi_errors (head s) (block_timestamp s) (chain_state.kvo_code x.2)
         "cannot decode table delta because of missing ABI".

(** An event says it belongs to block [h] and, where it carries a
    block timestamp, to the time [ts].  A fork event names the block; no
    pause event is stamped. *)
Definition stamped (h : Z) (ts : block_timestamp_t) (ev : channels.event) : Prop :=
  match ev with
  | channels.forks n _ _ => n = h
  | channels.blocks n _ blk => n = h ∧ chain_state.timestamp blk = ts
  | channels.block_table_deltas t _ => t = ts
  | channels.transaction_traces n t _ => n = h ∧ t = ts
  | channels.abi_updates n t _ _ _ => n = h ∧ t = ts
  | channels.abi_removals n t _ => n = h ∧ t = ts
  | channels.abi_errors n t _ _ => n = h ∧ t = ts
  | channels.table_row_updates n t _ _ => n = h ∧ t = ts
  | channels.receiver_pauses _ _ => False
  end.

(** From [s] to [s'] head and block timestamp have stayed and every
    event published is stamped with them. *)
Definition stamps (s s' : receiver_plugin_impl) : Prop :=
  head s' = head s
  ∧ block_timestamp s' = block_timestamp s
  ∧ ∃ evs, published s' = published s ++ evs
           ∧ Forall (stamped (head s) (block_timestamp s)) evs.

Definition stamping {A} (m : M A) : Prop := ∀ s, stamps s (m s).2.

(** The block timestamp a frame leaves: the one of its block, when it
    has one, else the one the receiver had. *)
Definition frame_timestamp `{Codec} (result : chain_state.get_blocks_result_v0)
    (s : receiver_plugin_impl) : block_timestamp_t :=
  match chain_state.block result with
  | Some bl =>
      match bin_to_native_signed_block bl with
      | bin_ok blk => chain_state.timestamp blk
      | bin_error _ => block_timestamp s
      end
  | None => block_timestamp s
  end.



(** The members that only the exporter's calls, the back-pressure code
    and the start-up write. *)
Definition settings (s : receiver_plugin_impl) :=
  (max_queue_size s, aborting s, abi_types s, blacklist_actions s,
   (transaction_traces_has_subscribers s, abi_updates_has_subscribers s,
    abi_errors_has_subscribers s, table_row_updates_has_subscribers s),
   (exporter_will_ack s, exporter_acked_block s, exporter_max_unconfirmed s),
   (mytimer s, pause_time_msec s, slowdown_requested s)).

(** A run of [ack_block] calls; a call that throws leaves the receiver
    to the next one. *)
Definition ack_blocks (block_nums : list Z) (s : receiver_plugin_impl)
    : receiver_plugin_impl :=
  foldl (λ s n, state_after (ack_block n) s) s block_nums.

(** ** A concrete JSON side and a concrete connection, for the examples *)

(** The protocol schema with the "request" type. *)
Definition demo_protocol_types : gmap string abieos.abi_type :=
  <["request" :=
      {| abieos.type_name := "request"; abieos.filled_variant := true;
         abieos.fields := [{| abieos.field_name := "get_status_request_v0";
                              abieos.field_type_filled_struct := true |};
                           {| abieos.field_name := "get_blocks_request_v0";
                              abieos.field_type_filled_struct := true |}] |}]>
    demo_abi_types.

(** A toy JSON side: an ABI is accepted when it is not empty and starts
    with the version byte 1; a request is encoded as the variant tag,
    the start block and the number of positions. *)
#[local] Instance demo_json : Json := {|
  json_to_native_abi_def p :=
    match p with
    | [] => bin_error "unexpected end of input"
    | _ => bin_ok (abieos.abi_def_of p)
    end;
  check_abi_version abi :=
    match abi with
    | abieos.abi_def_of (v :: _) =>
        if Byte.eqb v Byte.x01 then bin_ok tt else bin_error "unsupported abi version"
    | _ => bin_error "unsupported abi version"
    end;
  fill_contract abi := bin_ok demo_protocol_types;
  json_to_bin type request :=
    if abieos.filled_variant type
    then bin_ok [byte_of 1; byte_of (Z.to_N (start_block_num request));
                 byte_of (N.of_nat (length (have_positions request)))]
    else bin_error "not a variant"
|}.

(** A second toy codec, with table deltas.  A result frame is as
    before, but what follows the positions is the [deltas] payload.  A
    table delta is a byte for the table (0 account, 1 contract_row,
    anything else permission), the number of rows, and four bytes per
    row: [present], the variant tag, and two bytes of data.  An account
    row names the account and holds one byte of ABI (none if the byte is
    0); a contract row names the contract and the primary key.  An ABI
    is refused when it starts with the byte 255. *)
Definition demo_account (b : Byte.byte) : name :=
  if Byte.eqb b Byte.x01 then "alice"%string else "bob"%string.

Fixpoint demo_rows (n : nat) (bin : bytes) : option (list chain_state.row * bytes) :=
  match n with
  | O => Some ([], bin)
  | S n' =>
      match bin with
      | p :: tag :: a :: b :: rest =>
          match demo_rows n' rest with
          | Some (rows, rest') =>
              Some ({| chain_state.present := negb (Byte.eqb p Byte.x00);
                       chain_state.data := [tag; a; b] |} :: rows, rest')
          | None => None
          end
      | _ => None
      end
  end.

Definition delta_codec : Codec := {|
  read_varuint32 bin :=
    match bin with
    | b :: rest => bin_ok (demo_num b, rest)
    | [] => bin_error "read past end"
    end;
  zlib_decompress bin := bin_ok bin;
  bin_to_native_result bin :=
    match bin with
    | hn :: hi :: ln :: li :: tf :: tn :: ti :: pf :: pn :: pi :: rest =>
        bin_ok {| chain_state.head := demo_position hn hi;
                  chain_state.last_irreversible := demo_position ln li;
                  chain_state.this_block := demo_optional_position tf tn ti;
                  chain_state.prev_block := demo_optional_position pf pn pi;
                  chain_state.block := None;
                  chain_state.traces := None;
                  chain_state.deltas := match rest with [] => None | _ => Some rest end |}
    | _ => bin_error "read past end"
    end;
  bin_to_native_signed_block bin :=
    match bin with
    | t :: _ => bin_ok {| chain_state.timestamp := demo_num t;
                          chain_state.producer := "eosio"; chain_state.previous := 0 |}
    | [] => bin_error "read past end"
    end;
  bin_to_native_table_delta bin :=
    match bin with
    | k :: n :: rest =>
        match demo_rows (Z.to_nat (demo_num n)) rest with
        | Some (rows, rest') =>
            bin_ok ({| chain_state.td_name :=
                         if Byte.eqb k Byte.x00 then "account"
                         else if Byte.eqb k Byte.x01 then "contract_row"
                         else "permission";
                       chain_state.rows := rows |}, rest')
        | None => bin_error "read past end"
        end
    | _ => bin_error "read past end"
    end;
  bin_to_native_account_object bin :=
    match bin with
    | a :: b :: rest =>
        bin_ok ({| chain_state.ao_name := demo_account a; chain_state.privileged := false;
                   chain_state.code := [];
                   chain_state.abi := if Byte.eqb b Byte.x00 then [] else [b] |}, rest)
    | _ => bin_error "read past end"
    end;
  bin_to_native_key_value_object bin :=
    match bin with
    | a :: b :: rest =>
        bin_ok ({| chain_state.kvo_code := demo_account a; chain_state.scope := "scope";
                   chain_state.table := "table"; chain_state.primary_key := demo_num b;
                   chain_state.payer := demo_account a; chain_state.value := [] |}, rest)
    | _ => bin_error "read past end"
    end;
  bin_to_native_transaction_trace bin :=
    match bin with
    | _ :: rest => bin_ok (demo_trace [], rest)
    | [] => bin_error "read past end"
    end;
  bin_to_native_abi_def data := bin_ok (abieos.abi_def_of data);
  abieos_check_abi_bin data :=
    match data with
    | b :: _ => if Byte.eqb b Byte.xff then bin_error "unsupported abi version" else bin_ok tt
    | [] => bin_error "read past end"
    end
|}.

(** The schema with the table types. *)
Definition demo_variant (nm alternative : string) : abieos.abi_type :=
  {| abieos.type_name := nm; abieos.filled_variant := true;
     abieos.fields := [{| abieos.field_name := alternative;
                          abieos.field_type_filled_struct := true |}] |}.

Definition demo_table_types : gmap string abieos.abi_type :=
  <["table_delta" := demo_variant "table_delta" "table_delta_v0"]>
    (<["account" := demo_variant "account" "account_v0"]>
       (<["contract_row" := demo_variant "contract_row" "contract_row_v0"]>
          (<["permission" := demo_variant "permission" "permission_v0"]>
             demo_abi_types))).

(** The receiver at block 102 with that schema. *)
Definition receiver_with_tables : receiver_plugin_impl :=
  set_abi_types demo_table_types receiver_at_102.

(** A deltas payload: an account delta giving alice the ABI [7], and a
    contract_row delta with a row of alice and a row of bob. *)
Definition demo_deltas : bytes :=
  map byte_of [2;  0; 0; 1;  1; 0; 1; 7;
                   0; 1; 2;  1; 0; 1; 5;  1; 0; 2; 6]%N.

(** An account delta that removes alice's ABI and gives bob the ABI [9]. *)
Definition demo_deltas_swap : bytes :=
  map byte_of [1;  0; 0; 2;  1; 0; 1; 0;  1; 0; 2; 9]%N.

(** A receiver that has taken block 1 with [demo_deltas] during catch-up,
    and a new receiver started on its database. *)
Definition fresh_receiver_with_tables : receiver_plugin_impl :=
  set_abi_types demo_table_types fresh_receiver.

Definition receiver_with_alice : receiver_plugin_impl :=
  state_after (@receive_result delta_codec (demo_frame_behind 200 1 1 150 0 ++ demo_deltas))
    fresh_receiver_with_tables.

Definition receiver_restarted : receiver_plugin_impl :=
  state_after load_state
    (set_db (db receiver_with_alice) fresh_receiver_with_tables).

(** The receiver at block 102, with the full schema and an open socket. *)
Definition connected_at_102 : connection :=
  {| my := set_abi_types demo_protocol_types receiver_at_102;
     stream := Some {| is_open := true; written := [] |} |}.

(** * Properties *)

(** ** Running the monad *)
Section running.
Context {A B : Type}.

Lemma bind_returned (m : M A) (k : A → M B) s a s1 :
  m s = (returned a, s1) → bind m k s = k a s1.
Proof. intros E. unfold bind. now rewrite E. Qed.

Lemma bind_threw (m : M A) (k : A → M B) s e s1 :
  m s = (threw e, s1) → bind m k s = (threw e, s1).
Proof. intros E. unfold bind. now rewrite E. Qed.

Lemma bind_inv_returned (m : M A) (k : A → M B) s b s' :
  bind m k s = (returned b, s') →
  ∃ a s1, m s = (returned a, s1) ∧ k a s1 = (returned b, s').
Proof.
  unfold bind. destruct (m s) as [[a|e] s1]; intros E.
  - eauto.
  - discriminate.
Qed.

End running.

(** ** check_pause *)
Section backpressure.
Context `{Codec}.

Lemma check_pause_go q s :
  pausing q s = false → check_pause q s = (returned true, s).
Proof.
  intros E. unfold check_pause, pausing in *. cbn. now rewrite E.
Qed.

Lemma check_pause_pause q s :
  pausing q s = true →
  check_pause q s =
    (returned false,
     set_pause (Some (next_pause (pause_time_msec s))) (next_pause (pause_time_msec s)) false
       (if 2000 <=? next_pause (pause_time_msec s)
        then set_published
               (published s ++ [channels.receiver_pauses (head s) (exporter_acked_block s)])
               (set_pause (mytimer s) (next_pause (pause_time_msec s)) false s)
        else set_pause (mytimer s) (next_pause (pause_time_msec s)) false s)).
Proof.
  intros E. unfold check_pause, pausing in *. cbn. rewrite E.
  fold (next_pause (pause_time_msec s)).
  cbn. destruct (2000 <=? next_pause (pause_time_msec s)); reflexivity.
Qed.

Lemma check_pause_false_pausing q s :
  result_of (check_pause q) s = returned false → pausing q s = true.
Proof.
  destruct (pausing q s) eqn:E; [done|].
  unfold result_of. rewrite (check_pause_go _ _ E). discriminate.
Qed.

Lemma next_pause_backoff k : next_pause (backoff k) = backoff (S k).
Proof.
  destruct k as [|[|[|[|[|[|[|k]]]]]]]; try reflexivity.
  unfold next_pause, backoff. rewrite !Z.min_r by lia. reflexivity.
Qed.

Lemma unacked_pausing q s : unacked s → pausing q s = true.
Proof.
  intros (Hack & Hmax & Hlag). unfold pausing. rewrite Hack, Hmax.
  replace (1 <=? wrap32 (head s - exporter_acked_block s)) with true
    by (symmetry; apply Z.leb_le; exact Hlag).
  cbn. now rewrite orb_true_r.
Qed.

Lemma continue_read_unacked q p s :
  unacked s →
  ∃ s', continue_read q p s = (returned (paused (next_pause (pause_time_msec s))), s')
        ∧ published s' =
            published s ++
              (if 2000 <=? next_pause (pause_time_msec s)
               then [channels.receiver_pauses (head s) (exporter_acked_block s)] else [])
        ∧ pause_time_msec s' = next_pause (pause_time_msec s)
        ∧ mytimer s' = Some (next_pause (pause_time_msec s))
        ∧ head s' = head s ∧ exporter_acked_block s' = exporter_acked_block s
        ∧ unacked s'.
Proof.
  intros Hs. pose proof (unacked_pausing q s Hs) as Hp.
  unfold continue_read.
  rewrite (bind_returned _ _ _ _ _ (check_pause_pause q s Hp)).
  destruct Hs as (Hack & Hmax & Hlag).
  destruct (2000 <=? next_pause (pause_time_msec s)); cbn;
    (eexists; split; [reflexivity|]); cbn; rewrite ?app_nil_r;
    repeat split; assumption.
Qed.

Lemma read_rounds_unacked inputs : ∀ k s,
  unacked s → next_pause (pause_time_msec s) = backoff k →
  ∃ s', read_rounds inputs s
        = (returned (paused ∘ backoff <$> seq k (length inputs)), s')
        ∧ published s' =
            published s ++
              omap (λ i, if 2000 <=? backoff i
                         then Some (channels.receiver_pauses (head s) (exporter_acked_block s))
                         else None) (seq k (length inputs)).
Proof.
  induction inputs as [|[q p] rest IH]; intros k s Hs Hk.
  - exists s. cbn. now rewrite app_nil_r.
  - destruct (continue_read_unacked q p s Hs)
      as (s1 & E1 & Hpub & Hmsec & _ & Hh & Ha & Hs1).
    destruct (IH (S k) s1 Hs1) as (s' & E' & Hpub').
    { rewrite Hmsec, Hk. apply next_pause_backoff. }
    exists s'. split.
    + cbn [read_rounds]. rewrite (bind_returned _ _ _ _ _ E1).
      rewrite (bind_returned _ _ _ _ _ E'). cbn. now rewrite Hk.
    + rewrite Hpub', Hpub, Hk, Hh, Ha. cbn [length seq]. rewrite <- app_assoc.
      f_equal. change (seq k (S (length rest))) with (k :: seq (S k) (length rest)).
      cbn [omap list_omap]. now destruct (2000 <=? backoff k).
Qed.

End backpressure.

(** ** What the block, delta and trace paths leave alone *)
Section frames.
Context `{Codec}.

Lemma payload_frame_refl s : payload_frame s s.
Proof.
  exists (contract_abis s), (block_timestamp s), (contract_abi_ctxt s),
    (contract_abi_imported s), []. split; [|constructor].
  destruct s as [[[] ? ?]]. unfold payload_update. cbn. now rewrite app_nil_r.
Qed.

Lemma payload_frame_trans s1 s2 s3 :
  payload_frame s1 s2 → payload_frame s2 s3 → payload_frame s1 s3.
Proof.
  intros (a1 & t1 & c1 & i1 & e1 & -> & F1) (a2 & t2 & c2 & i2 & e2 & -> & F2).
  exists a2, t2, c2, i2, (e1 ++ e2). split.
  - unfold payload_update. cbn. now rewrite app_assoc.
  - apply Forall_app. split; assumption.
Qed.

Lemma payload_frame_publish s ev :
  payload_event (blacklist_actions s) ev → payload_frame s (publish ev s).2.
Proof.
  intros Hev.
  exists (contract_abis s), (block_timestamp s), (contract_abi_ctxt s),
    (contract_abi_imported s), [ev]. split; [|by repeat constructor].
  destruct s as [[[] ? ?]]. reflexivity.
Qed.

Lemma payload_frame_abi_cache s ctx imported :
  payload_frame s (set_abi_cache ctx imported s).
Proof.
  exists (contract_abis s), (block_timestamp s), ctx, imported, [].
  split; [|constructor].
  destruct s as [[[] ? ?]]. unfold payload_update. cbn. now rewrite app_nil_r.
Qed.

Lemma payload_frame_block_timestamp s ts :
  payload_frame s (set_block_timestamp ts s).
Proof.
  exists (contract_abis s), ts, (contract_abi_ctxt s), (contract_abi_imported s), [].
  split; [|constructor].
  destruct s as [[[] ? ?]]. unfold payload_update. cbn. now rewrite app_nil_r.
Qed.

Lemma payload_frame_abi_index s abis :
  payload_frame s (write_indexes (set_contract_abi_index abis) s).2.
Proof.
  exists abis, (block_timestamp s), (contract_abi_ctxt s), (contract_abi_imported s), [].
  split; [|constructor].
  destruct s as [[[] ? ?]]. unfold payload_update. cbn. now rewrite app_nil_r.
Qed.

Lemma pure_framed {A} (m : M A) : pure m → framed m.
Proof. intros Hp s. rewrite Hp. apply payload_frame_refl. Qed.

Lemma pure_ret {A} (a : A) : pure (ret a).
Proof. done. Qed.

Lemma pure_throw {A} e : pure (@throw A e).
Proof. done. Qed.

Lemma pure_gets {A} (f : receiver_plugin_impl → A) : pure (gets f).
Proof. done. Qed.

Lemma pure_or_throw {A} prefix (d : decoded A) : pure (or_throw prefix d).
Proof. by destruct d. Qed.

Lemma pure_bind {A B} (m : M A) (k : A → M B) :
  pure m → (∀ a, pure (k a)) → pure (bind m k).
Proof.
  intros Hm Hk s. unfold bind. specialize (Hm s).
  destruct (m s) as [[a|e] s1]; cbn in *; subst; [apply Hk|done].
Qed.

Lemma framed_bind {A B} (m : M A) (k : A → M B) :
  framed m → (∀ a, framed (k a)) → framed (bind m k).
Proof.
  intros Hm Hk s. unfold bind. specialize (Hm s).
  destruct (m s) as [[a|e] s1]; cbn in *; [|done].
  eapply payload_frame_trans; [exact Hm|apply Hk].
Qed.

Lemma framed_try_catch {A} (body : M A) handler :
  framed body → (∀ e, framed (handler e)) → framed (try_catch body handler).
Proof.
  intros Hb Hh s. unfold try_catch. specialize (Hb s).
  destruct (body s) as [[a|e] s1]; cbn in *; [done|].
  eapply payload_frame_trans; [exact Hb|apply Hh].
Qed.

Lemma framed_modify (f : receiver_plugin_impl → receiver_plugin_impl) :
  (∀ s, payload_frame s (f s)) → framed (modify f).
Proof. intros Hf s. apply Hf. Qed.

Lemma framed_publish ev : (∀ bl, payload_event bl ev) → framed (publish ev).
Proof. intros Hev s. now apply payload_frame_publish. Qed.

Lemma framed_write_abi_index abis : framed (write_indexes (set_contract_abi_index abis)).
Proof. intros s. apply payload_frame_abi_index. Qed.

Ltac framed_step :=
  match goal with
  | |- framed (bind _ _) => apply framed_bind; [|intros ?]
  | |- framed (try_catch _ _) => apply framed_try_catch; [|intros ?]
  | |- framed (ret _) => apply pure_framed, pure_ret
  | |- framed (gets _) => apply pure_framed, pure_gets
  | |- framed (throw _) => apply pure_framed, pure_throw
  | |- framed (or_throw _ _) => apply pure_framed, pure_or_throw
  | |- framed (publish _) => apply framed_publish; intros ?; exact I
  | |- framed (write_indexes (set_contract_abi_index _)) => apply framed_write_abi_index
  | |- framed (modify _) =>
      apply framed_modify; intros ?;
      first [apply payload_frame_abi_cache | apply payload_frame_block_timestamp]
  | |- framed (if ?b then _ else _) => destruct b
  | |- framed (match ?x with _ => _ end) => destruct x
  | |- framed ?m => assumption
  end.

Ltac pure_step :=
  match goal with
  | |- pure (bind _ _) => apply pure_bind; [|intros ?]
  | |- pure (ret _) => apply pure_ret
  | |- pure (gets _) => apply pure_gets
  | |- pure (throw _) => apply pure_throw
  | |- pure (or_throw _ _) => apply pure_or_throw
  | |- pure (if ?b then _ else _) => destruct b
  | |- pure (match ?x with _ => _ end) => destruct x
  | |- pure ?m => assumption
  end.

Lemma framed_init_contract_abi_ctxt : framed init_contract_abi_ctxt.
Proof.
  intros s. unfold init_contract_abi_ctxt, modify. cbn.
  destruct (contract_abi_ctxt s); apply payload_frame_abi_cache.
Qed.

Lemma framed_abieos_set_abi_bin account data : framed (abieos_set_abi_bin account data).
Proof.
  intros s. unfold abieos_set_abi_bin.
  destruct (contract_abi_ctxt s); [|apply payload_frame_refl].
  destruct (abieos_check_abi_bin data); cbn;
    [apply payload_frame_abi_cache|apply payload_frame_refl].
Qed.

Lemma framed_clear_contract_abi account : framed (clear_contract_abi account).
Proof.
  pose proof framed_init_contract_abi_ctxt.
  unfold clear_contract_abi. repeat framed_step.
Qed.

Lemma framed_save_contract_abi account data : framed (save_contract_abi account data).
Proof.
  pose proof framed_init_contract_abi_ctxt.
  pose proof (framed_abieos_set_abi_bin account data).
  unfold save_contract_abi. repeat framed_step.
Qed.

Lemma framed_get_contract_abi_ready account : framed (get_contract_abi_ready account).
Proof.
  unfold get_contract_abi_ready. repeat framed_step.
  apply framed_abieos_set_abi_bin.
Qed.

Lemma pure_get_type nm : pure (get_type nm).
Proof. unfold get_type. repeat pure_step. Qed.

Lemma pure_check_variant_index bin type expected :
  pure (check_variant_index bin type expected).
Proof. unfold check_variant_index. repeat pure_step. Qed.

Lemma pure_check_variant_name bin type expected :
  pure (check_variant_name bin type expected).
Proof. unfold check_variant_name. repeat pure_step. Qed.

Lemma pure_check_rows type rows : pure (check_rows type rows).
Proof.
  induction rows as [|r rs IH]; cbn [check_rows]; [apply pure_ret|].
  pose proof (pure_check_variant_index (chain_state.data r) type 0).
  repeat pure_step.
Qed.

Lemma pure_decode_result p : pure (decode_result p).
Proof.
  unfold decode_result. apply pure_bind; [apply pure_get_type|intros t].
  apply pure_bind; [apply pure_check_variant_name|intros bin].
  apply pure_or_throw.
Qed.

Lemma framed_account_rows rows : framed (account_rows rows).
Proof.
  induction rows as [|r rs IH]; cbn [account_rows]; [apply pure_framed, pure_ret|].
  repeat framed_step;
    first [apply framed_clear_contract_abi | apply framed_save_contract_abi].
Qed.

Lemma framed_contract_rows rows : framed (contract_rows rows).
Proof.
  induction rows as [|r rs IH]; cbn [contract_rows]; [apply pure_framed, pure_ret|].
  pose proof framed_get_contract_abi_ready.
  repeat framed_step. apply framed_get_contract_abi_ready.
Qed.

Lemma framed_receive_delta bin : framed (receive_delta bin).
Proof.
  unfold receive_delta.
  apply framed_bind; [apply pure_framed, pure_get_type|intros t].
  apply framed_bind; [apply pure_framed, pure_check_variant_name|intros bin1].
  apply framed_bind; [apply pure_framed, pure_gets|intros ts].
  apply framed_bind; [apply pure_framed, pure_or_throw|intros [td bin2]].
  apply framed_bind; [apply pure_framed, pure_get_type|intros vt].
  apply framed_bind; [repeat framed_step|intros _].
  apply framed_bind; [apply pure_framed, pure_check_rows|intros rows1].
  apply framed_bind; [apply pure_framed, pure_gets|intros tru].
  apply framed_bind; [apply pure_framed, pure_gets|intros ae].
  apply framed_bind.
  - destruct (bool_decide _); [apply framed_account_rows|].
    destruct (_ && _); [apply framed_contract_rows|apply pure_framed, pure_ret].
  - intros rows2. repeat framed_step.
Qed.

Lemma framed_receive_deltas_loop num : ∀ bin, framed (receive_deltas_loop num bin).
Proof.
  induction num as [|n IH]; intros bin; cbn [receive_deltas_loop].
  - apply pure_framed, pure_ret.
  - apply framed_bind; [apply framed_receive_delta|intros bin']. apply IH.
Qed.

Lemma framed_receive_deltas buf : framed (receive_deltas buf).
Proof.
  unfold receive_deltas.
  apply framed_bind; [apply pure_framed, pure_or_throw|intros data].
  apply framed_bind; [apply pure_framed, pure_or_throw|intros [num bin]].
  apply framed_receive_deltas_loop.
Qed.

Lemma framed_receive_block bin : framed (receive_block bin).
Proof. unfold receive_block. repeat framed_step. Qed.

Lemma framed_receive_traces_loop num : ∀ bin, framed (receive_traces_loop num bin).
Proof.
  induction num as [|n IH]; intros bin s; cbn [receive_traces_loop].
  - apply payload_frame_refl.
  - unfold bind at 1.
    destruct (bin_to_native_transaction_trace bin) as [[trace bin']|e]; cbn;
      [|apply payload_frame_refl].
    destruct (blacklisted (blacklist_actions s) trace) eqn:Hbl; cbn.
    + apply IH.
    + eapply payload_frame_trans; [|apply IH].
      apply (payload_frame_publish s
               (channels.transaction_traces (head s) (block_timestamp s) trace)).
      exact Hbl.
Qed.

Lemma framed_receive_traces buf : framed (receive_traces buf).
Proof.
  unfold receive_traces.
  apply framed_bind; [apply pure_framed, pure_gets|intros [|]];
    [|apply pure_framed, pure_ret].
  apply framed_bind; [apply pure_framed, pure_or_throw|intros data].
  apply framed_bind; [apply pure_framed, pure_or_throw|intros [num bin]].
  apply framed_receive_traces_loop.
Qed.

End frames.

(** ** The steps of receive_result *)
Section fork_controller.
Context `{Codec}.

Lemma undone_stack k : ∀ d, chainbase.stack (undone k d) = drop k (chainbase.stack d).
Proof.
  induction k as [|k IH]; intros d; cbn; [done|].
  unfold chainbase.undo. destruct (chainbase.stack d) as [|u st] eqn:E; cbn.
  - now rewrite E.
  - now rewrite IH.
Qed.

Lemma undone_revision k : ∀ d,
  (k ≤ length (chainbase.stack d))%nat →
  chainbase.revision (undone k d) = chainbase.revision d - Z.of_nat k.
Proof.
  induction k as [|k IH]; intros d Hk; cbn [undone]; [lia|].
  unfold chainbase.undo. destruct (chainbase.stack d) as [|u st] eqn:E; cbn in Hk; [lia|].
  rewrite IH by (cbn; lia). cbn. lia.
Qed.

Lemma undone_ordered k : ∀ d, db_ordered d → db_ordered (undone k d).
Proof.
  induction k as [|k IH]; intros d Hd; cbn [undone]; [done|].
  unfold chainbase.undo. destruct (chainbase.stack d) as [|u st] eqn:E; [done|].
  apply IH. destruct Hd as [_ Hst]. rewrite E in Hst.
  apply Forall_cons in Hst as [Hu Hst]. split; assumption.
Qed.

Lemma rolled_zero s : rolled 0 s = s.
Proof. destruct s. unfold rolled. cbn. now rewrite app_nil_r. Qed.

Lemma raise_revision_returns b s :
  raise_revision b s = (returned tt, state_after (raise_revision b) s).
Proof.
  unfold state_after, raise_revision, bind, gets. cbn.
  now destruct (revision s <? b).
Qed.


(** [raise_revision] writes the revision counter and the record of calls,
    nothing else. *)
Lemma raise_revision_frame b s :
  ∃ d cs, state_after (raise_revision b) s = set_db_calls cs (set_db d s)
          ∧ chainbase.indexes d = chainbase.indexes (db s)
          ∧ chainbase.stack d = chainbase.stack (db s)
          ∧ cs = db_calls s ++
                   (if revision s <? b then [chainbase.set_revision_call b] else []).
Proof.
  unfold state_after, raise_revision, bind, gets. cbn.
  destruct (revision s <? b); cbn.
  - eexists _, _. repeat split; reflexivity.
  - exists (db s), (db_calls s). destruct s. cbn. now rewrite app_nil_r.
Qed.

(** The loop equation of [undo_while]. *)
Lemma undo_while_unfold b s :
  undo_while b s =
    if b <=? revision s then (db_undo ;;; undo_while b) s else (returned tt, s).
Proof.
  unfold undo_while.
  destruct (chainbase.stack (db s)) as [|u st] eqn:E; cbn [length undo_while_fuel];
    unfold bind at 1, gets at 1; cbn; destruct (b <=? revision s); try reflexivity.
  - unfold bind, db_undo, chainbase.undo. now rewrite E.
  - unfold bind, db_undo, chainbase.undo. rewrite E. reflexivity.
Qed.

Lemma undo_while_fuel_spec fuel : ∀ b s,
  fuel = length (chainbase.stack (db s)) →
  ∃ k, (k ≤ fuel)%nat
    ∧ (revision s < b → k = 0%nat)
    ∧ ((undo_while_fuel fuel b s = (returned tt, rolled k s)
        ∧ revision (rolled k s) < b
        ∧ (b ≤ revision s → revision (rolled k s) = b - 1))
       ∨ (undo_while_fuel fuel b s
            = (threw (logic_error "undo: no undo scope left"), rolled k s)
          ∧ k = fuel ∧ b ≤ revision (rolled k s))).
Proof.
  induction fuel as [|n IH]; intros b s Hfuel; cbn [undo_while_fuel];
    unfold bind at 1, gets at 1; cbn;
    destruct (Z.leb_spec b (revision s)) as [Hge|Hlt].
  - exists 0%nat. split; [lia|]. split; [lia|]. right. rewrite rolled_zero.
    unfold db_undo, chainbase.undo.
    destruct (chainbase.stack (db s)); [|discriminate]. repeat split; try done.
  - exists 0%nat. split; [lia|]. split; [done|]. left. rewrite rolled_zero.
    repeat split; [lia|lia].
  - destruct (chainbase.stack (db s)) as [|u st] eqn:E; [discriminate|].
    injection Hfuel as Hn.
    set (d' := {| chainbase.indexes := chainbase.old_values u; chainbase.stack := st;
                  chainbase.revision := chainbase.revision (db s) - 1 |}).
    set (s1 := set_db_calls (db_calls s ++ [chainbase.undo_call]) (set_db d' s)).
    assert (Hundo : db_undo s = (returned tt, s1)).
    { unfold db_undo, chainbase.undo. rewrite E. reflexivity. }
    rewrite (bind_returned _ _ _ _ _ Hundo).
    destruct (IH b s1) as (k & Hk & Hzero & Hcase); [exact Hn|].
    assert (Hroll : rolled k s1 = rolled (S k) s).
    { unfold rolled. cbn [undone]. unfold chainbase.undo. rewrite E.
      subst s1. cbn. now rewrite <- app_assoc. }
    assert (Hs1 : revision s1 = revision s - 1) by reflexivity.
    exists (S k). split; [lia|]. split; [lia|]. rewrite <- Hroll.
    destruct Hcase as [(Ew & Hrev & Hexact)|(Ew & Hk' & Hrev)]; [left|right].
    + split; [exact Ew|]. split; [exact Hrev|]. intros _.
      destruct (Z.le_gt_cases b (revision s1)) as [Hle|Hgt]; [now apply Hexact|].
      rewrite (Hzero Hgt), rolled_zero. lia.
    + split; [exact Ew|]. split; [lia|exact Hrev].
  - exists 0%nat. split; [lia|]. split; [done|]. left. rewrite rolled_zero.
    repeat split; [lia|lia].
Qed.

Lemma bind_gets {A B} (f : receiver_plugin_impl → A) (k : A → M B) s :
  bind (gets f) k s = k (f s) s.
Proof. reflexivity. Qed.

Lemma bind_ret {A B} (a : A) (k : A → M B) s : bind (ret a) k s = k a s.
Proof. reflexivity. Qed.

Lemma bind_assoc {A B C} (m : M A) (k1 : A → M B) (k2 : B → M C) s :
  bind (bind m k1) k2 s = bind m (λ a, bind (k1 a) k2) s.
Proof. unfold bind. now destruct (m s) as [[a|e] s1]. Qed.

Lemma fork_or_continuation_below result b s :
  ¬ chain_state.block_num (chain_state.last_irreversible result) < b →
  fork_or_continuation result b s = (returned tt, s).
Proof.
  intros Hb. unfold fork_or_continuation.
  destruct (Z.ltb_spec (chain_state.block_num (chain_state.last_irreversible result)) b);
    [lia|reflexivity].
Qed.

Lemma fork_or_continuation_ahead result b s :
  chain_state.block_num (chain_state.last_irreversible result) < b → head s < b →
  fork_or_continuation result b s =
    if (0 <? head s) && prev_mismatch result s
    then (threw (runtime_error "prev_block does not match"), s)
    else (returned tt, s).
Proof.
  intros HL Hh. unfold fork_or_continuation.
  destruct (Z.ltb_spec (chain_state.block_num (chain_state.last_irreversible result)) b);
    [|lia].
  rewrite bind_gets. destruct (Z.leb_spec b (head s)); [lia|].
  rewrite bind_gets. fold (prev_mismatch result s).
  now destruct ((0 <? head s) && prev_mismatch result s).
Qed.

Lemma fork_or_continuation_fork result b s :
  chain_state.block_num (chain_state.last_irreversible result) < b → b ≤ head s →
  ∃ k, (k ≤ length (chainbase.stack (db s)))%nat
    ∧ (revision s < b → k = 0%nat)
    ∧ let s1 := rolled k (state_after init_contract_abi_ctxt s) in
      (fork_or_continuation result b s
         = (threw (logic_error "undo: no undo scope left"), s1)
       ∧ k = length (chainbase.stack (db s)) ∧ b ≤ revision s1)
      ∨ (fork_or_continuation result b s
           = (threw (runtime_error
                       ("Cannot rollback, no undo stack at revision "
                        +:+ pretty (revision s1))), s1)
         ∧ revision s1 < b ∧ revision s1 ≤ 0)
      ∨ (fork_or_continuation result b s
           = (returned tt,
              state_after
                (publish (channels.forks b (wrap32 (head s - b)) channels.network)) s1)
         ∧ 0 < revision s1 < b
         ∧ (b ≤ revision s → revision s1 = b - 1)).
Proof.
  intros HL Hh. unfold fork_or_continuation.
  destruct (Z.ltb_spec (chain_state.block_num (chain_state.last_irreversible result)) b);
    [|lia].
  rewrite bind_gets. destruct (Z.leb_spec b (head s)); [|lia].
  set (s0 := state_after init_contract_abi_ctxt s).
  assert (E0 : init_contract_abi_ctxt s = (returned tt, s0)) by reflexivity.
  rewrite (bind_returned _ _ _ _ _ E0).
  assert (Hst : chainbase.stack (db s0) = chainbase.stack (db s)).
  { subst s0. unfold state_after, init_contract_abi_ctxt, modify. cbn.
    now destruct (contract_abi_ctxt s). }
  assert (Hrv : revision s0 = revision s).
  { subst s0. unfold state_after, init_contract_abi_ctxt, modify. cbn.
    now destruct (contract_abi_ctxt s). }
  destruct (undo_while_fuel_spec (length (chainbase.stack (db s0))) b s0 eq_refl)
    as (k & Hk & Hzero & Hcase).
  rewrite Hst in Hk. rewrite Hrv in Hzero.
  exists k. split; [exact Hk|]. split; [exact Hzero|]. cbv zeta.
  fold (undo_while b s0) in Hcase.
  destruct Hcase as [(Ew & Hrev & Hexact)|(Ew & Hk' & Hrev)].
  - rewrite (bind_returned _ _ _ _ _ Ew). rewrite bind_gets.
    destruct (Z.leb_spec (revision (rolled k s0)) 0) as [Hle|Hgt].
    + right. left. repeat split; [exact Hrev|exact Hle].
    + right. right. rewrite Hrv in Hexact. repeat split; [lia|lia|exact Hexact].
  - left. rewrite (bind_threw _ _ _ _ _ Ew). rewrite Hst in Hk'.
    repeat split; [exact Hk'|exact Hrev].
Qed.

Lemma publishes_refl P s : publishes P s s.
Proof. split; [done|]. exists []. now rewrite app_nil_r. Qed.

Lemma publishes_trans P s1 s2 s3 :
  publishes P s1 s2 → publishes P s2 s3 → publishes P s1 s3.
Proof.
  intros (Hb1 & e1 & Hp1 & F1) (Hb2 & e2 & Hp2 & F2). split; [congruence|].
  exists (e1 ++ e2). rewrite Hp2, Hp1, app_assoc. split; [done|].
  apply Forall_app. split; [done|]. now rewrite <- Hb1.
Qed.

Lemma publishes_weaken (P Q : gmap name (gset name) → channels.event → Prop) s s' :
  (∀ bl ev, P bl ev → Q bl ev) → publishes P s s' → publishes Q s s'.
Proof.
  intros HPQ (Hb & evs & Hp & F). split; [done|]. exists evs. split; [done|].
  eapply Forall_impl; [exact F|]. intros ev. apply HPQ.
Qed.

Lemma payload_frame_publishes s s' : payload_frame s s' → publishes payload_event s s'.
Proof. intros (a & t & c & i & evs & -> & F). split; [done|]. now exists evs. Qed.

Lemma publishes_db P s d cs : publishes P s (set_db_calls cs (set_db d s)).
Proof. split; [done|]. exists []. cbn. now rewrite app_nil_r. Qed.

Lemma session_destructor_db s :
  ∃ d cs, (session_destructor s).2 = set_db_calls cs (set_db d s).
Proof.
  unfold session_destructor. destruct (chainbase.undo (db s)) as [d|]; cbn.
  - eexists _, _. reflexivity.
  - exists (db s), (db_calls s). now destruct s.
Qed.

Lemma apply_block_spec result b bid s :
  (∃ ring, ring_after b bid s = Some ring
           ∧ payload_frame (positioned result b bid ring s) (apply_block result b bid s).2)
  ∨ (ring_after b bid s = None
     ∧ apply_block result b bid s
       = (threw (logic_error
                   "could not insert object, most likely a uniqueness constraint was violated"),
          s)).
Proof.
  assert (Hrest : ∀ ring,
    payload_frame (positioned result b bid ring s)
      (((match chain_state.block result with
         | Some bl => receive_block bl | None => ret tt end) ;;;
        (match chain_state.deltas result with
         | Some bl => receive_deltas bl | None => ret tt end) ;;;
        (match chain_state.traces result with
         | Some bl => receive_traces bl | None => ret tt end))
         (positioned result b bid ring s)).2).
  { intros ring.
    apply (framed_bind (A:=unit) (B:=unit)).
    - destruct (chain_state.block result);
        [apply framed_receive_block|apply pure_framed, pure_ret].
    - intros _. apply (framed_bind (A:=unit) (B:=unit)).
      + destruct (chain_state.deltas result);
          [apply framed_receive_deltas|apply pure_framed, pure_ret].
      + intros _. destruct (chain_state.traces result);
          [apply framed_receive_traces|apply pure_framed, pure_ret]. }
  unfold apply_block, ring_after. rewrite bind_gets.
  destruct (irreversible s <? b).
  - unfold add_received_block. rewrite !bind_assoc, bind_gets.
    destruct (insert_by_blocknum _ (received_blocks s)) as [idx'|];
      cbn [fmap option_fmap option_map].
    + left. exists (truncate_front (irreversible s) idx'). split; [reflexivity|].
      apply (Hrest (truncate_front (irreversible s) idx')).
    + right. split; reflexivity.
  - left. exists (received_blocks s). split; [reflexivity|].
    assert (Hpos : positioned result b bid (received_blocks s) s
                   = set_position b bid
                       (chain_state.block_num (chain_state.last_irreversible result))
                       (chain_state.block_id (chain_state.last_irreversible result)) s).
    { destruct s as [[[] ? ?]]. reflexivity. }
    specialize (Hrest (received_blocks s)). rewrite Hpos in Hrest |- *. exact Hrest.
Qed.

Lemma finish_block_eq s :
  finish_block s =
    if aborting s then (returned false, (session_destructor s).2)
    else (returned true, finished s).
Proof.
  unfold finish_block. rewrite bind_gets. destruct (aborting s).
  - unfold bind, session_destructor. now destruct (chainbase.undo (db s)).
  - unfold save_state. rewrite bind_assoc, bind_gets.
    unfold finished.
    cbv beta delta [id].
    destruct (chronicle.state_index (db_indexes s)); cbn; now rewrite <- app_assoc.
Qed.

Lemma in_undo_session_publishes result b bid s :
  publishes payload_event s (in_undo_session result b bid s).2.
Proof.
  unfold in_undo_session, start_undo_session.
  unfold bind at 1, db_call, modify. cbn [fst snd].
  set (s0 := set_db_calls _ _).
  assert (H0 : publishes payload_event s s0) by apply publishes_db.
  eapply publishes_trans; [exact H0|]. clear H0.
  unfold bind, on_unwind.
  destruct (apply_block_spec result b bid s0) as [(ring & _ & Hf)|(_ & E)].
  - apply payload_frame_publishes in Hf.
    assert (Hp : publishes payload_event s0 (positioned result b bid ring s0)).
    { split; [done|]. exists []. cbn. now rewrite app_nil_r. }
    pose proof (publishes_trans _ _ _ _ Hp Hf) as Hs2. clear Hp Hf.
    destruct (apply_block result b bid s0) as [[[]|e] s2]; cbn [fst snd] in *.
    + rewrite finish_block_eq. eapply publishes_trans; [exact Hs2|].
      destruct (aborting s2); cbn [snd].
      * destruct (session_destructor_db s2) as (d & cs & ->). apply publishes_db.
      * apply publishes_db.
    + eapply publishes_trans; [exact Hs2|].
      destruct (session_destructor_db s2) as (d & cs & ->). apply publishes_db.
  - rewrite E. cbn [snd].
    destruct (session_destructor_db s0) as (d & cs & ->). apply publishes_db.
Qed.

Lemma in_undo_session_true result b bid s s' :
  in_undo_session result b bid s = (returned true, s') →
  ∃ ring s2,
    ring_after b bid s = Some ring
    ∧ payload_frame (positioned result b bid ring (state_after start_undo_session s)) s2
    ∧ aborting s2 = false
    ∧ s' = finished s2.
Proof.
  unfold in_undo_session. intros E.
  apply bind_inv_returned in E as ([] & s0 & E0 & E).
  assert (Hs0 : s0 = state_after start_undo_session s).
  { unfold state_after. now rewrite E0. }
  apply bind_inv_returned in E as ([] & s2 & E1 & E).
  unfold on_unwind in E1.
  destruct (apply_block_spec result b bid s0) as [(ring & Hring & Hf)|(_ & Ethrow)].
  - destruct (apply_block result b bid s0) as [[[]|e] s2'] eqn:Ea; [|discriminate].
    injection E1 as ->. cbn [snd] in Hf.
    rewrite finish_block_eq in E. destruct (aborting s2) eqn:Hab; [discriminate|].
    injection E as <-. exists ring, s2. subst s0. repeat split; assumption.
  - rewrite Ethrow in E1. discriminate.
Qed.

Lemma receive_result_decoded p s result :
  result_of (decode_result p) s = returned result →
  receive_result p s =
    match chain_state.this_block result with
    | None => (returned true, s)
    | Some this_block => receive_block_frame result this_block s
    end.
Proof.
  intros E. unfold receive_result.
  assert (Ed : decode_result p s = (returned result, s)).
  { pose proof (pure_decode_result p s) as Hp. unfold result_of in E.
    destruct (decode_result p s) as [o s0]. cbn in *. congruence. }
  rewrite (bind_returned _ _ _ _ _ Ed).
  now destruct (chain_state.this_block result).
Qed.

Lemma receive_block_frame_true result this_block s s' :
  receive_block_frame result this_block s = (returned true, s') →
  ∃ s1 ring s2,
    fork_or_continuation result (chain_state.block_num this_block)
      (state_after (raise_revision (chain_state.block_num this_block)) s)
      = (returned tt, s1)
    ∧ ring_after (chain_state.block_num this_block) (chain_state.block_id this_block) s1
      = Some ring
    ∧ payload_frame
        (positioned result (chain_state.block_num this_block)
           (chain_state.block_id this_block) ring (state_after start_undo_session s1))
        s2
    ∧ aborting s2 = false
    ∧ s' = finished s2.
Proof.
  unfold receive_block_frame. cbv zeta. intros E.
  rewrite (bind_returned _ _ _ _ _ (raise_revision_returns _ s)) in E.
  apply bind_inv_returned in E as ([] & s1 & E1 & E).
  apply in_undo_session_true in E as (ring & s2 & Hring & Hf & Hab & ->).
  exists s1, ring, s2. repeat split; assumption.
Qed.

Lemma insert_by_blocknum_ordered o l l' :
  ring_ordered l → insert_by_blocknum o l = Some l' → ring_ordered l'.
Proof.
  unfold ring_ordered. revert l'.
  induction l as [|x l IH]; intros l' Hl E; cbn in E.
  - injection E as <-. repeat constructor.
  - destruct (Z.ltb_spec (chronicle.block_index o) (chronicle.block_index x)).
    + injection E as <-. constructor; [exact Hl|].
      apply StronglySorted_inv in Hl as [_ Hx].
      constructor; [done|]. eapply Forall_impl; [exact Hx|]. cbn. lia.
    + destruct (Z.eqb_spec (chronicle.block_index o) (chronicle.block_index x));
        [discriminate|].
      destruct (insert_by_blocknum o l) as [l0|] eqn:E0; [|discriminate].
      injection E as <-. apply StronglySorted_inv in Hl as [Hl Hx].
      constructor; [now apply IH|].
      assert (Hin : ∀ l0, insert_by_blocknum o l = Some l0 →
                ∀ y, y ∈ l0 → y = o ∨ y ∈ l).
      { clear. induction l as [|z l IH]; intros l0 E y Hy; cbn in E.
        - injection E as <-. apply list_elem_of_singleton in Hy. now left.
        - destruct (chronicle.block_index o <? chronicle.block_index z).
          + injection E as <-. apply elem_of_cons in Hy as [->|Hy]; [now left|now right].
          + destruct (chronicle.block_index o =? chronicle.block_index z); [discriminate|].
            destruct (insert_by_blocknum o l) as [l1|]; [|discriminate].
            injection E as <-. apply elem_of_cons in Hy as [->|Hy].
            * right. apply elem_of_cons. now left.
            * destruct (IH l1 eq_refl y Hy) as [->|Hy']; [now left|].
              right. apply elem_of_cons. now right. }
      apply Forall_forall. intros y Hy.
      destruct (Hin l0 E0 y Hy) as [->|Hy']; [lia|].
      rewrite Forall_forall in Hx. now apply Hx.
Qed.


(** What [fork_or_continuation] can have done when it returns. *)
Lemma fork_or_continuation_returned result b s s1 :
  fork_or_continuation result b s = (returned tt, s1) →
  s1 = s
  ∨ ∃ k, s1 = state_after (publish (channels.forks b (wrap32 (head s - b)) channels.network))
                (rolled k (state_after init_contract_abi_ctxt s)).
Proof.
  intros E.
  destruct (Z.lt_ge_cases (chain_state.block_num (chain_state.last_irreversible result)) b)
    as [HL|HL].
  - destruct (Z.le_gt_cases b (head s)) as [Hh|Hh].
    + destruct (fork_or_continuation_fork result b s HL Hh)
        as (k & _ & _ & [(E' & _)|[(E' & _)|(E' & _)]]);
        rewrite E' in E; try discriminate.
      injection E as <-. right. now exists k.
    + rewrite fork_or_continuation_ahead in E by (done || lia).
      destruct (_ && _); [discriminate|]. injection E as <-. now left.
  - rewrite fork_or_continuation_below in E by lia. injection E as <-. now left.
Qed.



Lemma events_of_app {A} (m : M A) s evs :
  published (state_after m s) = published s ++ evs → events_of m s = evs.
Proof. intros E. unfold events_of. rewrite E. apply drop_app_length. Qed.

Lemma fork_or_continuation_publishes result b s :
  publishes passed_blacklist s (fork_or_continuation result b s).2.
Proof.
  destruct (Z.lt_ge_cases (chain_state.block_num (chain_state.last_irreversible result)) b)
    as [HL|HL].
  - destruct (Z.le_gt_cases b (head s)) as [Hh|Hh].
    + assert (Hs1 : ∀ k, publishes passed_blacklist s
                           (rolled k (state_after init_contract_abi_ctxt s))).
      { intros k. unfold rolled, state_after, init_contract_abi_ctxt, modify. cbn.
        destruct (contract_abi_ctxt s); (split; [done|]); exists []; cbn;
          now rewrite app_nil_r. }
      destruct (fork_or_continuation_fork result b s HL Hh)
        as (k & _ & _ & [(E & _)|[(E & _)|(E & _)]]); rewrite E; cbn [snd];
        try apply Hs1.
      eapply publishes_trans; [apply Hs1|].
      split; [done|]. eexists [_]. split; [reflexivity|]. by repeat constructor.
    + rewrite fork_or_continuation_ahead by (done || lia).
      destruct (_ && _); apply publishes_refl.
  - rewrite fork_or_continuation_below by lia. apply publishes_refl.
Qed.

Lemma payload_event_passed bl ev : payload_event bl ev → passed_blacklist bl ev.
Proof. now destruct ev. Qed.

Lemma receive_result_publishes p s :
  publishes passed_blacklist s (receive_result p s).2.
Proof.
  unfold receive_result, bind.
  pose proof (pure_decode_result p s) as Hp.
  destruct (decode_result p s) as [[result|e] s0]; cbn in Hp; subst s0;
    [|apply publishes_refl].
  destruct (chain_state.this_block result) as [this_block|]; [|apply publishes_refl].
  unfold receive_block_frame. cbv zeta.
  rewrite (bind_returned _ _ _ _ _ (raise_revision_returns _ s)).
  destruct (raise_revision_frame (chain_state.block_num this_block) s)
    as (d & cs & Es0 & _).
  apply (publishes_trans _ s
           (state_after (raise_revision (chain_state.block_num this_block)) s));
    [rewrite Es0; apply publishes_db|].
  pose proof (fork_or_continuation_publishes result (chain_state.block_num this_block)
                (state_after (raise_revision (chain_state.block_num this_block)) s)) as Hf.
  unfold bind.
  destruct (fork_or_continuation result _ _) as [[[]|e] s1]; cbn [snd] in *; [|exact Hf].
  eapply publishes_trans; [exact Hf|].
  eapply publishes_weaken; [apply payload_event_passed|].
  apply in_undo_session_publishes.
Qed.

Lemma receive_traces_publishes buf s :
  publishes passed_blacklist s (receive_traces buf s).2.
Proof.
  eapply publishes_weaken; [apply payload_event_passed|].
  apply payload_frame_publishes, framed_receive_traces.
Qed.

Lemma blacklisted_first_action bl trace at0 rest names :
  chain_state.traces_ trace = at0 :: rest →
  bl !! chain_state.account at0 = Some names →
  chain_state.at_name at0 ∈ names →
  blacklisted bl trace = true.
Proof.
  intros Ht Hl Hin. unfold blacklisted. rewrite Ht, Hl. now apply bool_decide_eq_true.
Qed.

Lemma publishes_no_blacklisted {A} (m : M A) s h ts trace :
  publishes passed_blacklist s (m s).2 →
  blacklisted (blacklist_actions s) trace = true →
  channels.transaction_traces h ts trace ∉ events_of m s.
Proof.
  intros (_ & evs & Hp & F) Hbl Hin.
  rewrite (events_of_app m s evs Hp) in Hin.
  rewrite Forall_forall in F. specialize (F _ Hin). cbn in F. congruence.
Qed.

(** A trace that decodes at position [i] of the traces buffer and passes
    the blacklist is among the events the loop publishes. *)
Lemma receive_traces_loop_publishes_nth num : ∀ bin i trace s,
  (i < num)%nat → nth_trace i bin = Some trace →
  blacklisted (blacklist_actions s) trace = false →
  ∃ evs, published (state_after (receive_traces_loop num bin) s) = published s ++ evs
         ∧ channels.transaction_traces (head s) (block_timestamp s) trace ∈ evs.
Proof.
  induction num as [|n IH]; intros bin i trace s Hi Hnth Hbl; [lia|].
  unfold state_after. cbn [receive_traces_loop].
  unfold bind at 1.
  assert (Hdec : ∃ t0 bin', bin_to_native_transaction_trace bin = bin_ok (t0, bin')
                 ∧ match i with O => Some t0 | S j => nth_trace j bin' end = Some trace).
  { destruct i; cbn [nth_trace] in Hnth;
      destruct (bin_to_native_transaction_trace bin) as [[t0 bin']|e];
      try discriminate; eauto. }
  destruct Hdec as (t0 & bin' & -> & Hnth').
  cbn [or_throw ret]. rewrite bind_gets.
  destruct i as [|j].
  - injection Hnth' as ->. rewrite Hbl.
    set (ev := channels.transaction_traces (head s) (block_timestamp s) trace).
    rewrite bind_assoc, bind_gets, bind_assoc, bind_gets.
    unfold bind at 1, publish, modify. cbn [fst snd].
    set (s1 := set_published (published s ++ [ev]) s).
    destruct (framed_receive_traces_loop n bin' s1) as (a & t & c & im & evs & E & _).
    exists (ev :: evs). split; [|apply elem_of_cons; now left].
    fold ev. fold s1. rewrite E. cbn. now rewrite <- app_assoc.
  - destruct (blacklisted (blacklist_actions s) t0).
    + rewrite bind_ret. apply (IH bin' j trace s); [lia|exact Hnth'|exact Hbl].
    + set (ev := channels.transaction_traces (head s) (block_timestamp s) t0).
      rewrite bind_assoc, bind_gets, bind_assoc, bind_gets.
      unfold bind at 1, publish, modify. cbn [fst snd].
      set (s1 := set_published (published s ++ [ev]) s).
      destruct (IH bin' j trace s1) as (evs & E & Hin); [lia|exact Hnth'|exact Hbl|].
      exists (ev :: evs). split; [|apply elem_of_cons; now right].
      unfold state_after in E. fold ev. fold s1. rewrite E. cbn. now rewrite <- app_assoc.
Qed.

End fork_controller.

(** ** The claims on backpressure *)

Example backoff_prefix :
  backoff <$> seq 0 10 = [100; 200; 400; 800; 1600; 3200; 6400; 12800; 12800; 12800].
Proof. reflexivity. Qed.

(** C1, as amended.  Whenever [check_pause] decides to pause,
    [pause_time_msec] becomes 100 if it was 0, is doubled if it was
    nonzero and below 8000, and stays as it is otherwise (so it can reach
    12800); the timer is armed with the new value and a
    [receiver_pause] event carrying [head] and the acknowledged block is
    published exactly when the new value is >= 2000.  Consequently, with
    acknowledgement enabled, [exporter_max_unconfirmed = 1] and [head] at
    least one block past the acknowledged block, every round of the read
    loop pauses, whatever frames and queue sizes arrive: the waits are
    100, 200, 400, 800, 1600, 3200, 6400, 12800, 12800, ... ([backoff]),
    and the events published are one [receiver_pause] for each wait that
    is >= 2000 ([pause_events]). *)
Theorem C1_pause_backoff `{Codec} :
  (∀ q s, result_of (check_pause q) s = returned false →
     let s' := state_after (check_pause q) s in
     (pause_time_msec s = 0 → pause_time_msec s' = 100)
     ∧ (0 < pause_time_msec s < 8000 → pause_time_msec s' = 2 * pause_time_msec s)
     ∧ (8000 ≤ pause_time_msec s → pause_time_msec s' = pause_time_msec s)
     ∧ mytimer s' = Some (pause_time_msec s')
     ∧ slowdown_requested s' = false
     ∧ published s' =
         published s ++
           (if 2000 <=? pause_time_msec s'
            then [channels.receiver_pauses (head s) (exporter_acked_block s)] else []))
  ∧ (∀ inputs s,
       exporter_will_ack s = true → exporter_max_unconfirmed s = 1 →
       1 ≤ wrap32 (head s - exporter_acked_block s) → pause_time_msec s = 0 →
       result_of (read_rounds inputs) s
         = returned (paused ∘ backoff <$> seq 0 (length inputs))
       ∧ published (state_after (read_rounds inputs) s)
         = published s ++ pause_events (head s) (exporter_acked_block s) (length inputs)).
Proof.
  split.
  - intros q s Hr. apply check_pause_false_pausing in Hr.
    unfold state_after. rewrite (check_pause_pause q s Hr).
    cbn [snd]. set (n := next_pause (pause_time_msec s)).
    assert (Hn : pause_time_msec
                   (set_pause (Some n) n false
                      (if 2000 <=? n
                       then set_published
                              (published s ++
                                 [channels.receiver_pauses (head s) (exporter_acked_block s)])
                              (set_pause (mytimer s) n false s)
                       else set_pause (mytimer s) n false s)) = n) by reflexivity.
    cbv zeta. rewrite Hn.
    repeat split.
    + intros E. subst n. now rewrite E.
    + intros [Hlo Hhi]. subst n. unfold next_pause, wrap32.
      destruct (Z.eqb_spec (pause_time_msec s) 0); [lia|].
      destruct (Z.ltb_spec (pause_time_msec s) 8000); [|lia].
      rewrite Z.mod_small; lia.
    + intros Hge. subst n. unfold next_pause.
      destruct (Z.eqb_spec (pause_time_msec s) 0); [lia|].
      destruct (Z.ltb_spec (pause_time_msec s) 8000); [lia|]. reflexivity.
    + destruct (2000 <=? n); cbn; now rewrite ?app_nil_r.
  - intros inputs s Hack Hmax Hlag Hzero.
    destruct (read_rounds_unacked inputs 0%nat s) as (s' & E & Hpub).
    + repeat split; assumption.
    + now rewrite Hzero.
    + unfold result_of, state_after. rewrite E. split; [reflexivity|exact Hpub].
Qed.

(** C1, witness: the receiver at block 100 with nothing acknowledged, nine
    rounds of the read loop. *)
Lemma C1_pause_backoff_witness :
  result_of (read_rounds (replicate 9 (0, demo_frame 101 101 99 100))) receiver_at_100
    = returned (paused ∘ backoff <$> seq 0 9)
  ∧ published (state_after (read_rounds (replicate 9 (0, demo_frame 101 101 99 100)))
                 receiver_at_100)
    = published receiver_at_100 ++ pause_events 100 0 9.
Proof.
  apply (proj2 (@C1_pause_backoff demo_codec)
           (replicate 9 (0, demo_frame 101 101 99 100)) receiver_at_100);
    vm_compute; first [reflexivity | discriminate].
Defined.

(** C1, counterexample to the cap at 8000: the eighth wait in a row is
    12800 ms, not min(6400 * 2, 8000). *)
Lemma C1_eighth_wait_is_12800 :
  result_of (read_rounds (replicate 9 (0, demo_frame 101 101 99 100))) receiver_at_100
    = returned (paused <$> [100; 200; 400; 800; 1600; 3200; 6400; 12800; 12800])
  ∧ Z.min (6400 * 2) 8000 = 8000.
Proof. split; vm_compute; reflexivity. Qed.

(** ** The claims on receive_result *)

(** C9.  A frame that decodes to a [get_blocks_result_v0] without
    [this_block] makes [receive_result] return true and leaves the
    receiver exactly as it was: head and irreversible positions, the
    database (revision, undo stack, ring, ABI records), the ABI decode
    context and its loaded set, and the channels. *)
Theorem C9_no_this_block `{Codec} p s result :
  result_of (decode_result p) s = returned result →
  chain_state.this_block result = None →
  receive_result p s = (returned true, s).
Proof.
  intros Hd Hnone. rewrite (receive_result_decoded p s result Hd). now rewrite Hnone.
Qed.

(** C9, witness: a frame of the toy format whose [this_block] flag is 0,
    on the receiver that has blocks 100..102. *)
Lemma C9_no_this_block_witness :
  receive_result demo_frame_no_block receiver_at_102 = (returned true, receiver_at_102).
Proof.
  apply (@C9_no_this_block demo_codec demo_frame_no_block receiver_at_102
           {| chain_state.head := demo_position (byte_of 100) (byte_of 100);
              chain_state.last_irreversible := demo_position (byte_of 98) (byte_of 98);
              chain_state.this_block := None; chain_state.prev_block := None;
              chain_state.block := None; chain_state.traces := None;
              chain_state.deltas := None |});
    vm_compute; reflexivity.
Defined.

(** C5.  A frame whose block is above [last_irreversible] and above
    [head], arriving when [head > 0] with [prev_block] absent or carrying
    an id other than [head_id], makes [receive_result] throw
    "prev_block does not match".  No undo session has been opened by
    then: the only call made on the database is the [set_revision] of
    lines 437-440 when the revision was below the block number; the undo
    stack, the indexes (ring, state object, ABI records), the receiver's
    head and irreversible positions and the channels are as before. *)
Theorem C5_prev_block_mismatch `{Codec} p s result this_block :
  result_of (decode_result p) s = returned result →
  chain_state.this_block result = Some this_block →
  chain_state.block_num (chain_state.last_irreversible result)
    < chain_state.block_num this_block →
  head s < chain_state.block_num this_block →
  0 < head s →
  (chain_state.prev_block result = None
   ∨ ∃ pb, chain_state.prev_block result = Some pb ∧ chain_state.block_id pb ≠ head_id s) →
  let s' := state_after (receive_result p) s in
  result_of (receive_result p) s = threw (runtime_error "prev_block does not match")
  ∧ head s' = head s ∧ head_id s' = head_id s
  ∧ irreversible s' = irreversible s ∧ irreversible_id s' = irreversible_id s
  ∧ db_indexes s' = db_indexes s
  ∧ chainbase.stack (db s') = chainbase.stack (db s)
  ∧ db_calls s' =
      db_calls s ++
        (if revision s <? chain_state.block_num this_block
         then [chainbase.set_revision_call (chain_state.block_num this_block)] else [])
  ∧ published s' = published s.
Proof.
  intros Hd Hthis HL Hhead Hpos Hprev.
  assert (Hmis : prev_mismatch result s = true).
  { unfold prev_mismatch. destruct Hprev as [->|(pb & -> & Hne)]; [done|].
    now destruct (Z.eqb_spec (chain_state.block_id pb) (head_id s)). }
  cbv zeta. unfold result_of, state_after at 1 2 3 4 5 6 7 8.
  rewrite (receive_result_decoded p s result Hd), Hthis.
  unfold receive_block_frame. cbv zeta.
  rewrite (bind_returned _ _ _ _ _ (raise_revision_returns _ s)).
  destruct (raise_revision_frame (chain_state.block_num this_block) s)
    as (d & cs & Es0 & Hix & Hst & Hcs).
  set (s0 := state_after (raise_revision (chain_state.block_num this_block)) s) in *.
  assert (Hf : fork_or_continuation result (chain_state.block_num this_block) s0
               = (threw (runtime_error "prev_block does not match"), s0)).
  { rewrite fork_or_continuation_ahead; [|exact HL|now rewrite Es0].
    assert (Hh0 : head s0 = head s) by now rewrite Es0.
    assert (Hm0 : prev_mismatch result s0 = prev_mismatch result s) by now rewrite Es0.
    rewrite Hh0, Hm0, Hmis.
    now destruct (Z.ltb_spec 0 (head s)); [|lia]. }
  rewrite (bind_threw _ _ _ _ _ Hf). cbn [fst snd].
  rewrite Es0. cbn. unfold db_indexes. cbn. rewrite Hix, Hst, Hcs.
  repeat split; reflexivity.
Qed.

(** C5, witness: after blocks 100..102, block 103 arrives with a
    [prev_block] id that is not the id of block 102. *)
Lemma C5_prev_block_mismatch_witness :
  result_of (receive_result (demo_frame 103 103 101 55)) receiver_at_102
    = threw (runtime_error "prev_block does not match")
  ∧ head (state_after (receive_result (demo_frame 103 103 101 55)) receiver_at_102) = 102
  ∧ received_blocks (state_after (receive_result (demo_frame 103 103 101 55)) receiver_at_102)
    = received_blocks receiver_at_102.
Proof.
  destruct (@C5_prev_block_mismatch demo_codec (demo_frame 103 103 101 55) receiver_at_102
              {| chain_state.head := demo_position (byte_of 103) (byte_of 103);
                 chain_state.last_irreversible := demo_position (byte_of 101) (byte_of 101);
                 chain_state.this_block := Some (demo_position (byte_of 103) (byte_of 103));
                 chain_state.prev_block := Some (demo_position (byte_of 102) (byte_of 55));
                 chain_state.block := None; chain_state.traces := None;
                 chain_state.deltas := None |}
              (demo_position (byte_of 103) (byte_of 103)))
    as (Hr & Hh & _ & _ & _ & Hix & _).
  - vm_compute; reflexivity.
  - reflexivity.
  - vm_compute; reflexivity.
  - vm_compute; reflexivity.
  - vm_compute; reflexivity.
  - right. eexists. split; [reflexivity|]. vm_compute. discriminate.
  - split; [exact Hr|]. split; [exact Hh|].
    unfold received_blocks. now rewrite Hix.
Defined.

(** C6.  When a frame carrying [this_block] has been processed
    successfully ([receive_result] returned true), the last call made on
    the database is [commit(commit_rev)], right after the session's
    [push()], and the database is what that commit leaves; [commit_rev]
    is the new [irreversible] (the frame's last irreversible block
    number), except that with acknowledgement enabled and
    [exporter_acked_block] below it the acknowledged block is taken:
    min(irreversible, ack enabled ? acked block : irreversible). *)
Theorem C6_commit_cursor `{Codec} p s result this_block :
  result_of (decode_result p) s = returned result →
  chain_state.this_block result = Some this_block →
  result_of (receive_result p) s = returned true →
  let s' := state_after (receive_result p) s in
  irreversible s' = chain_state.block_num (chain_state.last_irreversible result)
  ∧ exporter_will_ack s' = exporter_will_ack s
  ∧ exporter_acked_block s' = exporter_acked_block s
  ∧ commit_rev s' =
      Z.min (irreversible s')
        (if exporter_will_ack s' then exporter_acked_block s' else irreversible s')
  ∧ ∃ calls d,
      db_calls s' = calls ++ [chainbase.push_call; chainbase.commit_call (commit_rev s')]
      ∧ db s' = chainbase.commit (commit_rev s') d.
Proof.
  intros Hd Hthis Hr. cbv zeta. unfold result_of in Hr. unfold state_after.
  rewrite (receive_result_decoded p s result Hd), Hthis in *.
  destruct (receive_block_frame result this_block s) as [o s'] eqn:E.
  cbn [fst snd] in *. subst o.
  apply receive_block_frame_true in E
    as (s1 & ring & s2 & Hfork & Hring & Hf & Hab & ->).
  destruct Hf as (abis & ts & ctx & imp & evs & -> & _).
  assert (Hs1 : exporter_will_ack s1 = exporter_will_ack s
                ∧ exporter_acked_block s1 = exporter_acked_block s).
  { set (b := chain_state.block_num this_block) in *.
    destruct (raise_revision_frame b s) as (d & cs & Es0 & _).
    destruct (Z.lt_ge_cases (chain_state.block_num (chain_state.last_irreversible result)) b)
      as [HL|HL].
    - destruct (Z.le_gt_cases b (head (state_after (raise_revision b) s))) as [Hh|Hh].
      + destruct (fork_or_continuation_fork result b _ HL Hh)
          as (k & _ & _ & [(E & _)|[(E & _)|(E & _)]]);
          rewrite E in Hfork; try discriminate.
        injection Hfork as <-. rewrite Es0.
        unfold state_after, init_contract_abi_ctxt, modify. cbn.
        now destruct (contract_abi_ctxt s).
      + rewrite fork_or_continuation_ahead in Hfork by (done || lia).
        destruct (_ && _); [discriminate|]. injection Hfork as <-. now rewrite Es0.
    - rewrite fork_or_continuation_below in Hfork by lia.
      injection Hfork as <-. now rewrite Es0. }
  destruct Hs1 as [Hack Hacked].
  split; [reflexivity|]. split; [exact Hack|]. split; [exact Hacked|].
  split.
  - unfold commit_rev. cbn.
    destruct (exporter_will_ack s1); cbn; [|lia].
    destruct (Z.ltb_spec (exporter_acked_block s1)
                (chain_state.block_num (chain_state.last_irreversible result))); lia.
  - eexists _, _. split; reflexivity.
Qed.

(** C6, witness: acknowledgement enabled with nothing acknowledged; block
    100 with last irreversible 98 is committed at revision 0. *)
Lemma C6_commit_cursor_witness :
  commit_rev (state_after (receive_result (demo_frame 100 100 98 0))
                (exporter_will_ack_blocks 1 fresh_receiver)) = Z.min 98 0
  ∧ last (db_calls (state_after (receive_result (demo_frame 100 100 98 0))
                      (exporter_will_ack_blocks 1 fresh_receiver)))
    = Some (chainbase.commit_call 0).
Proof.
  destruct (@C6_commit_cursor demo_codec (demo_frame 100 100 98 0)
              (exporter_will_ack_blocks 1 fresh_receiver)
              {| chain_state.head := demo_position (byte_of 100) (byte_of 100);
                 chain_state.last_irreversible := demo_position (byte_of 98) (byte_of 98);
                 chain_state.this_block := Some (demo_position (byte_of 100) (byte_of 100));
                 chain_state.prev_block := None;
                 chain_state.block := None; chain_state.traces := None;
                 chain_state.deltas := None |}
              (demo_position (byte_of 100) (byte_of 100)))
    as (_ & _ & _ & Hmin & _).
  - vm_compute; reflexivity.
  - reflexivity.
  - vm_compute; reflexivity.
  - split; [exact Hmin|]. vm_compute; reflexivity.
Defined.









Example fork_after_three_blocks :
  published (state_after (receive_result (demo_frame 101 201 100 100)) receiver_at_102)
    = [channels.forks 101 1 channels.network]
  ∧ received_blocks (state_after (receive_result (demo_frame 101 201 100 100))
                       receiver_at_102)
    = [{| chronicle.block_index := 101; chronicle.block_id := 201 |}]
  ∧ revision (state_after (receive_result (demo_frame 101 201 100 100)) receiver_at_102)
    = 101.
Proof. repeat split; vm_compute; reflexivity. Qed.

(** ** The claims on the ABI registry and the trace path *)

(** C7.  When [abieos_set_abi_bin] refuses the new ABI (with [error] as
    the text abieos reports), [save_contract_abi] returns normally, has
    published exactly one event, the [abi_error] for the account at the
    current head and block timestamp with that text, and has left the
    database untouched: no [contract_abi] record was created, modified or
    removed. *)
Theorem C7_abi_install_failure `{Codec} account data error s :
  abi_install_error account data s = Some error →
  result_of (save_contract_abi account data) s = returned tt
  ∧ db (state_after (save_contract_abi account data) s) = db s
  ∧ events_of (save_contract_abi account data) s
    = [channels.abi_errors (head s) (block_timestamp s) account error].
Proof.
  intros He.
  assert (Hgen :
    result_of (save_contract_abi account data) s = returned tt
    ∧ db (state_after (save_contract_abi account data) s) = db s
    ∧ published (state_after (save_contract_abi account data) s)
      = published s ++ [channels.abi_errors (head s) (block_timestamp s) account error]).
  { unfold abi_install_error in He.
    unfold result_of, state_after, save_contract_abi.
    rewrite bind_gets.
    destruct (contract_abi_ctxt s) as [c|] eqn:Ec;
      destruct (decide (account ∈ contract_abi_imported s));
      unfold try_catch, bind, init_contract_abi_ctxt, modify, abieos_set_abi_bin, ret;
      cbn; rewrite ?Ec; cbn;
      destruct (abieos_check_abi_bin data) as [[]|err]; try discriminate;
      injection He as <-; cbn; repeat split; reflexivity. }
  destruct Hgen as (Hr & Hdb & Hp).
  split; [exact Hr|]. split; [exact Hdb|]. now apply events_of_app.
Qed.

(** C7, witness: the toy codec refuses the empty ABI. *)
Lemma C7_abi_install_failure_witness :
  result_of (save_contract_abi "acc1" []) receiver_at_102 = returned tt
  ∧ db (state_after (save_contract_abi "acc1" []) receiver_at_102) = db receiver_at_102
  ∧ events_of (save_contract_abi "acc1" []) receiver_at_102
    = [channels.abi_errors (head receiver_at_102) (block_timestamp receiver_at_102)
         "acc1" "read past end"].
Proof.
  apply (@C7_abi_install_failure demo_codec "acc1"%string [] "read past end"%string
           receiver_at_102).
  vm_compute; reflexivity.
Defined.

(** C8.  The default blacklist of [plugin_initialize] holds
    (eosio, onblock) and (blocktwitter, tweet).  A decoded transaction
    trace whose first action trace has its (account, name) pair in
    [blacklist_actions] is not among the events [receive_traces]
    publishes, nor among those of a whole [receive_result], whatever
    block number and timestamp it would carry. *)
Theorem C8_blacklisted_trace_not_published `{Codec} :
  (default_blacklist_actions !! "eosio"%string = Some {["onblock"%string]}
   ∧ default_blacklist_actions !! "blocktwitter"%string = Some {["tweet"%string]})
  ∧ ∀ s trace at0 rest names h ts,
      chain_state.traces_ trace = at0 :: rest →
      blacklist_actions s !! chain_state.account at0 = Some names →
      chain_state.at_name at0 ∈ names →
      (∀ buf, channels.transaction_traces h ts trace ∉ events_of (receive_traces buf) s)
      ∧ (∀ p, channels.transaction_traces h ts trace ∉ events_of (receive_result p) s).
Proof.
  split.
  - split; reflexivity.
  - intros s trace at0 rest names h ts Ht Hl Hin.
    pose proof (blacklisted_first_action _ _ _ _ _ Ht Hl Hin) as Hbl.
    split.
    + intros buf. apply publishes_no_blacklisted; [|exact Hbl].
      apply receive_traces_publishes.
    + intros p. apply publishes_no_blacklisted; [|exact Hbl].
      apply receive_result_publishes.
Qed.

(** C8, witness: a traces buffer with an (eosio, onblock) trace and a
    transfer, alone and as the payload of block 103; only the transfer is
    published. *)
Lemma C8_blacklisted_trace_not_published_witness :
  events_of (receive_traces (map byte_of [2; 1; 2]%N)) receiver_at_102
    = [channels.transaction_traces 102 0
         (demo_trace [demo_action "eosio.token" "transfer"])]
  ∧ (channels.transaction_traces 102 0 (demo_trace [demo_action "eosio" "onblock"])
     ∉ events_of (receive_traces (map byte_of [2; 1; 2]%N)) receiver_at_102)
  ∧ (channels.transaction_traces 103 0 (demo_trace [demo_action "eosio" "onblock"])
     ∉ events_of (receive_result (demo_frame 103 103 101 102 ++ map byte_of [2; 1; 2]%N))
         receiver_at_102).
Proof.
  split; [vm_compute; reflexivity|].
  split.
  - apply (proj2 (@C8_blacklisted_trace_not_published demo_codec) receiver_at_102
             (demo_trace [demo_action "eosio" "onblock"])
             (demo_action "eosio" "onblock") [] {["onblock"%string]} 102 0).
    + reflexivity.
    + vm_compute; reflexivity.
    + apply elem_of_singleton. reflexivity.
  - apply (proj2 (@C8_blacklisted_trace_not_published demo_codec) receiver_at_102
             (demo_trace [demo_action "eosio" "onblock"])
             (demo_action "eosio" "onblock") [] {["onblock"%string]} 103 0).
    + reflexivity.
    + vm_compute; reflexivity.
    + apply elem_of_singleton. reflexivity.
Defined.

Example block_103_with_traces :
  events_of (receive_result (demo_frame 103 103 101 102 ++ map byte_of [2; 1; 2]%N))
    receiver_at_102
    = [channels.transaction_traces 103 0
         (demo_trace [demo_action "eosio.token" "transfer"])].
Proof. vm_compute; reflexivity. Qed.

(** C10.  With subscribers on the transaction_traces channel, a trace
    that the traces buffer decodes to (at any position [i] below the
    count it announces) and that has no action traces is not blacklisted
    and is among the events [receive_traces] publishes, stamped with the
    current head and block timestamp. *)
Theorem C10_trace_without_actions_published `{Codec} buf data num bin i trace s :
  transaction_traces_has_subscribers s = true →
  zlib_decompress buf = bin_ok data →
  read_varuint32 data = bin_ok (num, bin) →
  (i < Z.to_nat num)%nat →
  nth_trace i bin = Some trace →
  chain_state.traces_ trace = [] →
  blacklisted (blacklist_actions s) trace = false
  ∧ channels.transaction_traces (head s) (block_timestamp s) trace
    ∈ events_of (receive_traces buf) s.
Proof.
  intros Hsub Hz Hn Hi Hnth Hempty.
  assert (Hbl : blacklisted (blacklist_actions s) trace = false).
  { unfold blacklisted. now rewrite Hempty. }
  split; [exact Hbl|].
  destruct (receive_traces_loop_publishes_nth (Z.to_nat num) bin i trace s Hi Hnth Hbl)
    as (evs & E & Hin).
  rewrite (events_of_app _ _ evs); [exact Hin|].
  unfold state_after, receive_traces in *.
  rewrite bind_gets, Hsub, Hz. cbn [or_throw]. rewrite bind_ret, Hn.
  cbn [or_throw]. rewrite bind_ret. exact E.
Qed.

(** C10, witness: a buffer of two traces, the first (eosio, onblock), the
    second without actions. *)
Lemma C10_trace_without_actions_published_witness :
  blacklisted (blacklist_actions receiver_at_102) (demo_trace []) = false
  ∧ channels.transaction_traces (head receiver_at_102) (block_timestamp receiver_at_102)
      (demo_trace [])
    ∈ events_of (receive_traces (map byte_of [2; 1; 0]%N)) receiver_at_102.
Proof.
  apply (@C10_trace_without_actions_published demo_codec (map byte_of [2; 1; 0]%N)
           (map byte_of [2; 1; 0]%N) 2 (map byte_of [1; 0]%N) 1%nat (demo_trace [])
           receiver_at_102); vm_compute; first [reflexivity | lia].
Defined.

(** * Properties of the rest of the plugin *)

(** ** Start-up: load_state and request_blocks *)
Section startup_properties.
Context `{Codec}.

Lemma rolled_succ k s u st :
  chainbase.stack (db s) = u :: st →
  rolled k (set_db_calls (db_calls s ++ [chainbase.undo_call])
              (set_db {| chainbase.indexes := chainbase.old_values u;
                         chainbase.stack := st;
                         chainbase.revision := chainbase.revision (db s) - 1 |} s))
  = rolled (S k) s.
Proof.
  intros E. unfold rolled. cbn [undone]. unfold chainbase.undo. rewrite E.
  cbn. now rewrite <- app_assoc.
Qed.

Lemma undo_all_fuel_spec fuel : ∀ s,
  fuel = length (chainbase.stack (db s)) →
  undo_all_fuel fuel s = (returned tt, rolled fuel s).
Proof.
  induction fuel as [|n IH]; intros s Hfuel; cbn [undo_all_fuel]; rewrite bind_gets;
    destruct (chainbase.stack (db s)) as [|u st] eqn:E; try discriminate.
  - now rewrite rolled_zero.
  - injection Hfuel as Hn.
    assert (Hundo : db_undo s
              = (returned tt,
                 set_db_calls (db_calls s ++ [chainbase.undo_call])
                   (set_db {| chainbase.indexes := chainbase.old_values u;
                              chainbase.stack := st;
                              chainbase.revision := chainbase.revision (db s) - 1 |} s))).
    { unfold db_undo, chainbase.undo. rewrite E. reflexivity. }
    rewrite (bind_returned _ _ _ _ _ Hundo).
    rewrite IH by exact Hn. now rewrite (rolled_succ n s u st E).
Qed.

Lemma undo_all_spec s :
  undo_all s = (returned tt, rolled (length (chainbase.stack (db s))) s).
Proof. unfold undo_all. now apply undo_all_fuel_spec. Qed.

(** Undoing every scope leaves what the oldest scope had saved. *)
Lemma undone_all_indexes : ∀ d,
  chainbase.indexes (undone (length (chainbase.stack d)) d)
  = from_option chainbase.old_values (chainbase.indexes d) (last (chainbase.stack d)).
Proof.
  intros [ix st rev]. cbn [chainbase.stack chainbase.indexes]. revert ix rev.
  induction st as [|u st IH]; intros ix rev; [reflexivity|].
  cbn [length undone]. unfold chainbase.undo. cbn [chainbase.stack].
  rewrite IH. destruct st as [|u' st]; [reflexivity|]. rewrite last_cons_cons.
  destruct (last (u' :: st)) eqn:El; [reflexivity|].
  apply last_None in El. discriminate.
Qed.

Lemma filter_all {A} (P : A → Prop) `{∀ x, Decision (P x)} (l : list A) :
  Forall P l → filter P l = l.
Proof.
  induction 1 as [|x l Hx Hl IH]; [done|]. rewrite filter_cons_True by done.
  now rewrite IH.
Qed.

Lemma filter_none {A} (P : A → Prop) `{∀ x, Decision (P x)} (l : list A) :
  Forall (λ x, ¬ P x) l → filter P l = [].
Proof.
  induction 1 as [|x l Hx Hl IH]; [done|]. now rewrite filter_cons_False by done.
Qed.

Lemma lower_bound_filter irr l :
  ring_ordered l →
  lower_bound irr l = filter (λ o, irr ≤ chronicle.block_index o) l.
Proof.
  unfold ring_ordered. induction 1 as [|x l Hl IH Hx]; [done|].
  cbn [lower_bound]. destruct (Z.ltb_spec (chronicle.block_index x) irr) as [Hlt|Hge].
  - rewrite filter_cons_False by lia. exact IH.
  - rewrite filter_cons_True by lia. f_equal. symmetry.
    apply filter_all. eapply Forall_impl; [exact Hx|].
    intros o Ho. cbn in Ho. lia.
Qed.

Lemma positions_upto_filter h l :
  ring_ordered l →
  positions_upto h l
  = block_position_of <$> filter (λ o, chronicle.block_index o ≤ h) l.
Proof.
  unfold ring_ordered. induction 1 as [|x l Hl IH Hx]; [done|].
  cbn [positions_upto]. destruct (Z.leb_spec (chronicle.block_index x) h) as [Hle|Hgt].
  - rewrite filter_cons_True by lia. cbn. now rewrite IH.
  - rewrite filter_cons_False by lia.
    replace (filter (λ o, chronicle.block_index o ≤ h) l) with
      (@nil chronicle.received_block_object); [done|].
    symmetry. apply filter_none. eapply Forall_impl; [exact Hx|].
    intros o Ho. cbn in Ho. lia.
Qed.

Lemma ring_ordered_filter (P : chronicle.received_block_object → Prop)
    `{∀ o, Decision (P o)} l :
  ring_ordered l → ring_ordered (filter P l).
Proof.
  unfold ring_ordered. induction 1 as [|x l Hl IH Hx]; [constructor|].
  destruct (decide (P x)).
  - rewrite filter_cons_True by done. constructor; [exact IH|].
    apply Forall_forall. intros o Ho. apply list_elem_of_filter in Ho as [_ Ho].
    rewrite Forall_forall in Hx. now apply Hx.
  - now rewrite filter_cons_False by done.
Qed.

Lemma load_state_loaded s : load_state s = (returned tt, loaded s).
Proof.
  set (depth := length (chainbase.stack (db s))).
  assert (E1 : (if bool_decide (0 < depth)%nat then undo_all else ret tt) s
               = (returned tt, rolled depth s)).
  { case_bool_decide as Hd; [apply undo_all_spec|].
    replace depth with 0%nat by lia. now rewrite rolled_zero. }
  unfold load_state, loaded.
  rewrite bind_gets. fold depth. cbv zeta.
  rewrite (bind_returned _ _ _ _ _ E1). rewrite bind_gets.
  clearbody depth. clear E1.
  destruct s as [d cs mq ab h hid i iid ts ty ctx imp bl f1 f2 f3 f4 pub ack acked mu tm pt sl].
  unfold db_indexes, rolled. cbn [db set_db set_db_calls].
  destruct (chronicle.state_index (chainbase.indexes (undone depth d))) as [o|];
    destruct (bool_decide (0 < depth)%nat); destruct ack; reflexivity.
Qed.

End startup_properties.

(** X1.  [load_state] reverts every uncommitted revision: it calls
    [undo] once per scope of the undo stack and nothing else on the
    database, which is left without undo stack, at the revision lowered
    by the number of scopes and with the contents the oldest scope had
    saved.  The position is the one of the state object found there (the
    members keep their values when there is none).  A fork event with
    reason [restart], the restored head and the number of reverted scopes
    as depth is published exactly when there was a scope to revert.  With
    an acknowledging exporter the acknowledged block becomes the head,
    and the ABI decode context is a new, empty one. *)
Theorem load_state_reverts_uncommitted `{Codec} s :
  let depth := length (chainbase.stack (db s)) in
  let s' := state_after load_state s in
  result_of load_state s = returned tt
  ∧ db s' = undone depth (db s)
  ∧ chainbase.stack (db s') = []
  ∧ revision s' = revision s - Z.of_nat depth
  ∧ db_indexes s'
    = from_option chainbase.old_values (db_indexes s) (last (chainbase.stack (db s)))
  ∧ db_calls s' = db_calls s ++ replicate depth chainbase.undo_call
  ∧ position s'
    = from_option position_of (position s) (chronicle.state_index (db_indexes s'))
  ∧ published s'
    = published s ++
        (if bool_decide (0 < depth)%nat
         then [channels.forks (head s') (wrap32 (Z.of_nat depth)) channels.restart]
         else [])
  ∧ exporter_acked_block s'
    = (if exporter_will_ack s then head s' else exporter_acked_block s)
  ∧ contract_abi_ctxt s' = Some abieos.abieos_create.
Proof.
  cbv zeta. set (depth := length (chainbase.stack (db s))).
  assert (Hst : chainbase.stack (undone depth (db s)) = []).
  { rewrite undone_stack. now apply drop_ge. }
  assert (Hrev : chainbase.revision (undone depth (db s))
                 = chainbase.revision (db s) - Z.of_nat depth).
  { now apply undone_revision. }
  pose proof (undone_all_indexes (db s)) as Hix. fold depth in Hix.
  unfold result_of, state_after. rewrite load_state_loaded. cbn [fst snd].
  unfold loaded. fold depth. cbv zeta.
  unfold db_indexes, revision, position, state_after, init_contract_abi_ctxt, modify in *.
  cbn [rolled db set_db set_db_calls] in *.
  clearbody depth.
  destruct (chronicle.state_index (chainbase.indexes (undone depth (db s)))) as [o|] eqn:Eo;
    destruct (bool_decide (0 < depth)%nat);
    destruct s as [d cs mq ab h hid i iid ts ty [c|] imp bl f1 f2 f3 f4 pub [] acked mu tm pt sl];
    cbn in *; rewrite ?Eo, ?app_nil_r; repeat split; try assumption; try reflexivity.
Qed.

(** ** What a frame leaves alone *)

(** A relation between the receiver before and after that every write
    of the frame path respects holds across [receive_result], whatever
    its outcome. *)
Section frame_relation.
Context `{Codec}.
Context (R : relation receiver_plugin_impl).
Context (R_refl : ∀ s, R s s).
Context (R_trans : ∀ s1 s2 s3, R s1 s2 → R s2 s3 → R s1 s3).
Context (R_db : ∀ s d cs, R s (set_db_calls cs (set_db d s))).
Context (R_position : ∀ s h hid i iid, R s (set_position h hid i iid s)).
Context (R_abi_cache : ∀ s c imp, R s (set_abi_cache c imp s)).
Context (R_block_timestamp : ∀ s ts, R s (set_block_timestamp ts s)).
Context (R_published : ∀ s evs, R s (set_published evs s)).

Lemma related_set_db s d : R s (set_db d s).
Proof.
  replace (set_db d s) with (set_db_calls (db_calls s) (set_db d s)) by now destruct s.
  apply R_db.
Qed.

Lemma related_payload_frame s s' : payload_frame s s' → R s s'.
Proof.
  intros (abis & ts & ctx & imp & evs & -> & _). unfold payload_update.
  eapply R_trans; [apply related_set_db|].
  eapply R_trans; [apply R_block_timestamp|].
  eapply R_trans; [apply R_abi_cache|].
  apply R_published.
Qed.

Lemma related_init_contract_abi_ctxt s : R s (state_after init_contract_abi_ctxt s).
Proof.
  unfold state_after, init_contract_abi_ctxt, modify. cbn.
  destruct (contract_abi_ctxt s); apply R_abi_cache.
Qed.

Lemma related_session_destructor s : R s (session_destructor s).2.
Proof. destruct (session_destructor_db s) as (d & cs & ->). apply R_db. Qed.

Lemma related_fork_or_continuation result b s :
  R s (fork_or_continuation result b s).2.
Proof.
  destruct (Z.lt_ge_cases (chain_state.block_num (chain_state.last_irreversible result)) b)
    as [HL|HL].
  - destruct (Z.le_gt_cases b (head s)) as [Hh|Hh].
    + assert (Hs1 : ∀ k, R s (rolled k (state_after init_contract_abi_ctxt s))).
      { intros k. eapply R_trans; [apply related_init_contract_abi_ctxt|]. apply R_db. }
      destruct (fork_or_continuation_fork result b s HL Hh)
        as (k & _ & _ & [(E & _)|[(E & _)|(E & _)]]); rewrite E; cbn [snd];
        try apply Hs1.
      eapply R_trans; [apply Hs1|]. apply R_published.
    + rewrite fork_or_continuation_ahead by (done || lia).
      destruct (_ && _); apply R_refl.
  - rewrite fork_or_continuation_below by lia. apply R_refl.
Qed.

Lemma related_in_undo_session result b bid s :
  R s (in_undo_session result b bid s).2.
Proof.
  unfold in_undo_session, start_undo_session.
  unfold bind at 1, db_call, modify. cbn [fst snd].
  set (s0 := set_db_calls _ _).
  assert (H0 : R s s0) by apply R_db.
  eapply R_trans; [exact H0|]. clear H0.
  unfold bind, on_unwind.
  destruct (apply_block_spec result b bid s0) as [(ring & _ & Hf)|(_ & E)].
  - apply related_payload_frame in Hf.
    assert (Hp : R s0 (positioned result b bid ring s0)).
    { unfold positioned. eapply R_trans; [apply related_set_db|]. apply R_position. }
    pose proof (R_trans _ _ _ Hp Hf) as Hs2. clear Hp Hf.
    destruct (apply_block result b bid s0) as [[[]|e] s2]; cbn [fst snd] in *.
    + rewrite finish_block_eq. eapply R_trans; [exact Hs2|].
      destruct (aborting s2); cbn [snd].
      * apply related_session_destructor.
      * apply R_db.
    + eapply R_trans; [exact Hs2|]. apply related_session_destructor.
  - rewrite E. cbn [snd]. apply related_session_destructor.
Qed.

Lemma related_receive_result p s : R s (receive_result p s).2.
Proof.
  unfold receive_result, bind.
  pose proof (pure_decode_result p s) as Hp.
  destruct (decode_result p s) as [[result|e] s0]; cbn in Hp; subst s0;
    [|apply R_refl].
  destruct (chain_state.this_block result) as [this_block|]; [|apply R_refl].
  unfold receive_block_frame. cbv zeta.
  rewrite (bind_returned _ _ _ _ _ (raise_revision_returns _ s)).
  destruct (raise_revision_frame (chain_state.block_num this_block) s)
    as (d & cs & Es0 & _).
  apply (R_trans s (state_after (raise_revision (chain_state.block_num this_block)) s));
    [rewrite Es0; apply R_db|].
  pose proof (related_fork_or_continuation result (chain_state.block_num this_block)
                (state_after (raise_revision (chain_state.block_num this_block)) s)) as Hf.
  unfold bind.
  destruct (fork_or_continuation result _ _) as [[[]|e] s1]; cbn [snd] in *; [|exact Hf].
  eapply R_trans; [exact Hf|]. apply related_in_undo_session.
Qed.

End frame_relation.

Section settings_properties.
Context `{Codec}.

Lemma receive_result_settings p s :
  settings (state_after (receive_result p) s) = settings s.
Proof.
  apply (related_receive_result (λ s s', settings s' = settings s)); try done.
  intros s1 s2 s3 H12 H23. congruence.
Qed.

Lemma settings_pausing q s s' :
  settings s' = settings s → head s' = head s → pausing q s' = pausing q s.
Proof.
  unfold settings, pausing. intros E Hh. injection E; intros. congruence.
Qed.

End settings_properties.

(** X2.  A frame never touches the receiver's settings or its flow
    control.  Whatever the frame holds and however [receive_result]
    ends, these members are as before: the queue limit, the [aborting]
    flag, the protocol schema [abi_types], the action blacklist, whether
    the exporter acknowledges and up to which block it has, the number of
    unconfirmed blocks it tolerates, the timer, the pause time and the
    pending slowdown request. *)
Theorem frame_leaves_settings `{Codec} p s :
  let s' := state_after (receive_result p) s in
  max_queue_size s' = max_queue_size s
  ∧ aborting s' = aborting s
  ∧ abi_types s' = abi_types s
  ∧ blacklist_actions s' = blacklist_actions s
  ∧ exporter_will_ack s' = exporter_will_ack s
  ∧ exporter_acked_block s' = exporter_acked_block s
  ∧ exporter_max_unconfirmed s' = exporter_max_unconfirmed s
  ∧ mytimer s' = mytimer s
  ∧ pause_time_msec s' = pause_time_msec s
  ∧ slowdown_requested s' = slowdown_requested s.
Proof.
  cbv zeta. pose proof (receive_result_settings p s) as E. unfold settings in E.
  injection E; intros. repeat split; assumption.
Qed.

(** ** The store across a frame *)
Section store_properties.
Context `{Codec}.

Lemma undo_open_session d ix :
  chainbase.undo (chainbase.with_indexes ix (chainbase.start_undo_session d)) = Some d.
Proof.
  destruct d as [ix0 st rev]. unfold chainbase.undo. cbn. do 2 f_equal. lia.
Qed.

Lemma session_destructor_open s d ix :
  db s = chainbase.with_indexes ix (chainbase.start_undo_session d) →
  (session_destructor s).2
  = set_db_calls (db_calls s ++ [chainbase.undo_call]) (set_db d s).
Proof.
  intros E. unfold session_destructor. now rewrite E, undo_open_session.
Qed.

Lemma payload_frame_members s s' :
  payload_frame s s' →
  (∃ abis, db s' = chainbase.with_indexes (set_contract_abi_index abis (db_indexes s)) (db s))
  ∧ db_calls s' = db_calls s
  ∧ aborting s' = aborting s
  ∧ position s' = position s
  ∧ exporter_will_ack s' = exporter_will_ack s
  ∧ exporter_acked_block s' = exporter_acked_block s.
Proof.
  intros (abis & ts & ctx & imp & evs & -> & _). split; [now exists abis|].
  repeat split.
Qed.

Lemma init_contract_abi_ctxt_members s :
  let s' := state_after init_contract_abi_ctxt s in
  db s' = db s ∧ db_calls s' = db_calls s ∧ position s' = position s
  ∧ published s' = published s ∧ aborting s' = aborting s.
Proof.
  unfold state_after, init_contract_abi_ctxt, modify. cbn.
  now destruct (contract_abi_ctxt s).
Qed.

Lemma rolled_init_members k s :
  let s1 := rolled k (state_after init_contract_abi_ctxt s) in
  db s1 = undone k (db s)
  ∧ db_calls s1 = db_calls s ++ replicate k chainbase.undo_call
  ∧ position s1 = position s
  ∧ aborting s1 = aborting s.
Proof.
  unfold state_after, init_contract_abi_ctxt, modify, rolled. cbn.
  now destruct (contract_abi_ctxt s).
Qed.

(** The store after lines 442-466, whatever their outcome: [k] scopes
    were undone, none unless the frame is a fork. *)
Lemma fork_or_continuation_store result b s :
  ∃ k, (k ≤ length (chainbase.stack (db s)))%nat
    ∧ db (fork_or_continuation result b s).2 = undone k (db s)
    ∧ db_calls (fork_or_continuation result b s).2
      = db_calls s ++ replicate k chainbase.undo_call
    ∧ position (fork_or_continuation result b s).2 = position s
    ∧ aborting (fork_or_continuation result b s).2 = aborting s
    ∧ (¬ (chain_state.block_num (chain_state.last_irreversible result) < b ∧ b ≤ head s)
       → k = 0%nat).
Proof.
  assert (Hnone : ∃ k, (k ≤ length (chainbase.stack (db s)))%nat
    ∧ db s = undone k (db s)
    ∧ db_calls s = db_calls s ++ replicate k chainbase.undo_call
    ∧ position s = position s ∧ aborting s = aborting s
    ∧ (¬ (chain_state.block_num (chain_state.last_irreversible result) < b ∧ b ≤ head s)
       → k = 0%nat)).
  { exists 0%nat. cbn. rewrite app_nil_r. repeat split; lia. }
  destruct (Z.lt_ge_cases (chain_state.block_num (chain_state.last_irreversible result)) b)
    as [HL|HL].
  - destruct (Z.le_gt_cases b (head s)) as [Hh|Hh].
    + destruct (fork_or_continuation_fork result b s HL Hh)
        as (k & Hk & _ & [(E & _)|[(E & _)|(E & _)]]); rewrite E; cbn [snd];
        destruct (rolled_init_members k s) as (Hdb & Hcs & Hpos & Hab);
        exists k; (split; [exact Hk|]);
        (split; [exact Hdb|]); (split; [exact Hcs|]);
        (split; [exact Hpos|]); (split; [exact Hab|]); intros; lia.
    + rewrite fork_or_continuation_ahead by (done || lia).
      destruct (_ && _); exact Hnone.
  - rewrite fork_or_continuation_below by lia. exact Hnone.
Qed.

Lemma in_undo_session_open result b bid s :
  ∃ s0,
    db s0 = chainbase.with_indexes (chainbase.indexes (db s))
              (chainbase.start_undo_session (db s))
    ∧ db_calls s0 = db_calls s ++ [chainbase.start_undo_session_call]
    ∧ in_undo_session result b bid s
      = bind (on_unwind session_destructor (apply_block result b bid))
          (λ _, finish_block) s0.
Proof.
  eexists. split; [|split]; [| |reflexivity]; reflexivity.
Qed.

(** The two ways out of the undo session: pushed and committed, or
    undone. *)
Lemma in_undo_session_store result b bid s :
  ((in_undo_session result b bid s).1 = returned true
   ∧ ∃ ring s2,
       ring_after b bid s = Some ring
       ∧ payload_frame (positioned result b bid ring (state_after start_undo_session s)) s2
       ∧ aborting s2 = false
       ∧ (in_undo_session result b bid s).2 = finished s2)
  ∨ ((in_undo_session result b bid s).1 ≠ returned true
     ∧ db (in_undo_session result b bid s).2 = db s
     ∧ db_calls (in_undo_session result b bid s).2
       = db_calls s ++ [chainbase.start_undo_session_call; chainbase.undo_call]).
Proof.
  destruct (in_undo_session result b bid s) as [r s'] eqn:E. cbn [fst snd].
  destruct r as [[|]|e].
  - left. split; [done|].
    apply in_undo_session_true in E as (ring & s2 & ? & ? & ? & ?). now exists ring, s2.
  - right. split; [done|].
    destruct (in_undo_session_open result b bid s) as (s0 & Hdb0 & Hcs0 & E0).
    rewrite E0 in E. unfold on_unwind, bind in E.
    destruct (apply_block_spec result b bid s0) as [(ring & _ & Hf)|(_ & Ea)];
      [|rewrite Ea in E; discriminate].
    apply payload_frame_members in Hf as ((abis & Hdb) & Hcs & _).
    cbn [positioned db set_db set_position db_calls] in Hdb, Hcs.
    rewrite Hdb0 in Hdb.
    change (chainbase.with_indexes ?a (chainbase.with_indexes ?b ?d))
      with (chainbase.with_indexes a d) in Hdb.
    destruct (apply_block result b bid s0) as [[[]|e] s2]; cbn [fst snd] in *;
      [|discriminate].
    rewrite finish_block_eq in E. destruct (aborting s2); [|discriminate].
    injection E as <-.
    rewrite (session_destructor_open s2 (db s) _ Hdb). cbn.
    rewrite Hcs, Hcs0. now rewrite <- app_assoc.
  - right. split; [done|].
    destruct (in_undo_session_open result b bid s) as (s0 & Hdb0 & Hcs0 & E0).
    rewrite E0 in E. unfold on_unwind, bind in E.
    destruct (apply_block_spec result b bid s0) as [(ring & _ & Hf)|(_ & Ea)].
    + apply payload_frame_members in Hf as ((abis & Hdb) & Hcs & _).
      cbn [positioned db set_db set_position db_calls] in Hdb, Hcs.
      rewrite Hdb0 in Hdb.
      change (chainbase.with_indexes ?a (chainbase.with_indexes ?b ?d))
        with (chainbase.with_indexes a d) in Hdb.
      destruct (apply_block result b bid s0) as [[[]|e'] s2]; cbn [fst snd] in *.
      * rewrite finish_block_eq in E. destruct (aborting s2); discriminate.
      * injection E as <- <-.
        rewrite (session_destructor_open s2 (db s) _ Hdb). cbn.
        rewrite Hcs, Hcs0. now rewrite <- app_assoc.
    + rewrite Ea in E. cbn [fst snd] in E. injection E as <- <-.
      rewrite (session_destructor_open s0 (db s) (chainbase.indexes (db s)) Hdb0).
      cbn. rewrite Hcs0. now rewrite <- app_assoc.
Qed.

Lemma raise_revision_members b s :
  let s0 := state_after (raise_revision b) s in
  chainbase.indexes (db s0) = chainbase.indexes (db s)
  ∧ chainbase.stack (db s0) = chainbase.stack (db s)
  ∧ position s0 = position s
  ∧ aborting s0 = aborting s
  ∧ published s0 = published s.
Proof.
  cbv zeta. destruct (raise_revision_frame b s) as (d & cs & -> & Hix & Hst & _).
  cbn. repeat split; assumption.
Qed.

(** A frame that does not return true leaves the store as lines 437-466
    left it. *)
Lemma receive_block_frame_store result this_block s :
  (receive_block_frame result this_block s).1 ≠ returned true →
  ∃ k, (k ≤ length (chainbase.stack (db s)))%nat
    ∧ db (receive_block_frame result this_block s).2
      = undone k (db (state_after (raise_revision (chain_state.block_num this_block)) s))
    ∧ (¬ (chain_state.block_num (chain_state.last_irreversible result)
            < chain_state.block_num this_block
          ∧ chain_state.block_num this_block ≤ head s)
       → k = 0%nat).
Proof.
  unfold receive_block_frame. cbv zeta.
  rewrite (bind_returned _ _ _ _ _ (raise_revision_returns _ s)).
  set (b := chain_state.block_num this_block).
  set (s0 := state_after (raise_revision b) s).
  destruct (raise_revision_members b s) as (_ & Hst & Hpos & _). fold s0 in Hst, Hpos.
  assert (Hh : head s0 = head s) by (unfold position in Hpos; congruence).
  destruct (fork_or_continuation_store result b s0) as (k & Hk & Hdb & _ & _ & _ & Hzero).
  rewrite Hst in Hk. rewrite Hh in Hzero.
  unfold bind. destruct (fork_or_continuation result b s0) as [[[]|e] s1]; cbn [fst snd] in *.
  - intros Hnot.
    destruct (in_undo_session_store result b (chain_state.block_id this_block) s1)
      as [(Htrue & _)|(_ & Hdb' & _)]; [done|].
    exists k. split; [exact Hk|]. split; [congruence|exact Hzero].
  - intros _. exists k. split; [exact Hk|]. split; [exact Hdb|exact Hzero].
Qed.

Lemma decode_result_returned p s result :
  result_of (decode_result p) s = returned result →
  decode_result p s = (returned result, s).
Proof.
  intros E. pose proof (pure_decode_result p s) as Hp. unfold result_of in E.
  destruct (decode_result p s) as [o s0]. cbn in *. congruence.
Qed.

Lemma decode_result_threw p s e :
  result_of (decode_result p) s = threw e →
  receive_result p s = (threw e, s).
Proof.
  intros E. pose proof (pure_decode_result p s) as Hp. unfold result_of in E.
  unfold receive_result, bind.
  destruct (decode_result p s) as [o s0]. cbn in *. now subst.
Qed.

End store_properties.

(** X3.  A frame on which [receive_result] throws leaves no partial
    write in the store.  Either the frame could not be decoded, and then
    nothing at all has changed; or it carries [this_block], and then the
    database is the one that lines 437-440 left (only the revision may
    have been raised to the block number) with [k] revisions undone, where
    [k] is 0 unless the frame is a fork (a block above the last
    irreversible one and not above [head]): whatever the frame wrote in
    its undo session, ring entry and ABI records included, has been
    undone, and the undo stack is as deep as before.  (A result without
    [this_block] never throws after decoding.) *)
Theorem failed_frame_is_rolled_back `{Codec} p s e :
  result_of (receive_result p) s = threw e →
  let s' := state_after (receive_result p) s in
  (result_of (decode_result p) s = threw e ∧ s' = s)
  ∨ ∃ result this_block k,
      result_of (decode_result p) s = returned result
      ∧ chain_state.this_block result = Some this_block
      ∧ (k ≤ length (chainbase.stack (db s)))%nat
      ∧ db s' = undone k (db (state_after
                                (raise_revision (chain_state.block_num this_block)) s))
      ∧ (¬ (chain_state.block_num (chain_state.last_irreversible result)
              < chain_state.block_num this_block
            ∧ chain_state.block_num this_block ≤ head s)
         → k = 0%nat
           ∧ chainbase.indexes (db s') = chainbase.indexes (db s)
           ∧ chainbase.stack (db s') = chainbase.stack (db s)).
Proof.
  intros Hr. cbv zeta.
  destruct (result_of (decode_result p) s) as [result|e'] eqn:Ed.
  - right. unfold result_of, state_after in *.
    rewrite (receive_result_decoded p s result Ed) in *.
    destruct (chain_state.this_block result) as [this_block|] eqn:Et; [|discriminate].
    destruct (receive_block_frame_store result this_block s) as (k & Hk & Hdb & Hzero).
    { rewrite Hr. discriminate. }
    exists result, this_block, k. repeat split; try assumption.
    + now apply Hzero.
    + rewrite Hdb, (Hzero H0). cbn [undone]. apply raise_revision_members.
    + rewrite Hdb, (Hzero H0). cbn [undone]. apply raise_revision_members.
  - left. pose proof (decode_result_threw p s e' Ed) as E.
    unfold result_of, state_after in *. rewrite E in *. cbn in *. split; congruence.
Qed.

(** X3, witness: block 103 arrives at the receiver at block 102 with a
    traces payload that announces two traces and holds one; the second
    cannot be decoded. *)
Lemma failed_frame_is_rolled_back_witness :
  result_of (receive_result (demo_frame 103 103 101 102 ++ map byte_of [2; 1]%N))
    receiver_at_102
  = threw (runtime_error "transaction_trace conversion error: read past end")
  ∧ let s' := state_after
                (receive_result (demo_frame 103 103 101 102 ++ map byte_of [2; 1]%N))
                receiver_at_102 in
    (result_of (decode_result (demo_frame 103 103 101 102 ++ map byte_of [2; 1]%N))
       receiver_at_102
     = threw (runtime_error "transaction_trace conversion error: read past end")
     ∧ s' = receiver_at_102)
    ∨ ∃ result this_block k,
        result_of (decode_result (demo_frame 103 103 101 102 ++ map byte_of [2; 1]%N))
          receiver_at_102 = returned result
        ∧ chain_state.this_block result = Some this_block
        ∧ (k ≤ length (chainbase.stack (db receiver_at_102)))%nat
        ∧ db s' = undone k (db (state_after
                                  (raise_revision (chain_state.block_num this_block))
                                  receiver_at_102))
        ∧ (¬ (chain_state.block_num (chain_state.last_irreversible result)
                < chain_state.block_num this_block
              ∧ chain_state.block_num this_block ≤ head receiver_at_102)
           → k = 0%nat
             ∧ chainbase.indexes (db s') = chainbase.indexes (db receiver_at_102)
             ∧ chainbase.stack (db s') = chainbase.stack (db receiver_at_102)).
Proof.
  split; [vm_compute; reflexivity|].
  apply (@failed_frame_is_rolled_back demo_codec
           (demo_frame 103 103 101 102 ++ map byte_of [2; 1]%N) receiver_at_102
           (runtime_error "transaction_trace conversion error: read past end")).
  vm_compute; reflexivity.
Defined.

Section abort_properties.
Context `{Codec}.

Lemma receive_block_frame_true_not_aborting result this_block s :
  (receive_block_frame result this_block s).1 = returned true → aborting s = false.
Proof.
  destruct (receive_block_frame result this_block s) as [r s'] eqn:E. cbn [fst].
  intros ->.
  apply receive_block_frame_true in E as (s1 & ring & s2 & Hfork & _ & Hf & Hab & _).
  apply payload_frame_members in Hf as (_ & _ & Hab2 & _).
  rewrite Hab in Hab2. cbn in Hab2.
  destruct (fork_or_continuation_store result (chain_state.block_num this_block)
              (state_after (raise_revision (chain_state.block_num this_block)) s))
    as (k & _ & _ & _ & _ & Hab1 & _).
  rewrite Hfork in Hab1. cbn [snd] in Hab1.
  destruct (raise_revision_members (chain_state.block_num this_block) s)
    as (_ & _ & _ & Hab0 & _).
  congruence.
Qed.

Lemma decode_result_abi_types p s1 s2 :
  abi_types s1 = abi_types s2 →
  result_of (decode_result p) s1 = result_of (decode_result p) s2.
Proof.
  intros E. unfold result_of, decode_result, get_type.
  rewrite !bind_assoc, !bind_gets, E.
  destruct (abi_types s2 !! "result"%string) as [t|]; [|reflexivity].
  rewrite !bind_ret. unfold check_variant_name, bind, or_throw, ret, throw.
  destruct (read_varuint32 p) as [[index bin']|err]; [|reflexivity].
  destruct (negb (abieos.filled_variant t)); [reflexivity|].
  destruct (Z.of_nat (length (abieos.fields t)) <=? index); [reflexivity|].
  destruct (negb (bool_decide (field_name_at t index = "get_blocks_result_v0"%string)));
    [reflexivity|].
  now destruct (bin_to_native_result bin').
Qed.

Lemma continue_read_go q p s :
  pausing q s = false →
  continue_read q p s
  = bind (receive_result p) (λ c, ret (frame_read c))
      (set_pause (mytimer s) 0 (slowdown_requested s) s).
Proof.
  intros Hp. unfold continue_read.
  now rewrite (bind_returned _ _ _ _ _ (check_pause_go q s Hp)).
Qed.

Lemma receive_result_aborting p s result this_block :
  aborting s = true →
  result_of (decode_result p) s = returned result →
  chain_state.this_block result = Some this_block →
  result_of (receive_result p) s ≠ returned true.
Proof.
  intros Hab Hd Ht. unfold result_of in *.
  rewrite (receive_result_decoded p s result Hd), Ht.
  intros Htrue. apply receive_block_frame_true_not_aborting in Htrue. congruence.
Qed.

End abort_properties.

(** X4.  Once [aborting] is set, a frame that carries [this_block] is
    not saved: [receive_result] does not return true, and the database is
    the one lines 437-440 left with [k] revisions undone, [k] being 0
    unless the frame is a fork; the session of the frame was undone, so
    neither the ring entry, nor the ABI records, nor the state object of
    this frame are in the store. *)
Theorem aborting_frame_is_not_saved `{Codec} p s result this_block :
  aborting s = true →
  result_of (decode_result p) s = returned result →
  chain_state.this_block result = Some this_block →
  let s' := state_after (receive_result p) s in
  result_of (receive_result p) s ≠ returned true
  ∧ ∃ k, (k ≤ length (chainbase.stack (db s)))%nat
      ∧ db s' = undone k (db (state_after
                                (raise_revision (chain_state.block_num this_block)) s))
      ∧ (¬ (chain_state.block_num (chain_state.last_irreversible result)
              < chain_state.block_num this_block
            ∧ chain_state.block_num this_block ≤ head s)
         → k = 0%nat
           ∧ chainbase.indexes (db s') = chainbase.indexes (db s)
           ∧ chainbase.stack (db s') = chainbase.stack (db s)).
Proof.
  intros Hab Hd Ht. cbv zeta.
  pose proof (receive_result_aborting p s result this_block Hab Hd Ht) as Hnot.
  unfold result_of, state_after in *.
  rewrite (receive_result_decoded p s result Hd), Ht in *.
  split; [exact Hnot|].
  destruct (receive_block_frame_store result this_block s Hnot) as (k & Hk & Hdb & Hzero).
  exists k. split; [exact Hk|]. split; [exact Hdb|]. intros Hnf.
  split; [now apply Hzero|].
  rewrite Hdb, (Hzero Hnf). cbn [undone]. split; apply raise_revision_members.
Qed.

(** X4, witness: the receiver at block 102 is told to abort and block
    103 still arrives. *)
Lemma aborting_frame_is_not_saved_witness :
  let s := set_aborting true receiver_at_102 in
  let p := demo_frame 103 103 101 102 in
  let s' := state_after (receive_result p) s in
  result_of (receive_result p) s ≠ returned true
  ∧ ∃ k, (k ≤ length (chainbase.stack (db s)))%nat
      ∧ db s' = undone k (db (state_after (raise_revision 103) s))
      ∧ (¬ (101 < 103 ∧ 103 ≤ head s)
         → k = 0%nat
           ∧ chainbase.indexes (db s') = chainbase.indexes (db s)
           ∧ chainbase.stack (db s') = chainbase.stack (db s)).
Proof.
  apply (@aborting_frame_is_not_saved demo_codec (demo_frame 103 103 101 102)
           (set_aborting true receiver_at_102)
           {| chain_state.head := demo_position (byte_of 103) (byte_of 103);
              chain_state.last_irreversible := demo_position (byte_of 101) (byte_of 101);
              chain_state.this_block := Some (demo_position (byte_of 103) (byte_of 103));
              chain_state.prev_block := Some (demo_position (byte_of 102) (byte_of 102));
              chain_state.block := None; chain_state.traces := None;
              chain_state.deltas := None |}
           (demo_position (byte_of 103) (byte_of 103)));
    vm_compute; reflexivity.
Defined.

(** X5.  With [aborting] set, the read loop takes at most one more
    frame that carries [this_block]: after it, [receive_result] having
    returned false or thrown, no further frame is read, whatever is on
    offer. *)
Theorem reading_stops_when_aborting `{Codec} q p rest s result this_block :
  aborting s = true →
  pausing q s = false →
  result_of (decode_result p) s = returned result →
  chain_state.this_block result = Some this_block →
  state_after (read_rounds ((q, p) :: rest)) s = state_after (continue_read q p) s
  ∧ (result_of (read_rounds ((q, p) :: rest)) s = returned [frame_read false]
     ∨ ∃ e, result_of (read_rounds ((q, p) :: rest)) s = threw e).
Proof.
  intros Hab Hp Hd Ht.
  set (s0 := set_pause (mytimer s) 0 (slowdown_requested s) s).
  assert (Hd0 : result_of (decode_result p) s0 = returned result).
  { rewrite <- Hd. now apply decode_result_abi_types. }
  pose proof (receive_result_aborting p s0 result this_block Hab Hd0 Ht) as Hnot.
  pose proof (continue_read_go q p s Hp) as Ec. fold s0 in Ec.
  unfold result_of in Hnot. unfold bind in Ec.
  unfold result_of, state_after. cbn [read_rounds].
  destruct (receive_result p s0) as [[[|]|e] s1]; cbn [fst snd] in *.
  - done.
  - rewrite (bind_returned _ _ _ _ _ Ec), Ec. split; [reflexivity|]. now left.
  - rewrite (bind_threw _ _ _ _ _ Ec), Ec. split; [reflexivity|]. right. now exists e.
Qed.

(** X5, witness: two more frames are on offer; only block 103 is read. *)
Lemma reading_stops_when_aborting_witness :
  let s := set_aborting true receiver_at_102 in
  let p := demo_frame 103 103 101 102 in
  let rest := [(0, demo_frame 104 104 102 103); (0, demo_frame 105 105 103 104)] in
  state_after (read_rounds ((0, p) :: rest)) s = state_after (continue_read 0 p) s
  ∧ (result_of (read_rounds ((0, p) :: rest)) s = returned [frame_read false]
     ∨ ∃ e, result_of (read_rounds ((0, p) :: rest)) s = threw e).
Proof.
  apply (@reading_stops_when_aborting demo_codec 0 (demo_frame 103 103 101 102)
           [(0, demo_frame 104 104 102 103); (0, demo_frame 105 105 103 104)]
           (set_aborting true receiver_at_102)
           {| chain_state.head := demo_position (byte_of 103) (byte_of 103);
              chain_state.last_irreversible := demo_position (byte_of 101) (byte_of 101);
              chain_state.this_block := Some (demo_position (byte_of 103) (byte_of 103));
              chain_state.prev_block := Some (demo_position (byte_of 102) (byte_of 102));
              chain_state.block := None; chain_state.traces := None;
              chain_state.deltas := None |}
           (demo_position (byte_of 103) (byte_of 103)));
    vm_compute; reflexivity.
Defined.

(** ** The ring and the position after a frame *)
Section ring_properties.
Context `{Codec}.

Lemma truncate_front_ordered irr l :
  ring_ordered l → ring_ordered (truncate_front irr l).
Proof.
  unfold ring_ordered. induction 1 as [|x l Hl IH Hx]; [constructor|].
  cbn [truncate_front]. destruct (chronicle.block_index x <? irr); [exact IH|].
  now constructor.
Qed.

Lemma truncate_front_keeps irr l o :
  o ∈ l → irr ≤ chronicle.block_index o → o ∈ truncate_front irr l.
Proof.
  induction l as [|x l IH]; intros Hin Ho; [done|].
  cbn [truncate_front]. destruct (Z.ltb_spec (chronicle.block_index x) irr) as [Hlt|Hge];
    [|exact Hin].
  apply elem_of_cons in Hin as [->|Hin]; [lia|]. now apply IH.
Qed.

Lemma insert_by_blocknum_elem o l l' :
  insert_by_blocknum o l = Some l' → o ∈ l'.
Proof.
  revert l'. induction l as [|x l IH]; intros l' E; cbn in E.
  - injection E as <-. apply elem_of_cons. now left.
  - destruct (chronicle.block_index o <? chronicle.block_index x).
    + injection E as <-. apply elem_of_cons. now left.
    + destruct (chronicle.block_index o =? chronicle.block_index x); [discriminate|].
      destruct (insert_by_blocknum o l) as [l0|]; [|discriminate].
      injection E as <-. apply elem_of_cons. right. now apply IH.
Qed.

Lemma commit_stack_Forall (P : chainbase.undo_state → Prop) n st :
  Forall P st → Forall P (chainbase.commit_stack n st).
Proof.
  induction 1 as [|u st Hu Hst IH]; [constructor|].
  cbn [chainbase.commit_stack].
  destruct (chainbase.commit_stack n st) as [|k kept].
  - destruct (chainbase.us_revision u <=? n); [constructor|]. now repeat constructor.
  - now constructor.
Qed.

Lemma ring_after_ordered b bid s ring :
  ring_ordered (received_blocks s) → ring_after b bid s = Some ring → ring_ordered ring.
Proof.
  intros Hord. unfold ring_after. destruct (irreversible s <? b).
  - destruct (insert_by_blocknum _ (received_blocks s)) as [idx'|] eqn:Ei; [|discriminate].
    intros [= <-]. apply truncate_front_ordered.
    eapply insert_by_blocknum_ordered; [exact Hord|exact Ei].
  - now intros [= <-].
Qed.

(** What [receive_block_frame] leaves when it returns true. *)
Lemma receive_block_frame_saved result this_block s s' :
  receive_block_frame result this_block s = (returned true, s') →
  ∃ k ring abis,
    let s0 := state_after (raise_revision (chain_state.block_num this_block)) s in
    let d1 := undone k (db s0) in
    (k ≤ length (chainbase.stack (db s)))%nat
    ∧ ring = chronicle.received_block_index
               (chainbase.indexes (db s'))
    ∧ (if irreversible s <? chain_state.block_num this_block
       then truncate_front (irreversible s) <$>
              insert_by_blocknum
                {| chronicle.block_index := chain_state.block_num this_block;
                   chronicle.block_id := chain_state.block_id this_block |}
                (chronicle.received_block_index (chainbase.indexes d1))
       else Some (chronicle.received_block_index (chainbase.indexes d1))) = Some ring
    ∧ position s'
      = (chain_state.block_num this_block, chain_state.block_id this_block,
         chain_state.block_num (chain_state.last_irreversible result),
         chain_state.block_id (chain_state.last_irreversible result))
    ∧ db s'
      = chainbase.commit (commit_rev s')
          (chainbase.with_indexes
             {| chronicle.state_index :=
                  Some {| chronicle.head := chain_state.block_num this_block;
                          chronicle.head_id := chain_state.block_id this_block;
                          chronicle.irreversible :=
                            chain_state.block_num (chain_state.last_irreversible result);
                          chronicle.irreversible_id :=
                            chain_state.block_id (chain_state.last_irreversible result) |};
                chronicle.received_block_index := ring;
                chronicle.contract_abi_index := abis |}
             (chainbase.start_undo_session d1)).
Proof.
  intros E.
  apply receive_block_frame_true in E as (s1 & ring & s2 & Hfork & Hring & Hf & Hab & ->).
  set (b := chain_state.block_num this_block) in *.
  set (s0 := state_after (raise_revision b) s) in *.
  destruct (fork_or_continuation_store result b s0) as (k & Hk & Hdb1 & _ & Hpos1 & _).
  rewrite Hfork in Hdb1, Hpos1. cbn [snd] in Hdb1, Hpos1.
  destruct (raise_revision_members b s) as (_ & Hst0 & Hpos0 & _). fold s0 in Hst0, Hpos0.
  rewrite Hst0 in Hk.
  assert (Hirr : irreversible s1 = irreversible s).
  { unfold position in Hpos1, Hpos0. congruence. }
  destruct Hf as (abis & ts & ctx & imp & evs & -> & _).
  exists k, ring, abis. cbv zeta. split; [exact Hk|]. split; [reflexivity|].
  split.
  { unfold ring_after in Hring. rewrite Hirr in Hring. unfold received_blocks, db_indexes in Hring.
    now rewrite Hdb1 in Hring. }
  split; [reflexivity|].
  unfold finished, payload_update, positioned, state_after, start_undo_session, db_call,
    modify, db_indexes.
  cbn [db set_db set_db_calls set_position set_published set_abi_cache set_block_timestamp
         snd head head_id irreversible irreversible_id].
  rewrite Hdb1. reflexivity.
Qed.

Lemma receive_result_true p s result this_block :
  result_of (decode_result p) s = returned result →
  chain_state.this_block result = Some this_block →
  result_of (receive_result p) s = returned true →
  receive_block_frame result this_block s
  = (returned true, state_after (receive_result p) s).
Proof.
  intros Hd Ht Hr. unfold result_of, state_after in *.
  rewrite (receive_result_decoded p s result Hd), Ht in *.
  destruct (receive_block_frame result this_block s) as [r s']. cbn in *. now subst.
Qed.

Lemma db_ordered_raise_revision b s :
  db_ordered (db s) → db_ordered (db (state_after (raise_revision b) s)).
Proof.
  destruct (raise_revision_members b s) as (Hix & Hst & _).
  unfold db_ordered. now rewrite Hix, Hst.
Qed.

Lemma frame_position_saved p s result this_block :
  result_of (decode_result p) s = returned result →
  chain_state.this_block result = Some this_block →
  result_of (receive_result p) s = returned true →
  let s' := state_after (receive_result p) s in
  position s'
  = (chain_state.block_num this_block, chain_state.block_id this_block,
     chain_state.block_num (chain_state.last_irreversible result),
     chain_state.block_id (chain_state.last_irreversible result))
  ∧ position_of <$> chronicle.state_index (db_indexes s') = Some (position s').
Proof.
  intros Hd Ht Hr. cbv zeta.
  pose proof (receive_result_true p s result this_block Hd Ht Hr) as E.
  apply receive_block_frame_saved in E as (k & ring & abis & _ & Hix & Hring & Hpos & Hdb).
  cbv zeta in *. split; [exact Hpos|].
  unfold db_indexes. rewrite Hdb, Hpos. reflexivity.
Qed.

End ring_properties.

(** X6.  The [by_blocknum] order of the Received Block Ring is an
    invariant of [receive_result]: if the ring is in strictly ascending
    block number order, in the database and in every state the undo stack
    keeps, it is so after the frame, however the frame ends. *)
Theorem ring_stays_ordered `{Codec} p s :
  db_ordered (db s) → db_ordered (db (state_after (receive_result p) s)).
Proof.
  intros Hord. unfold state_after.
  destruct (result_of (decode_result p) s) as [result|e] eqn:Ed.
  2:{ now rewrite (decode_result_threw p s e Ed). }
  rewrite (receive_result_decoded p s result Ed).
  destruct (chain_state.this_block result) as [this_block|]; [|exact Hord].
  set (b := chain_state.block_num this_block).
  pose proof (db_ordered_raise_revision b s Hord) as Hord0.
  destruct (receive_block_frame result this_block s) as [r s'] eqn:E.
  assert (Hcase : r = returned true ∨ r ≠ returned true).
  { destruct r as [[|]|]; [now left|now right|now right]. }
  destruct Hcase as [->|Hnot].
  - apply receive_block_frame_saved in E
      as (k & ring & abis & _ & _ & Hring & _ & Hdb).
    cbv zeta in *. fold b in Hring, Hdb.
    pose proof (undone_ordered k _ Hord0) as [Hr1 Hst1].
    cbn [snd]. rewrite Hdb.
    unfold db_ordered, chainbase.commit, chainbase.with_indexes,
      chainbase.start_undo_session.
    cbn [chainbase.indexes chainbase.stack chronicle.received_block_index]. split.
    + destruct (irreversible s <? b).
      * destruct (insert_by_blocknum _ _) as [idx'|] eqn:Ei; [|discriminate].
        injection Hring as <-. apply truncate_front_ordered.
        eapply insert_by_blocknum_ordered; [exact Hr1|exact Ei].
      * now injection Hring as <-.
    + apply (commit_stack_Forall
               (λ u, ring_ordered
                       (chronicle.received_block_index (chainbase.old_values u)))).
      constructor; [exact Hr1|exact Hst1].
  - destruct (receive_block_frame_store result this_block s) as (k & _ & Hdb & _).
    { now rewrite E. }
    rewrite E in Hdb. cbn [snd] in *. rewrite Hdb. now apply undone_ordered.
Qed.

(** X6, witness: the ring of the receiver at block 102 is in order, and
    a fork at block 101 arrives. *)
Lemma ring_stays_ordered_witness :
  db_ordered (db (state_after (receive_result (demo_frame 101 201 100 100))
                    receiver_at_102)).
Proof.
  apply (@ring_stays_ordered demo_codec (demo_frame 101 201 100 100) receiver_at_102).
  split; vm_compute; repeat constructor.
Defined.

(** X7.  After a frame that [receive_result] has processed
    successfully, the receiver stands at that frame: [head] and [head_id]
    are the block of the frame, [irreversible] and [irreversible_id] its
    last irreversible block, and the state object in the store says the
    same.  If the block number is above the [irreversible] held before
    the frame, the ring has an entry for the block with the id of the
    frame. *)
Theorem frame_position_is_saved `{Codec} p s result this_block :
  result_of (decode_result p) s = returned result →
  chain_state.this_block result = Some this_block →
  result_of (receive_result p) s = returned true →
  let s' := state_after (receive_result p) s in
  position s'
  = (chain_state.block_num this_block, chain_state.block_id this_block,
     chain_state.block_num (chain_state.last_irreversible result),
     chain_state.block_id (chain_state.last_irreversible result))
  ∧ position_of <$> chronicle.state_index (db_indexes s') = Some (position s')
  ∧ (irreversible s < chain_state.block_num this_block →
     {| chronicle.block_index := chain_state.block_num this_block;
        chronicle.block_id := chain_state.block_id this_block |} ∈ received_blocks s').
Proof.
  intros Hd Ht Hr. cbv zeta.
  destruct (frame_position_saved p s result this_block Hd Ht Hr) as [Hpos' Hobj].
  pose proof (receive_result_true p s result this_block Hd Ht Hr) as E.
  apply receive_block_frame_saved in E as (k & ring & abis & _ & Hix & Hring & Hpos & Hdb).
  cbv zeta in *. split; [exact Hpos|]. split.
  - exact Hobj.
  - intros Hb. unfold received_blocks, db_indexes. rewrite <- Hix.
    destruct (Z.ltb_spec (irreversible s) (chain_state.block_num this_block)); [|lia].
    destruct (insert_by_blocknum _ _) as [idx'|] eqn:Ei; [|discriminate].
    injection Hring as <-. apply truncate_front_keeps; [|cbn; lia].
    eapply insert_by_blocknum_elem. exact Ei.
Qed.

(** X7, witness: block 103 at the receiver at block 102. *)
Lemma frame_position_is_saved_witness :
  let s' := state_after (receive_result (demo_frame 103 103 101 102)) receiver_at_102 in
  position s' = (103, 103, 101, 101)
  ∧ position_of <$> chronicle.state_index (db_indexes s') = Some (position s')
  ∧ (irreversible receiver_at_102 < 103 →
     {| chronicle.block_index := 103; chronicle.block_id := 103 |} ∈ received_blocks s').
Proof.
  apply (@frame_position_is_saved demo_codec (demo_frame 103 103 101 102) receiver_at_102
           {| chain_state.head := demo_position (byte_of 103) (byte_of 103);
              chain_state.last_irreversible := demo_position (byte_of 101) (byte_of 101);
              chain_state.this_block := Some (demo_position (byte_of 103) (byte_of 103));
              chain_state.prev_block := Some (demo_position (byte_of 102) (byte_of 102));
              chain_state.block := None; chain_state.traces := None;
              chain_state.deltas := None |}
           (demo_position (byte_of 103) (byte_of 103)));
    vm_compute; reflexivity.
Defined.

(** X8.  Restart after a committed frame.  When a frame was processed
    successfully and its revision was committed with it (no undo scope is
    left), a receiver that is started on that database, whatever its
    members were, resumes exactly there: [load_state] restores the
    position of the frame, changes nothing in the database, publishes no
    fork event, and the request that follows asks for the blocks from the
    next block number on. *)
Theorem restart_resumes_after_committed_frame `{Codec} p s result this_block s0 :
  result_of (decode_result p) s = returned result →
  chain_state.this_block result = Some this_block →
  result_of (receive_result p) s = returned true →
  chainbase.stack (db (state_after (receive_result p) s)) = [] →
  db s0 = db (state_after (receive_result p) s) →
  let s1 := state_after load_state s0 in
  position s1
  = (chain_state.block_num this_block, chain_state.block_id this_block,
     chain_state.block_num (chain_state.last_irreversible result),
     chain_state.block_id (chain_state.last_irreversible result))
  ∧ db s1 = db s0
  ∧ db_calls s1 = db_calls s0
  ∧ published s1 = published s0
  ∧ start_block_num (blocks_request s1) = wrap32 (chain_state.block_num this_block + 1).
Proof.
  intros Hd Ht Hr Hst Hdb0. cbv zeta.
  destruct (frame_position_saved p s result this_block Hd Ht Hr) as [Hpos Hobj].
  rewrite <- Hdb0 in Hst. unfold db_indexes in Hobj. rewrite <- Hdb0 in Hobj.
  unfold state_after at 1 2 3 4 5. rewrite load_state_loaded. cbn [snd].
  unfold loaded. rewrite Hst. cbn [length]. rewrite rolled_zero. cbv zeta.
  unfold db_indexes.
  destruct (chronicle.state_index (chainbase.indexes (db s0))) as [o|]; [|discriminate].
  unfold position in Hpos. injection Hpos as Hh' Hhid' Hi' Hiid'.
  unfold position_of, position in Hobj. cbn in Hobj. injection Hobj as Hh Hhid Hi Hiid.
  rewrite bool_decide_eq_false_2 by lia.
  unfold position, blocks_request, state_after, init_contract_abi_ctxt, modify.
  cbn [start_block_num].
  destruct (exporter_will_ack _); destruct (contract_abi_ctxt _); cbn;
    rewrite Hh, Hhid, Hi, Hiid, Hh', Hhid', Hi', Hiid'; repeat split; reflexivity.
Qed.

(** X8, witness: during catch-up block 1 arrives with block 150 as the
    last irreversible one; its revision is committed at once.  A new
    receiver is then started on that database. *)
Lemma restart_resumes_after_committed_frame_witness :
  let s' := state_after (receive_result (demo_frame_behind 200 1 1 150 0)) fresh_receiver in
  let s1 := state_after load_state (set_db (db s') fresh_receiver) in
  position s1 = (1, 1, 150, 150)
  ∧ db s1 = db (set_db (db s') fresh_receiver)
  ∧ db_calls s1 = db_calls (set_db (db s') fresh_receiver)
  ∧ published s1 = published (set_db (db s') fresh_receiver)
  ∧ start_block_num (blocks_request s1) = wrap32 (1 + 1).
Proof.
  apply (@restart_resumes_after_committed_frame demo_codec
           (demo_frame_behind 200 1 1 150 0) fresh_receiver
           {| chain_state.head := demo_position (byte_of 200) (byte_of 200);
              chain_state.last_irreversible := demo_position (byte_of 150) (byte_of 150);
              chain_state.this_block := Some (demo_position (byte_of 1) (byte_of 1));
              chain_state.prev_block := None;
              chain_state.block := None; chain_state.traces := None;
              chain_state.deltas := None |}
           (demo_position (byte_of 1) (byte_of 1))
           (set_db (db (state_after (receive_result (demo_frame_behind 200 1 1 150 0))
                          fresh_receiver)) fresh_receiver));
    vm_compute; reflexivity.
Defined.

(** ** The socket: request_blocks, send and the handlers *)
Section socket_properties.
Context `{Codec} `{Json}.

Lemma lift_gets {A} (f : receiver_plugin_impl → A) c :
  lift (gets f) c = (returned (f (my c)), c).
Proof. now destruct c. Qed.

Lemma lift_pure {A} (m : M A) c : pure m → lift m c = ((m (my c)).1, c).
Proof. intros Hp. unfold lift. rewrite Hp. now destruct c. Qed.

Lemma send_spec value c :
  send value c =
    match abi_types (my c) !! "request"%string with
    | None => (threw (runtime_error "unknown type request"), c)
    | Some request_type =>
        match json_to_bin request_type value with
        | bin_ok bin => (returned tt, (async_write bin c).2)
        | bin_error e =>
            (threw (runtime_error ("failed to convert during send: " +:+ e)), c)
        end
    end.
Proof.
  unfold send, io_bind. rewrite (lift_pure _ _ (pure_get_type _)).
  unfold get_type. rewrite bind_gets.
  destruct (abi_types (my c) !! "request"%string) as [t|]; cbn [fst ret throw]; [|done].
  rewrite (lift_pure _ _ (pure_or_throw _ _)).
  now destruct (json_to_bin t value).
Qed.

Lemma request_blocks_spec c :
  request_blocks c = send (blocks_request (my c)) c.
Proof. unfold request_blocks, io_bind. now rewrite lift_gets. Qed.

Lemma have_positions_filter s :
  ring_ordered (received_blocks s) →
  have_positions (blocks_request s)
  = block_position_of <$>
      filter (λ o, irreversible s ≤ chronicle.block_index o ≤ head s) (received_blocks s).
Proof.
  intros Hord. cbn [blocks_request have_positions].
  rewrite (lower_bound_filter _ _ Hord).
  rewrite positions_upto_filter by now apply ring_ordered_filter.
  rewrite list_filter_filter. f_equal. apply list_filter_iff. intros o. lia.
Qed.

End socket_properties.

(** X9.  [request_blocks] offers the server the receiver's part of the
    chain: the positions it sends are exactly the entries of the Received
    Block Ring with a block number from [irreversible] to [head], in
    ascending order (the ring may hold entries outside that range), and
    the request asks for the blocks from [head] + 1 on, in 32-bit
    arithmetic.  One message is written to the socket, the encoding of
    that request with the "request" type of the protocol; if abieos
    cannot encode it, [request_blocks] throws and nothing is written. *)
Theorem request_blocks_offers_the_ring `{Codec} `{Json} c request_type :
  abi_types (my c) !! "request"%string = Some request_type →
  ring_ordered (received_blocks (my c)) →
  have_positions (blocks_request (my c))
  = block_position_of <$>
      filter (λ o, irreversible (my c) ≤ chronicle.block_index o ≤ head (my c))
        (received_blocks (my c))
  ∧ start_block_num (blocks_request (my c)) = wrap32 (head (my c) + 1)
  ∧ request_blocks c =
      match json_to_bin request_type (blocks_request (my c)) with
      | bin_ok bin =>
          (returned tt,
           {| my := my c;
              stream := (λ st, {| is_open := is_open st; written := written st ++ [bin] |})
                          <$> stream c |})
      | bin_error e =>
          (threw (runtime_error ("failed to convert during send: " +:+ e)), c)
      end.
Proof.
  intros Ht Hord. split; [now apply have_positions_filter|]. split; [reflexivity|].
  rewrite request_blocks_spec, send_spec, Ht. reflexivity.
Qed.

(** X9, witness: the receiver at block 102 holds blocks 100 to 102 and
    irreversible is 100. *)
Lemma request_blocks_offers_the_ring_witness :
  have_positions (blocks_request (my connected_at_102))
  = [ {| chain_state.block_num := 100; chain_state.block_id := 100 |};
      {| chain_state.block_num := 101; chain_state.block_id := 101 |};
      {| chain_state.block_num := 102; chain_state.block_id := 102 |} ]
  ∧ have_positions (blocks_request (my connected_at_102))
    = block_position_of <$>
        filter (λ o, irreversible (my connected_at_102) ≤ chronicle.block_index o
                     ≤ head (my connected_at_102))
          (received_blocks (my connected_at_102))
  ∧ start_block_num (blocks_request (my connected_at_102))
    = wrap32 (head (my connected_at_102) + 1)
  ∧ request_blocks connected_at_102 =
      match json_to_bin
              {| abieos.type_name := "request"; abieos.filled_variant := true;
                 abieos.fields := [{| abieos.field_name := "get_status_request_v0";
                                      abieos.field_type_filled_struct := true |};
                                   {| abieos.field_name := "get_blocks_request_v0";
                                      abieos.field_type_filled_struct := true |}] |}
              (blocks_request (my connected_at_102)) with
      | bin_ok bin =>
          (returned tt,
           {| my := my connected_at_102;
              stream := (λ st, {| is_open := is_open st; written := written st ++ [bin] |})
                          <$> stream connected_at_102 |})
      | bin_error e =>
          (threw (runtime_error ("failed to convert during send: " +:+ e)),
           connected_at_102)
      end.
Proof.
  split; [vm_compute; reflexivity|].
  apply (@request_blocks_offers_the_ring demo_codec demo_json connected_at_102).
  - vm_compute; reflexivity.
  - vm_compute; repeat constructor.
Defined.

(** ** Back-pressure and the exporter's calls *)
Section exporter_properties.
Context `{Codec}.

Lemma ack_block_state n s :
  state_after (ack_block n) s
  = set_exporter_acked_block (Z.max (exporter_acked_block s) n) s.
Proof.
  unfold state_after, ack_block. rewrite bind_gets.
  destruct (Z.ltb_spec n (exporter_acked_block s)) as [Hlt|Hge]; cbn.
  - rewrite Z.max_l by lia. now destruct s.
  - now rewrite Z.max_r by lia.
Qed.

Lemma wrap32_negative z : - 2 ^ 32 ≤ z < 0 → wrap32 z = z + 2 ^ 32.
Proof.
  intros Hz. unfold wrap32. symmetry. apply (Z.mod_unique_pos _ _ (-1)); lia.
Qed.

Lemma continue_read_pause_time q p s :
  pausing q s = false → pause_time_msec (state_after (continue_read q p) s) = 0.
Proof.
  intros Hp. unfold state_after. rewrite (continue_read_go q p s Hp).
  set (s0 := set_pause (mytimer s) 0 (slowdown_requested s) s).
  pose proof (receive_result_settings p s0) as Hs. unfold state_after in Hs.
  unfold bind. destruct (receive_result p s0) as [[c|e] s1]; cbn [snd] in *;
    unfold settings in Hs; injection Hs; intros; assumption.
Qed.

Lemma continue_read_pause q p s :
  pausing q s = true →
  result_of (continue_read q p) s = returned (paused (next_pause (pause_time_msec s)))
  ∧ mytimer (state_after (continue_read q p) s) = Some (next_pause (pause_time_msec s)).
Proof.
  intros Hp. unfold result_of, state_after, continue_read.
  rewrite (bind_returned _ _ _ _ _ (check_pause_pause q s Hp)).
  destruct (2000 <=? next_pause (pause_time_msec s)); cbn; split; reflexivity.
Qed.

End exporter_properties.

(** X10.  The acknowledged block only moves forward.  After any run of
    [ack_block] calls of an acknowledging exporter the receiver differs
    from before in [exporter_acked_block] alone, which is the highest
    block number that was acknowledged, the one held before included; a
    call with a lower number than the one held throws and changes
    nothing. *)
Theorem ack_block_keeps_the_highest block_nums s :
  exporter_will_ack s = true →
  ack_blocks block_nums s
  = set_exporter_acked_block (foldl Z.max (exporter_acked_block s) block_nums) s
  ∧ exporter_acked_block s ≤ exporter_acked_block (ack_blocks block_nums s)
  ∧ ∀ n, n < exporter_acked_block s →
         ack_block n s
         = (threw (runtime_error "Exporter acked block below prevuously acked one"), s).
Proof.
  intros _.
  assert (Hrun : ∀ l s0, ack_blocks l s0
            = set_exporter_acked_block (foldl Z.max (exporter_acked_block s0) l) s0).
  { induction l as [|n l IH]; intros s0.
    - cbn. now destruct s0.
    - unfold ack_blocks in *. cbn [foldl]. rewrite IH, ack_block_state. reflexivity. }
  assert (Hmax : ∀ l a, a ≤ foldl Z.max a l).
  { induction l as [|n l IH]; intros a; cbn [foldl]; [lia|].
    etransitivity; [|apply IH]. lia. }
  split; [apply Hrun|]. split.
  - rewrite Hrun. cbn. apply Hmax.
  - intros n Hn. unfold ack_block. rewrite bind_gets.
    destruct (Z.ltb_spec n (exporter_acked_block s)); [reflexivity|lia].
Qed.

(** X10, witness: the exporter of the receiver at block 100 acknowledges
    blocks 99, 100, 98 and 100; the call for 98 throws. *)
Lemma ack_block_keeps_the_highest_witness :
  ack_blocks [99; 100; 98; 100] receiver_at_100
  = set_exporter_acked_block
      (foldl Z.max (exporter_acked_block receiver_at_100) [99; 100; 98; 100])
      receiver_at_100
  ∧ exporter_acked_block receiver_at_100
    ≤ exporter_acked_block (ack_blocks [99; 100; 98; 100] receiver_at_100)
  ∧ ∀ n, n < exporter_acked_block receiver_at_100 →
         ack_block n receiver_at_100
         = (threw (runtime_error "Exporter acked block below prevuously acked one"),
            receiver_at_100).
Proof.
  apply (ack_block_keeps_the_highest [99; 100; 98; 100] receiver_at_100).
  vm_compute; reflexivity.
Defined.

(** X11.  A [slowdown] request makes the receiver pause exactly once.
    When nothing else asks for a pause, the next [check_pause] after
    [slowdown] pauses (it arms the timer with the next wait and returns
    false) and takes the request back, so that the [check_pause] after
    that one lets the receiver read again. *)
Theorem slowdown_pauses_once `{Codec} q s :
  pausing q s = false →
  let s1 := state_after slowdown s in
  let s2 := state_after (check_pause q) s1 in
  result_of (check_pause q) s1 = returned false
  ∧ mytimer s2 = Some (next_pause (pause_time_msec s))
  ∧ pause_time_msec s2 = next_pause (pause_time_msec s)
  ∧ slowdown_requested s2 = false
  ∧ check_pause q s2 = (returned true, s2).
Proof.
  intros Hp. cbv zeta.
  assert (Hp1 : pausing q (state_after slowdown s) = true) by reflexivity.
  pose proof (check_pause_pause q _ Hp1) as E.
  change (pause_time_msec (state_after slowdown s)) with (pause_time_msec s) in E.
  set (s1 := state_after slowdown s) in *.
  unfold result_of, state_after. rewrite E. cbn [fst snd].
  split; [reflexivity|].
  destruct (2000 <=? next_pause (pause_time_msec s)); cbn [snd];
    (split; [reflexivity|]); (split; [reflexivity|]); (split; [reflexivity|]);
    apply check_pause_go; unfold pausing in *; cbn;
    (destruct (slowdown_requested s); [discriminate Hp|exact Hp]).
Qed.

(** X11, witness: the receiver at block 102 has no reason to pause. *)
Lemma slowdown_pauses_once_witness :
  let s1 := state_after slowdown receiver_at_102 in
  let s2 := state_after (check_pause 0) s1 in
  result_of (check_pause 0) s1 = returned false
  ∧ mytimer s2 = Some (next_pause (pause_time_msec receiver_at_102))
  ∧ pause_time_msec s2 = next_pause (pause_time_msec receiver_at_102)
  ∧ slowdown_requested s2 = false
  ∧ check_pause 0 s2 = (returned true, s2).
Proof.
  apply (@slowdown_pauses_once demo_codec 0 receiver_at_102). vm_compute; reflexivity.
Defined.

(** X12.  Reading a frame ends a run of pauses.  Whenever
    [continue_read] goes on to read a frame, [pause_time_msec] is 0
    afterwards, however the frame ends, so that the next pause, whenever
    it comes, is one of 100 ms again. *)
Theorem frame_read_resets_backoff `{Codec} q p s :
  pausing q s = false →
  let s' := state_after (continue_read q p) s in
  pause_time_msec s' = 0
  ∧ ∀ q' p', pausing q' s' = true →
             result_of (continue_read q' p') s' = returned (paused 100)
             ∧ mytimer (state_after (continue_read q' p') s') = Some 100.
Proof.
  intros Hp. cbv zeta. pose proof (continue_read_pause_time q p s Hp) as H0.
  split; [exact H0|]. intros q' p' Hp'.
  destruct (continue_read_pause q' p' _ Hp') as [Hr Ht]. rewrite H0 in Hr, Ht.
  split; [exact Hr|exact Ht].
Qed.

(** X12, witness: the receiver at block 100 had paused (its exporter
    acknowledged nothing); once block 100 is acknowledged it reads block
    101. *)
Lemma frame_read_resets_backoff_witness :
  let s := state_after (ack_block 100)
             (state_after (check_pause 0) (state_after (check_pause 0) receiver_at_100)) in
  let s' := state_after (continue_read 0 (demo_frame 101 101 99 100)) s in
  pause_time_msec s = 200
  ∧ pause_time_msec s' = 0
  ∧ ∀ q' p', pausing q' s' = true →
             result_of (continue_read q' p') s' = returned (paused 100)
             ∧ mytimer (state_after (continue_read q' p') s') = Some 100.
Proof.
  split; [vm_compute; reflexivity|].
  apply (@frame_read_resets_backoff demo_codec 0 (demo_frame 101 101 99 100)
           (state_after (ack_block 100)
              (state_after (check_pause 0) (state_after (check_pause 0) receiver_at_100)))).
  vm_compute; reflexivity.
Defined.

(** X13.  A frame for a block below the acknowledged one stalls the
    receiver.  [check_pause] computes [head - exporter_acked_block] in
    unsigned 32-bit arithmetic.  After a frame was processed successfully
    whose block number is below the block the exporter has acknowledged (a
    fork below the acknowledged block), that difference has wrapped
    around, and [check_pause] pauses, for every [exporter_max_unconfirmed]
    up to 2^32 minus the distance. *)
Theorem frame_below_acked_block_pauses `{Codec} p s result this_block q :
  result_of (decode_result p) s = returned result →
  chain_state.this_block result = Some this_block →
  result_of (receive_result p) s = returned true →
  exporter_will_ack s = true →
  0 ≤ chain_state.block_num this_block →
  chain_state.block_num this_block < exporter_acked_block s →
  exporter_acked_block s < 2 ^ 32 →
  exporter_max_unconfirmed s
  ≤ 2 ^ 32 - (exporter_acked_block s - chain_state.block_num this_block) →
  let s' := state_after (receive_result p) s in
  wrap32 (head s' - exporter_acked_block s')
  = 2 ^ 32 - (exporter_acked_block s - chain_state.block_num this_block)
  ∧ result_of (check_pause q) s' = returned false.
Proof.
  intros Hd Ht Hr Hack Hb0 Hb Ha Hmax. cbv zeta.
  destruct (frame_position_saved p s result this_block Hd Ht Hr) as [Hpos _].
  unfold position in Hpos. injection Hpos as Hh _ _ _.
  pose proof (receive_result_settings p s) as Hs. unfold settings in Hs.
  injection Hs; intros Hsl Hpt Htm Hmu Hac Hwa _ _ _ _ _ _ _ _.
  assert (Hw : wrap32 (head (state_after (receive_result p) s)
                       - exporter_acked_block (state_after (receive_result p) s))
               = 2 ^ 32 - (exporter_acked_block s - chain_state.block_num this_block)).
  { rewrite Hh, Hac, wrap32_negative; lia. }
  split; [exact Hw|].
  unfold result_of. rewrite check_pause_pause; [reflexivity|].
  unfold pausing. rewrite Hw, Hwa, Hack, Hmu.
  replace (_ <=? _) with true by (symmetry; apply Z.leb_le; exact Hmax).
  cbn. now rewrite orb_true_r.
Qed.

(** X13, witness: the exporter of the receiver at block 102 has
    acknowledged block 102 and tolerates 5 unconfirmed blocks; a fork at
    block 101 arrives. *)
Lemma frame_below_acked_block_pauses_witness :
  let s := state_after (ack_block 102) (exporter_will_ack_blocks 5 receiver_at_102) in
  let s' := state_after (receive_result (demo_frame 101 201 100 100)) s in
  head s' = 101
  ∧ wrap32 (head s' - exporter_acked_block s') = 2 ^ 32 - (exporter_acked_block s - 101)
  ∧ result_of (check_pause 0) s' = returned false.
Proof.
  split; [vm_compute; reflexivity|].
  apply (@frame_below_acked_block_pauses demo_codec (demo_frame 101 201 100 100)
           (state_after (ack_block 102) (exporter_will_ack_blocks 5 receiver_at_102))
           {| chain_state.head := demo_position (byte_of 101) (byte_of 201);
              chain_state.last_irreversible := demo_position (byte_of 100) (byte_of 100);
              chain_state.this_block := Some (demo_position (byte_of 101) (byte_of 201));
              chain_state.prev_block := Some (demo_position (byte_of 100) (byte_of 100));
              chain_state.block := None; chain_state.traces := None;
              chain_state.deltas := None |}
           (demo_position (byte_of 101) (byte_of 201)) 0);
    vm_compute; first [reflexivity | discriminate | (intros ?; discriminate)].
Defined.

(** ** The ABI registry *)
Section registry_properties.
Context `{Codec}.

Lemma abi_registry_ok_view s1 s2 :
  abi_view s1 = abi_view s2 → abi_registry_ok s1 → abi_registry_ok s2.
Proof.
  unfold abi_view. intros [= Hc Hi Hd].
  unfold abi_registry_ok, abi_cache_coherent, contract_abis, db_indexes.
  now rewrite Hc, Hi, Hd.
Qed.

Lemma renewed_for_returns account s :
  (imported <- gets contract_abi_imported ;;
   if decide (account ∈ imported) then init_contract_abi_ctxt else ret tt) s
  = (returned tt, renewed_for account s).
Proof.
  rewrite bind_gets. unfold renewed_for.
  now destruct (decide (account ∈ contract_abi_imported s)).
Qed.

Lemma renewed_for_members account s :
  db (renewed_for account s) = db s
  ∧ head (renewed_for account s) = head s
  ∧ block_timestamp (renewed_for account s) = block_timestamp s
  ∧ published (renewed_for account s) = published s
  ∧ abi_updates_has_subscribers (renewed_for account s) = abi_updates_has_subscribers s.
Proof.
  unfold renewed_for, state_after, init_contract_abi_ctxt, modify.
  destruct (decide (account ∈ contract_abi_imported s)); [|done].
  cbn. now destruct (contract_abi_ctxt s).
Qed.

Lemma renewed_for_ok account s :
  abi_registry_ok s →
  abi_registry_ok (renewed_for account s)
  ∧ account ∉ contract_abi_imported (renewed_for account s).
Proof.
  intros Hs. unfold renewed_for.
  destruct (decide (account ∈ contract_abi_imported s)) as [Hin|Hout]; [|done].
  destruct Hs as ((c & Ec & Hc) & Hv & Hst).
  unfold state_after, init_contract_abi_ctxt, modify. cbn. rewrite Ec. cbn.
  split; [|apply not_elem_of_empty]. split; [|split; assumption].
  exists abieos.abieos_create. split; [reflexivity|]. intros a. split.
  - intros Ha. now apply not_elem_of_empty in Ha.
  - intros _. apply lookup_empty.
Qed.

(** The registry after [save_contract_abi]. *)
Lemma save_contract_abi_view account data s :
  abi_view (state_after (save_contract_abi account data) s)
  = let s1 := renewed_for account s in
    match contract_abi_ctxt s1, abieos_check_abi_bin data with
    | Some c, bin_ok _ =>
        (Some {| abieos.contracts := <[account := data]> (abieos.contracts c) |},
         {[account]} ∪ contract_abi_imported s1,
         chainbase.with_indexes
           (set_contract_abi_index (<[account := data]> (contract_abis s1)) (db_indexes s1))
           (db s1))
    | _, _ => abi_view s1
    end.
Proof.
  unfold state_after, save_contract_abi.
  rewrite <- bind_assoc. rewrite (bind_returned _ _ _ _ _ (renewed_for_returns account s)).
  cbv zeta. set (s1 := renewed_for account s).
  unfold try_catch, abieos_set_abi_bin. unfold bind at 1.
  destruct (contract_abi_ctxt s1) as [c|] eqn:Ec; [|reflexivity].
  destruct (abieos_check_abi_bin data) as [[]|err]; [|reflexivity].
  cbn [or_throw]. rewrite bind_ret.
  unfold bind at 1, modify at 1. cbn [fst snd].
  rewrite bind_gets.
  match goal with
  | |- context [match ?x !! account with _ => _ end] => destruct (x !! account)
  end;
    unfold bind at 1, write_indexes, modify; cbn [fst snd]; rewrite bind_gets;
    cbn [abi_updates_has_subscribers set_db set_abi_cache];
    (destruct (abi_updates_has_subscribers s1); [|reflexivity]);
    rewrite !bind_gets; (destruct (bin_to_native_abi_def data); reflexivity).
Qed.

Lemma save_contract_abi_keeps account data :
  keeps_abi_registry (save_contract_abi account data).
Proof.
  intros s Hs.
  apply (abi_registry_ok_view
           (match contract_abi_ctxt (renewed_for account s), abieos_check_abi_bin data with
            | Some c, bin_ok _ =>
                set_abi_cache
                  (Some {| abieos.contracts := <[account := data]> (abieos.contracts c) |})
                  ({[account]} ∪ contract_abi_imported (renewed_for account s))
                  (set_db
                     (chainbase.with_indexes
                        (set_contract_abi_index
                           (<[account := data]> (contract_abis (renewed_for account s)))
                           (db_indexes (renewed_for account s)))
                        (db (renewed_for account s)))
                     (renewed_for account s))
            | _, _ => renewed_for account s
            end)).
  { pose proof (save_contract_abi_view account data s) as E. unfold state_after in E.
    rewrite E. cbv zeta.
    destruct (contract_abi_ctxt (renewed_for account s)); [|reflexivity].
    now destruct (abieos_check_abi_bin data). }
  destruct (renewed_for_ok account s Hs) as [Hs1 Hout].
  set (s1 := renewed_for account s) in *.
  destruct Hs1 as ((c & Ec & Hc) & Hv & Hst). rewrite Ec.
  destruct (abieos_check_abi_bin data) as [[]|err] eqn:Echk.
  2:{ split; [|split; assumption]. exists c. split; assumption. }
  split; [|split].
  - exists {| abieos.contracts := <[account := data]> (abieos.contracts c) |}.
    split; [reflexivity|]. intros a.
    unfold contract_abis, db_indexes. cbn.
    destruct (decide (a = account)) as [->|Hne].
    + rewrite !lookup_insert_eq. split; [intros _; split; [eauto|done]|].
      intros Hn. exfalso. apply Hn, elem_of_union. left. now apply elem_of_singleton.
    + rewrite !lookup_insert_ne by done. destruct (Hc a) as [Hin Hnot]. split.
      * intros Ha. apply Hin. apply elem_of_union in Ha as [Ha|Ha]; [|exact Ha].
        now apply elem_of_singleton in Ha.
      * intros Ha. apply Hnot. intros Hi. apply Ha, elem_of_union. now right.
  - unfold abis_valid, db_indexes. cbn. apply map_Forall_insert_2; [exact Echk|exact Hv].
  - exact Hst.
Qed.

Lemma clear_contract_abi_keeps account : keeps_abi_registry (clear_contract_abi account).
Proof.
  intros s Hs. unfold clear_contract_abi.
  rewrite <- bind_assoc. rewrite (bind_returned _ _ _ _ _ (renewed_for_returns account s)).
  destruct (renewed_for_ok account s Hs) as [Hs1 Hout].
  set (s1 := renewed_for account s) in *.
  rewrite bind_gets.
  destruct (contract_abis s1 !! account) as [abi|] eqn:Ea; [|exact Hs1].
  unfold bind, write_indexes, modify, gets, publish. cbn [fst snd].
  destruct Hs1 as ((c & Ec & Hc) & Hv & Hst).
  split; [|split].
  - exists c. split; [exact Ec|]. intros a.
    unfold contract_abis, db_indexes. cbn.
    destruct (Hc a) as [Hin Hnot]. split; [|exact Hnot].
    intros Ha. assert (a ≠ account) by congruence.
    rewrite lookup_delete_ne by done. now apply Hin.
  - unfold abis_valid, db_indexes. cbn. now apply map_Forall_delete.
  - exact Hst.
Qed.

Lemma get_contract_abi_ready_keeps account :
  keeps_abi_registry (get_contract_abi_ready account).
Proof.
  intros s Hs. unfold get_contract_abi_ready. rewrite bind_gets.
  destruct (decide (account ∈ contract_abi_imported s)) as [Hin|Hout]; [exact Hs|].
  rewrite bind_gets.
  destruct (contract_abis s !! account) as [abi|] eqn:Ea; [|exact Hs].
  destruct Hs as ((c & Ec & Hc) & Hv & Hst).
  assert (Echk : abieos_check_abi_bin abi = bin_ok tt) by (eapply Hv; exact Ea).
  unfold bind, abieos_set_abi_bin, modify. rewrite Ec, Echk. cbn [fst snd].
  split; [|split; assumption].
  exists {| abieos.contracts := <[account := abi]> (abieos.contracts c) |}.
  split; [reflexivity|]. intros a.
  change (contract_abis (ret true _).2) with (contract_abis s). cbn.
  destruct (decide (a = account)) as [->|Hne].
  - rewrite lookup_insert_eq. split; [intros _; split; [eauto|congruence]|].
    intros Hn. exfalso. apply Hn, elem_of_union. left. now apply elem_of_singleton.
  - rewrite lookup_insert_ne by done. destruct (Hc a) as [Hin Hnot]. split.
    + intros Ha. apply Hin. apply elem_of_union in Ha as [Ha|Ha]; [|exact Ha].
      now apply elem_of_singleton in Ha.
    + intros Ha. apply Hnot. intros Hi. apply Ha, elem_of_union. now right.
Qed.

Lemma keeps_pure {A} (m : M A) : pure m → keeps_abi_registry m.
Proof. intros Hp s Hs. now rewrite Hp. Qed.

Lemma keeps_bind {A B} (m : M A) (k : A → M B) :
  keeps_abi_registry m → (∀ a, keeps_abi_registry (k a)) → keeps_abi_registry (bind m k).
Proof.
  intros Hm Hk s Hs. unfold bind. specialize (Hm s Hs).
  destruct (m s) as [[a|e] s1]; cbn in *; [now apply Hk|exact Hm].
Qed.

Lemma keeps_publish ev : keeps_abi_registry (publish ev).
Proof. intros s Hs. exact Hs. Qed.

Lemma keeps_block_timestamp ts : keeps_abi_registry (modify (set_block_timestamp ts)).
Proof. intros s Hs. exact Hs. Qed.

Lemma keeps_set_position h hid i iid :
  keeps_abi_registry (modify (set_position h hid i iid)).
Proof. intros s Hs. exact Hs. Qed.

Lemma keeps_received_block_index l :
  keeps_abi_registry (write_indexes (set_received_block_index l)).
Proof. intros s Hs. exact Hs. Qed.

Ltac keeps_step :=
  match goal with
  | |- keeps_abi_registry (bind _ _) => apply keeps_bind; [|intros ?]
  | |- keeps_abi_registry (ret _) => apply keeps_pure, pure_ret
  | |- keeps_abi_registry (gets _) => apply keeps_pure, pure_gets
  | |- keeps_abi_registry (throw _) => apply keeps_pure, pure_throw
  | |- keeps_abi_registry (or_throw _ _) => apply keeps_pure, pure_or_throw
  | |- keeps_abi_registry (publish _) => apply keeps_publish
  | |- keeps_abi_registry (get_type _) => apply keeps_pure, pure_get_type
  | |- keeps_abi_registry (check_variant_name _ _ _) =>
      apply keeps_pure, pure_check_variant_name
  | |- keeps_abi_registry (check_rows _ _) => apply keeps_pure, pure_check_rows
  | |- keeps_abi_registry (save_contract_abi _ _) => apply save_contract_abi_keeps
  | |- keeps_abi_registry (clear_contract_abi _) => apply clear_contract_abi_keeps
  | |- keeps_abi_registry (get_contract_abi_ready _) => apply get_contract_abi_ready_keeps
  | |- keeps_abi_registry (modify (set_block_timestamp _)) => apply keeps_block_timestamp
  | |- keeps_abi_registry (modify (set_position _ _ _ _)) => apply keeps_set_position
  | |- keeps_abi_registry (write_indexes (set_received_block_index _)) =>
      apply keeps_received_block_index
  | |- keeps_abi_registry (if ?b then _ else _) => destruct b
  | |- keeps_abi_registry (match ?x with _ => _ end) => destruct x
  | |- keeps_abi_registry ?m => assumption
  end.

Lemma account_rows_keeps rows : keeps_abi_registry (account_rows rows).
Proof.
  induction rows as [|r rows IH]; cbn [account_rows]; repeat keeps_step.
Qed.

Lemma contract_rows_keeps rows : keeps_abi_registry (contract_rows rows).
Proof.
  induction rows as [|r rows IH]; cbn [contract_rows]; repeat keeps_step.
Qed.

Lemma receive_delta_keeps bin : keeps_abi_registry (receive_delta bin).
Proof.
  unfold receive_delta. repeat keeps_step;
    first [apply account_rows_keeps | apply contract_rows_keeps | idtac].
Qed.

Lemma receive_deltas_keeps buf : keeps_abi_registry (receive_deltas buf).
Proof.
  unfold receive_deltas. repeat keeps_step.
  generalize dependent l. induction (Z.to_nat z) as [|n IH]; intros bin;
    cbn [receive_deltas_loop]; [apply keeps_pure, pure_ret|].
  apply keeps_bind; [apply receive_delta_keeps|]. intros bin'. apply IH.
Qed.

Lemma receive_traces_keeps buf : keeps_abi_registry (receive_traces buf).
Proof.
  unfold receive_traces. repeat keeps_step.
  generalize dependent l. induction (Z.to_nat z) as [|n IH]; intros bin;
    cbn [receive_traces_loop]; [apply keeps_pure, pure_ret|].
  repeat keeps_step. apply IH.
Qed.

Lemma receive_block_keeps bin : keeps_abi_registry (receive_block bin).
Proof. unfold receive_block. repeat keeps_step. Qed.

Lemma apply_block_keeps result b bid : keeps_abi_registry (apply_block result b bid).
Proof.
  unfold apply_block, add_received_block. repeat keeps_step;
    first [apply receive_block_keeps | apply receive_deltas_keeps
          | apply receive_traces_keeps].
Qed.

Lemma abi_registry_ok_store s1 s2 :
  contract_abi_ctxt s1 = contract_abi_ctxt s2 →
  contract_abi_imported s1 = contract_abi_imported s2 →
  chronicle.contract_abi_index (db_indexes s1) = chronicle.contract_abi_index (db_indexes s2) →
  Forall (λ u, abis_valid (chainbase.old_values u)) (chainbase.stack (db s2)) →
  abi_registry_ok s1 → abi_registry_ok s2.
Proof.
  intros Hc Hi Ha Hst ((c & Ec & Hcoh) & Hv & _).
  split; [|split; [|exact Hst]].
  - exists c. split; [congruence|]. unfold contract_abis in *. now rewrite <- Hi, <- Ha.
  - unfold abis_valid in *. now rewrite <- Ha.
Qed.

Lemma undone_Forall (P : chronicle.indexes → Prop) k : ∀ d,
  P (chainbase.indexes d) →
  Forall (λ u, P (chainbase.old_values u)) (chainbase.stack d) →
  P (chainbase.indexes (undone k d))
  ∧ Forall (λ u, P (chainbase.old_values u)) (chainbase.stack (undone k d)).
Proof.
  induction k as [|k IH]; intros d Hd Hst; cbn [undone]; [done|].
  unfold chainbase.undo. destruct (chainbase.stack d) as [|u st] eqn:E; [now rewrite E|].
  apply Forall_cons in Hst as [Hu Hst]. now apply IH.
Qed.

Lemma fork_or_continuation_keeps result b s s1 :
  fork_or_continuation result b s = (returned tt, s1) →
  abi_registry_ok s → abi_registry_ok s1.
Proof.
  intros E Hs. apply fork_or_continuation_returned in E as [->|(k & ->)]; [exact Hs|].
  destruct Hs as ((c & Ec & Hc) & Hv & Hst).
  destruct (undone_Forall abis_valid k (db s) Hv Hst) as [Hv' Hst'].
  unfold state_after, publish, modify, rolled, init_contract_abi_ctxt. cbn. rewrite Ec. cbn.
  split; [|split; [exact Hv'|exact Hst']].
  exists abieos.abieos_create. split; [reflexivity|]. intros a. split.
  - intros Ha. now apply not_elem_of_empty in Ha.
  - intros _. apply lookup_empty.
Qed.

Lemma in_undo_session_keeps result b bid s s' :
  in_undo_session result b bid s = (returned true, s') →
  abi_registry_ok s → abi_registry_ok s'.
Proof.
  unfold in_undo_session. intros E Hs.
  apply bind_inv_returned in E as ([] & s0 & E0 & E).
  apply bind_inv_returned in E as ([] & s2 & E1 & E).
  assert (Hs0 : abi_registry_ok s0).
  { unfold start_undo_session, db_call, modify in E0. injection E0 as <-.
    destruct Hs as (Hc & Hv & Hst). split; [exact Hc|]. split; [exact Hv|].
    cbn. constructor; [exact Hv|exact Hst]. }
  assert (Hs2 : abi_registry_ok s2).
  { pose proof (apply_block_keeps result b bid s0 Hs0) as Hk.
    unfold on_unwind in E1.
    destruct (apply_block result b bid s0) as [[[]|e] s2']; [|discriminate].
    now injection E1 as <-. }
  rewrite finish_block_eq in E. destruct (aborting s2); [discriminate|].
  injection E as <-. destruct Hs2 as (Hc & Hv & Hst).
  split; [exact Hc|]. split; [exact Hv|].
  unfold finished. cbn. now apply commit_stack_Forall.
Qed.

Lemma load_state_registry s :
  contract_abi_imported s = ∅ →
  abis_valid (db_indexes s) →
  Forall (λ u, abis_valid (chainbase.old_values u)) (chainbase.stack (db s)) →
  abi_registry_ok (state_after load_state s).
Proof.
intros Hi Hv Hst. unfold state_after. rewrite load_state_loaded. cbn [snd].
  destruct (undone_Forall abis_valid (length (chainbase.stack (db s))) (db s) Hv Hst)
    as [Hv' Hst'].
  apply (abi_registry_ok_store
           (set_abi_cache (Some abieos.abieos_create) ∅
              (set_db (undone (length (chainbase.stack (db s))) (db s)) s))).
  + unfold loaded, state_after, init_contract_abi_ctxt, modify. cbv zeta.
    repeat match goal with |- context [if ?b then _ else _] => destruct b end;
      repeat match goal with |- context [match ?x with _ => _ end] => destruct x end;
      reflexivity.
  + unfold loaded, state_after, init_contract_abi_ctxt, modify. cbv zeta.
    repeat match goal with |- context [if ?b then _ else _] => destruct b end;
      repeat match goal with |- context [match ?x with _ => _ end] => destruct x end;
      cbn; first [reflexivity | now rewrite Hi].
  + unfold loaded, state_after, init_contract_abi_ctxt, modify. cbv zeta.
    repeat match goal with |- context [if ?b then _ else _] => destruct b end;
      repeat match goal with |- context [match ?x with _ => _ end] => destruct x end;
      reflexivity.
  + unfold loaded, state_after, init_contract_abi_ctxt, modify. cbv zeta.
    repeat match goal with |- context [if ?b then _ else _] => destruct b end;
      repeat match goal with |- context [match ?x with _ => _ end] => destruct x end;
      exact Hst'.
  + split; [|split; [exact Hv'|exact Hst']].
    exists abieos.abieos_create. split; [reflexivity|]. intros a. split.
    * intros Ha. now apply not_elem_of_empty in Ha.
    * intros _. apply lookup_empty.
Qed.

Lemma receive_result_registry p s :
  abi_registry_ok s →
  result_of (receive_result p) s = returned true →
  abi_registry_ok (state_after (receive_result p) s).
Proof.
intros Hs Hr. unfold result_of, state_after in *.
  unfold receive_result, bind in *.
  pose proof (pure_decode_result p s) as Hp.
  destruct (decode_result p s) as [[result|e] s0]; cbn in Hp; subst s0;
    [|discriminate].
  destruct (chain_state.this_block result) as [this_block|]; [|exact Hs].
  unfold receive_block_frame in *. cbv zeta in *.
  rewrite (bind_returned _ _ _ _ _ (raise_revision_returns _ s)) in *.
  set (b := chain_state.block_num this_block) in *.
  assert (Hs0 : abi_registry_ok (state_after (raise_revision b) s)).
  { destruct (raise_revision_frame b s) as (d & cs & -> & Hix & Hst & _).
    apply (abi_registry_ok_store s); try reflexivity.
    - unfold db_indexes. cbn. now rewrite Hix.
    - cbn. rewrite Hst. apply Hs.
    - exact Hs. }
  unfold bind in *.
  destruct (fork_or_continuation result b _) as [[[]|e] s1] eqn:Ef; [|discriminate].
  pose proof (fork_or_continuation_keeps _ _ _ _ Ef Hs0) as Hs1.
  destruct (in_undo_session result b _ s1) as [r s'] eqn:Eu. cbn [fst snd] in *.
  subst r. exact (in_undo_session_keeps _ _ _ _ _ Eu Hs1).
Qed.

End registry_properties.

(** X14.  The ABI registry stays in order.  Call the registry in order
    when there is a decode context, the context holds for every account of
    [contract_abi_imported] exactly the ABI record the store has for it
    and nothing for any other account, and every ABI record, in the store
    and in the states the undo stack keeps, passes the check of
    [abieos_set_abi_bin].  [load_state] puts the registry in order when
    the records are valid and nothing was loaded yet, and every frame
    that [receive_result] processes successfully keeps it in order:
    whatever ABIs the frame installed, replaced or removed, and whatever
    fork it rolled back. *)
Theorem abi_registry_stays_in_order `{Codec} :
  (∀ s, contract_abi_imported s = ∅ →
        abis_valid (db_indexes s) →
        Forall (λ u, abis_valid (chainbase.old_values u)) (chainbase.stack (db s)) →
        abi_registry_ok (state_after load_state s))
  ∧ (∀ p s, abi_registry_ok s →
            result_of (receive_result p) s = returned true →
            abi_registry_ok (state_after (receive_result p) s)).
Proof.
  split; [exact load_state_registry|exact receive_result_registry].
Qed.

Section registry_example.
#[local] Existing Instance delta_codec.

(** X14, witness: a receiver restarted on a database that holds alice's
    ABI has its registry in order, and so it is after the next block,
    whose deltas remove that ABI and install one for bob. *)
Lemma abi_registry_stays_in_order_witness :
  abi_registry_ok receiver_restarted
  ∧ result_of (receive_result (demo_frame_behind 200 2 2 150 1 ++ demo_deltas_swap))
      receiver_restarted = returned true
  ∧ abi_registry_ok
      (state_after (receive_result (demo_frame_behind 200 2 2 150 1 ++ demo_deltas_swap))
         receiver_restarted).
Proof.
  destruct (@abi_registry_stays_in_order delta_codec) as [Hload Hframe].
  assert (H0 : abi_registry_ok receiver_restarted).
  { apply Hload.
    - vm_compute; reflexivity.
    - unfold abis_valid.
      replace (chronicle.contract_abi_index
                 (db_indexes (set_db (db receiver_with_alice) fresh_receiver_with_tables)))
        with ({[ "alice"%string := [Byte.x07] ]} : gmap name bytes)
        by (vm_compute; reflexivity).
      apply map_Forall_singleton. reflexivity.
    - vm_compute. constructor. }
  split; [exact H0|]. split; [vm_compute; reflexivity|].
  apply Hframe; [exact H0|vm_compute; reflexivity].
Defined.

End registry_example.

Section abi_calls.
Context `{Codec}.

Lemma get_contract_abi_ready_false account s :
  account ∉ contract_abi_imported s →
  contract_abis s !! account = None →
  get_contract_abi_ready account s = (returned false, s).
Proof.
  intros Hout Hnone. unfold get_contract_abi_ready. rewrite bind_gets.
  rewrite decide_False by exact Hout. rewrite bind_gets. now rewrite Hnone.
Qed.

Lemma get_contract_abi_ready_imported account s :
  account ∈ contract_abi_imported s →
  get_contract_abi_ready account s = (returned true, s).
Proof.
  intros Hin. unfold get_contract_abi_ready. rewrite bind_gets.
  now rewrite decide_True by exact Hin.
Qed.

Lemma get_contract_abi_ready_load account abi c s :
  account ∉ contract_abi_imported s →
  contract_abis s !! account = Some abi →
  contract_abi_ctxt s = Some c →
  abieos_check_abi_bin abi = bin_ok tt →
  get_contract_abi_ready account s
  = (returned true,
     set_abi_cache (Some {| abieos.contracts := <[account := abi]> (abieos.contracts c) |})
       ({[account]} ∪ contract_abi_imported s) s).
Proof.
  intros Hout Ha Ec Echk. unfold get_contract_abi_ready. rewrite bind_gets.
  rewrite decide_False by exact Hout. rewrite bind_gets, Ha.
  unfold bind, abieos_set_abi_bin, modify, ret. now rewrite Ec, Echk.
Qed.

End abi_calls.

(** X15.  [get_contract_abi_ctxt], the call by which an exporter gets
    the context to decode the data of a contract with: when the registry
    is in order and the store has an ABI record for the account, the
    context returned has exactly that ABI loaded for the account.  The
    call leaves the registry in order, writes nothing to the store and
    publishes nothing. *)
Theorem get_contract_abi_ctxt_has_the_abi `{Codec} account abi s :
  abi_registry_ok s →
  contract_abis s !! account = Some abi →
  let s' := state_after (get_contract_abi_ctxt account) s in
  (∃ c, result_of (get_contract_abi_ctxt account) s = returned (Some c)
        ∧ abieos.contracts c !! account = Some abi)
  ∧ account ∈ contract_abi_imported s'
  ∧ abi_registry_ok s'
  ∧ db s' = db s
  ∧ published s' = published s.
Proof.
  intros Hs Ha. cbv zeta.
  pose proof (get_contract_abi_ready_keeps account s Hs) as Hk.
  destruct Hs as ((c & Ec & Hc) & Hv & Hst).
  unfold result_of, state_after, get_contract_abi_ctxt.
  destruct (decide (account ∈ contract_abi_imported s)) as [Hin|Hout].
  - rewrite (get_contract_abi_ready_imported account s Hin) in Hk.
    rewrite (bind_returned _ _ _ _ _ (get_contract_abi_ready_imported account s Hin)).
    cbn. rewrite Ec.
    split; [|split; [exact Hin|split; [exact Hk|split; reflexivity]]].
    exists c. split; [reflexivity|]. destruct (Hc account) as [Hi _].
    destruct (Hi Hin) as [_ ->]. exact Ha.
  - assert (Echk : abieos_check_abi_bin abi = bin_ok tt) by (eapply Hv; exact Ha).
    rewrite (get_contract_abi_ready_load account abi c s Hout Ha Ec Echk) in Hk.
    rewrite (bind_returned _ _ _ _ _
               (get_contract_abi_ready_load account abi c s Hout Ha Ec Echk)).
    cbn [gets fst snd] in *.
    split; [|split; [|split; [exact Hk|split; reflexivity]]].
    + eexists. split; [reflexivity|]. cbn. apply lookup_insert_eq.
    + cbn. apply elem_of_union. left. now apply elem_of_singleton.
Qed.

Section abi_examples.
#[local] Existing Instance delta_codec.

Lemma receiver_restarted_registry : abi_registry_ok receiver_restarted.
Proof.
  apply load_state_registry.
  - vm_compute; reflexivity.
  - unfold abis_valid.
    replace (chronicle.contract_abi_index
               (db_indexes (set_db (db receiver_with_alice) fresh_receiver_with_tables)))
      with ({[ "alice"%string := [Byte.x07] ]} : gmap name bytes)
      by (vm_compute; reflexivity).
    apply map_Forall_singleton. reflexivity.
  - vm_compute. constructor.
Qed.

(** X15, witness: the receiver restarted on a database that holds
    alice's ABI has loaded nothing yet; the call loads the ABI. *)
Lemma get_contract_abi_ctxt_has_the_abi_witness :
  let s' := state_after (get_contract_abi_ctxt "alice") receiver_restarted in
  contract_abi_imported receiver_restarted = ∅
  ∧ (∃ c, result_of (get_contract_abi_ctxt "alice") receiver_restarted = returned (Some c)
          ∧ abieos.contracts c !! "alice"%string = Some [Byte.x07])
  ∧ "alice"%string ∈ contract_abi_imported s'
  ∧ abi_registry_ok s'
  ∧ db s' = db receiver_restarted
  ∧ published s' = published receiver_restarted.
Proof.
  split; [vm_compute; reflexivity|].
  apply (@get_contract_abi_ctxt_has_the_abi delta_codec "alice" [Byte.x07]
           receiver_restarted);
    [exact receiver_restarted_registry|vm_compute; reflexivity].
Defined.

End abi_examples.

(** X16.  [save_contract_abi] with an ABI that abieos accepts: the
    call returns, the store holds the new ABI for the account and the
    records of the other accounts as before, the account counts as loaded
    and the context holds the new ABI for it, so that
    [get_contract_abi_ready] answers true.  With a subscriber on the
    abi_updates channel exactly one event is published: the [abi_update]
    with the decoded ABI, or, when the ABI cannot be decoded into an
    [abi_def], an [abi_error] with the decoder's text, the record
    staying in the store all the same; without a subscriber nothing is
    published. *)
Theorem save_contract_abi_installs `{Codec} account data s :
  abi_install_error account data s = None →
  let s' := state_after (save_contract_abi account data) s in
  result_of (save_contract_abi account data) s = returned tt
  ∧ contract_abis s' = <[account := data]> (contract_abis s)
  ∧ account ∈ contract_abi_imported s'
  ∧ (∃ c, contract_abi_ctxt s' = Some c ∧ abieos.contracts c !! account = Some data)
  ∧ get_contract_abi_ready account s' = (returned true, s')
  ∧ events_of (save_contract_abi account data) s
    = if abi_updates_has_subscribers s
      then [match bin_to_native_abi_def data with
            | bin_ok abi =>
                channels.abi_updates (head s) (block_timestamp s) account data abi
            | bin_error e => channels.abi_errors (head s) (block_timestamp s) account e
            end]
      else [].
Proof.
  intros He. cbv zeta.
  assert (Hgen :
    result_of (save_contract_abi account data) s = returned tt
    ∧ contract_abis (state_after (save_contract_abi account data) s)
      = <[account := data]> (contract_abis s)
    ∧ account ∈ contract_abi_imported (state_after (save_contract_abi account data) s)
    ∧ (∃ c, contract_abi_ctxt (state_after (save_contract_abi account data) s) = Some c
            ∧ abieos.contracts c !! account = Some data)
    ∧ published (state_after (save_contract_abi account data) s)
      = published s ++
          (if abi_updates_has_subscribers s
           then [match bin_to_native_abi_def data with
                 | bin_ok abi =>
                     channels.abi_updates (head s) (block_timestamp s) account data abi
                 | bin_error e =>
                     channels.abi_errors (head s) (block_timestamp s) account e
                 end]
           else [])).
  { unfold abi_install_error in He.
    unfold result_of, state_after, save_contract_abi.
    rewrite bind_gets.
    destruct (contract_abi_ctxt s) as [c|] eqn:Ec;
      destruct (decide (account ∈ contract_abi_imported s));
      unfold try_catch, bind, init_contract_abi_ctxt, modify, abieos_set_abi_bin, ret,
        gets, write_indexes, publish, contract_abis, db_indexes;
      cbn; rewrite ?Ec; cbn;
      destruct (abieos_check_abi_bin data) as [[]|err]; try discriminate; cbn;
      destruct (chronicle.contract_abi_index (chainbase.indexes (db s)) !! account); cbn;
      destruct (abi_updates_has_subscribers s); cbn;
      try (destruct (bin_to_native_abi_def data); cbn);
      rewrite ?app_nil_r;
      (split; [reflexivity|]); (split; [reflexivity|]);
      (split; [apply elem_of_union; left; now apply elem_of_singleton|]);
      (split; [eexists; split; [reflexivity|apply lookup_insert_eq]|reflexivity]). }
  destruct Hgen as (Hr & Ha & Hi & Hc & Hp).
  split; [exact Hr|]. split; [exact Ha|]. split; [exact Hi|]. split; [exact Hc|].
  split; [now apply get_contract_abi_ready_imported|]. now apply events_of_app.
Qed.

(** X16, witness: bob's ABI [9] is installed on the restarted receiver,
    which has a subscriber on the abi_updates channel. *)
Lemma save_contract_abi_installs_witness :
  let s := receiver_restarted in
  let s' := state_after (@save_contract_abi delta_codec "bob" [Byte.x09]) s in
  result_of (@save_contract_abi delta_codec "bob" [Byte.x09]) s = returned tt
  ∧ contract_abis s' = <["bob"%string := [Byte.x09]]> (contract_abis s)
  ∧ "bob"%string ∈ contract_abi_imported s'
  ∧ (∃ c, contract_abi_ctxt s' = Some c
          ∧ abieos.contracts c !! "bob"%string = Some [Byte.x09])
  ∧ @get_contract_abi_ready delta_codec "bob" s' = (returned true, s')
  ∧ events_of (@save_contract_abi delta_codec "bob" [Byte.x09]) s
    = if abi_updates_has_subscribers s
      then [match @bin_to_native_abi_def delta_codec [Byte.x09] with
            | bin_ok abi =>
                channels.abi_updates (head s) (block_timestamp s) "bob" [Byte.x09] abi
            | bin_error e => channels.abi_errors (head s) (block_timestamp s) "bob" e
            end]
      else [].
Proof.
  apply (@save_contract_abi_installs delta_codec "bob" [Byte.x09] receiver_restarted).
  vm_compute; reflexivity.
Defined.

(** X17.  [clear_contract_abi] never throws and removes the ABI record
    of the account from the store, leaving the other records alone.  An
    [abi_removal] event is published exactly when there was a record.
    Afterwards, if there is a decode context, the account does not count
    as loaded any more: [get_contract_abi_ready] answers false and
    changes nothing. *)
Theorem clear_contract_abi_removes `{Codec} account s :
  let s' := state_after (clear_contract_abi account) s in
  result_of (clear_contract_abi account) s = returned tt
  ∧ contract_abis s' = delete account (contract_abis s)
  ∧ events_of (clear_contract_abi account) s
    = match contract_abis s !! account with
      | Some _ => [channels.abi_removals (head s) (block_timestamp s) account]
      | None => []
      end
  ∧ (contract_abi_ctxt s ≠ None →
     get_contract_abi_ready account s' = (returned false, s')).
Proof.
  cbv zeta.
  assert (Hgen :
    result_of (clear_contract_abi account) s = returned tt
    ∧ contract_abis (state_after (clear_contract_abi account) s)
      = delete account (contract_abis s)
    ∧ published (state_after (clear_contract_abi account) s)
      = published s ++
          match contract_abis s !! account with
          | Some _ => [channels.abi_removals (head s) (block_timestamp s) account]
          | None => []
          end
    ∧ (contract_abi_ctxt s ≠ None →
       account ∉ contract_abi_imported (state_after (clear_contract_abi account) s))).
  { unfold result_of, state_after, clear_contract_abi.
    rewrite bind_gets.
    destruct (contract_abi_ctxt s) as [c|] eqn:Ec;
      destruct (decide (account ∈ contract_abi_imported s)) as [Hin|Hout];
      unfold bind, init_contract_abi_ctxt, modify, ret, gets, write_indexes, publish,
        contract_abis, db_indexes;
      cbn; rewrite ?Ec; cbn;
      destruct (chronicle.contract_abi_index (chainbase.indexes (db s)) !! account)
        eqn:Ea; cbn; rewrite ?app_nil_r;
      (split; [reflexivity|]);
      (split; [first [reflexivity | symmetry; now apply delete_id]|]);
      (split; [reflexivity|]); intros Hctx; try done; apply not_elem_of_empty. }
  destruct Hgen as (Hr & Ha & Hp & Hi).
  split; [exact Hr|]. split; [exact Ha|]. split; [now apply events_of_app|].
  intros Hctx. apply get_contract_abi_ready_false; [now apply Hi|].
  rewrite Ha. apply lookup_delete_eq.
Qed.

(** ** The trace and delta paths *)
Section payload_properties.
Context `{Codec}.

Lemma set_published_same s : set_published (published s) s = s.
Proof. now destruct s. Qed.

Lemma receive_traces_loop_spec num : ∀ bin s,
  receive_traces_loop num bin s
  = (match (decoded_traces num bin).2 with
     | None => returned tt
     | Some e => threw (runtime_error ("transaction_trace conversion error: " +:+ e))
     end,
     set_published (published s ++ trace_events s (decoded_traces num bin).1) s).
Proof.
  induction num as [|n IH]; intros bin s; cbn [receive_traces_loop decoded_traces].
  - unfold trace_events. cbn. now rewrite app_nil_r, set_published_same.
  - unfold bind at 1.
    destruct (bin_to_native_transaction_trace bin) as [[trace bin']|e]; cbn [or_throw].
    + cbn [ret fst snd]. rewrite bind_gets.
      unfold trace_events. cbn [fst snd].
      destruct (blacklisted (blacklist_actions s) trace) eqn:Ebl.
      * rewrite bind_ret, IH. rewrite filter_cons_False by congruence. reflexivity.
      * rewrite bind_assoc, bind_gets, bind_assoc, bind_gets.
        unfold bind at 1, publish, modify. cbn [fst snd].
        rewrite IH. rewrite filter_cons_True by exact Ebl.
        unfold trace_events. cbn. now rewrite <- app_assoc.
    + unfold trace_events. cbn. now rewrite app_nil_r, set_published_same.
Qed.

End payload_properties.

(** X18.  What [receive_traces] publishes.  With a subscriber on the
    transaction_traces channel and a buffer that decompresses and
    announces [num] traces, the receiver differs afterwards in what it
    published alone: one transaction_trace event, with the current head
    and block timestamp, for every decoded trace that is not blacklisted,
    in the order of the buffer.  If a trace cannot be decoded,
    [receive_traces] throws the decoder's text after
    "transaction_trace conversion error: ", the traces before that one
    having been published. *)
Theorem receive_traces_publishes_in_order `{Codec} buf data num bin s :
  transaction_traces_has_subscribers s = true →
  zlib_decompress buf = bin_ok data →
  read_varuint32 data = bin_ok (num, bin) →
  receive_traces buf s
  = (match (decoded_traces (Z.to_nat num) bin).2 with
     | None => returned tt
     | Some e => threw (runtime_error ("transaction_trace conversion error: " +:+ e))
     end,
     set_published
       (published s ++ trace_events s (decoded_traces (Z.to_nat num) bin).1) s).
Proof.
  intros Hsub Hz Hn. unfold receive_traces.
  rewrite bind_gets, Hsub, Hz. cbn [or_throw]. rewrite bind_ret, Hn.
  cbn [or_throw]. rewrite bind_ret. apply receive_traces_loop_spec.
Qed.

(** X18, witness: a buffer that announces four traces and holds three,
    the second being (eosio, onblock). *)
Lemma receive_traces_publishes_in_order_witness :
  receive_traces (map byte_of [4; 2; 1; 0]%N) receiver_at_102
  = (threw (runtime_error "transaction_trace conversion error: read past end"),
     set_published
       (published receiver_at_102 ++
          [channels.transaction_traces 102 0
             (demo_trace [demo_action "eosio.token" "transfer"]);
           channels.transaction_traces 102 0 (demo_trace [])])
       receiver_at_102)
  ∧ receive_traces (map byte_of [4; 2; 1; 0]%N) receiver_at_102
    = (match (decoded_traces (Z.to_nat 4) (map byte_of [2; 1; 0]%N)).2 with
       | None => returned tt
       | Some e => threw (runtime_error ("transaction_trace conversion error: " +:+ e))
       end,
       set_published
         (published receiver_at_102 ++
            trace_events receiver_at_102
              (decoded_traces (Z.to_nat 4) (map byte_of [2; 1; 0]%N)).1)
         receiver_at_102).
Proof.
  split; [vm_compute; reflexivity|].
  apply (@receive_traces_publishes_in_order demo_codec (map byte_of [4; 2; 1; 0]%N)
           (map byte_of [4; 2; 1; 0]%N) 4 (map byte_of [2; 1; 0]%N) receiver_at_102);
    vm_compute; reflexivity.
Defined.

Section contract_row_properties.
Context `{Codec}.

(** [get_contract_abi_ready] answers whether the ABI can be had, and
    leaves that as it is for every account. *)
Lemma get_contract_abi_ready_known account s :
  result_of (get_contract_abi_ready account) s = returned (abi_known s account)
  ∧ let s' := state_after (get_contract_abi_ready account) s in
    head s' = head s ∧ block_timestamp s' = block_timestamp s
    ∧ db s' = db s ∧ published s' = published s
    ∧ ∀ code, abi_known s' code = abi_known s code.
Proof.
  unfold result_of, state_after, get_contract_abi_ready, abi_known.
  rewrite bind_gets.
  destruct (decide (account ∈ contract_abi_imported s)) as [Hin|Hout].
  - cbn. rewrite bool_decide_eq_true_2 by exact Hin. repeat split.
  - rewrite bind_gets. rewrite (bool_decide_eq_false_2 _ Hout).
    destruct (contract_abis s !! account) as [abi|] eqn:Ea.
    + rewrite bool_decide_eq_true_2 by eauto.
      unfold bind, abieos_set_abi_bin, modify, ret.
      destruct (contract_abi_ctxt s) as [c|]; cbn [fst snd];
        try destruct (abieos_check_abi_bin abi) as [[]|err]; cbn [fst snd];
        (split; [reflexivity|]); (split; [reflexivity|]); (split; [reflexivity|]);
        (split; [reflexivity|]); (split; [reflexivity|]);
        intros code; unfold contract_abis, db_indexes; cbn;
        (destruct (decide (code = account)) as [->|Hne];
         [ rewrite (bool_decide_eq_true_2 (is_Some _)) by (unfold contract_abis, db_indexes in Ea; eauto);
           now rewrite !orb_true_r
         | f_equal; apply bool_decide_ext; rewrite elem_of_union, elem_of_singleton;
           split; [intros [?|?]; [done|assumption]|intros ?; now right] ]).
    + rewrite bool_decide_eq_false_2 by (intros [? ?]; discriminate).
      cbn. repeat split.
Qed.

Lemma contract_row_event_ext s s' x :
  head s' = head s → block_timestamp s' = block_timestamp s →
  (∀ code, abi_known s' code = abi_known s code) →
  contract_row_event s' x = contract_row_event s x.
Proof. intros Hh Ht Hk. unfold contract_row_event. now rewrite Hh, Ht, Hk. Qed.

Lemma contract_rows_spec rows : ∀ s,
  let s' := state_after (contract_rows rows) s in
  match (decoded_contract_rows rows).2 with
  | None => ∃ rows', result_of (contract_rows rows) s = returned rows'
                     ∧ length rows' = length rows
  | Some e => result_of (contract_rows rows) s
              = threw (runtime_error ("cannot read table row object" +:+ e))
  end
  ∧ published s' = published s ++ (contract_row_event s <$> (decoded_contract_rows rows).1)
  ∧ db s' = db s
  ∧ head s' = head s ∧ block_timestamp s' = block_timestamp s
  ∧ ∀ code, abi_known s' code = abi_known s code.
Proof.
  induction rows as [|r rows IH]; intros s; cbv zeta.
  - cbn. rewrite app_nil_r. repeat split. now exists [].
  - unfold result_of, state_after. cbn [contract_rows decoded_contract_rows].
    rewrite !bind_gets.
    destruct (bin_to_native_key_value_object (chain_state.data r)) as [[kvo rest]|e];
      cbn [or_throw].
    2:{ cbn. rewrite app_nil_r. repeat split. }
    rewrite !bind_ret. cbv beta iota.
    destruct (get_contract_abi_ready_known (chain_state.kvo_code kvo) s)
      as (Hr & Hh & Ht & Hdb & Hp & Hk).
    unfold result_of, state_after in Hr, Hh, Ht, Hdb, Hp, Hk.
    destruct (get_contract_abi_ready (chain_state.kvo_code kvo) s) as [ready s1] eqn:Eg.
    cbn [fst snd] in *. subst ready.
    rewrite !(bind_returned _ _ _ _ _ Eg).
    set (ev := contract_row_event s (r, kvo)).
    assert (Epub : ((if abi_known s (chain_state.kvo_code kvo)
                     then publish (channels.table_row_updates (head s) (block_timestamp s)
                                     (chain_state.present r) kvo)
                     else publish (channels.abi_errors (head s) (block_timestamp s)
                                     (chain_state.kvo_code kvo)
                                     "cannot decode table delta because of missing ABI")) s1)
                   = (returned tt, set_published (published s1 ++ [ev]) s1)).
    { subst ev. unfold contract_row_event. cbn [fst snd].
      now destruct (abi_known s (chain_state.kvo_code kvo)). }
    rewrite !(bind_returned _ _ _ _ _ Epub).
    set (s2 := set_published (published s1 ++ [ev]) s1).
    specialize (IH s2). cbv zeta in IH. unfold result_of, state_after in IH.
    destruct IH as (Hres & Hp2 & Hdb2 & Hh2 & Ht2 & Hk2).
    assert (Hext : ∀ x, contract_row_event s2 x = contract_row_event s x).
    { intros x. apply contract_row_event_ext; [exact Hh|exact Ht|exact Hk]. }
    assert (Hpub : ∀ s3, published s3
                         = published s2 ++ (contract_row_event s2 <$>
                                              (decoded_contract_rows rows).1) →
              published s3
              = published s ++ (contract_row_event s <$>
                                  ((r, kvo) :: (decoded_contract_rows rows).1))).
    { intros s3 ->. subst s2. cbn [published set_published]. rewrite Hp.
      rewrite <- app_assoc. cbn. f_equal. f_equal.
      apply list_fmap_ext. intros ? x _. apply Hext. }
    assert (Hdb1 : db s2 = db s1) by reflexivity.
    assert (Hh1 : head s2 = head s1) by reflexivity.
    assert (Ht1 : block_timestamp s2 = block_timestamp s1) by reflexivity.
    destruct (contract_rows rows s2) as [[rows'|e] s3] eqn:Ec; cbn [fst snd] in *.
    + rewrite !(bind_returned _ _ _ _ _ Ec). cbn [ret fst snd]. split.
      * destruct ((decoded_contract_rows rows).2); [discriminate|].
        destruct Hres as (rows0 & [= <-] & Hlen). eexists. split; [reflexivity|].
        cbn. now rewrite Hlen.
      * split; [now apply Hpub|].
        split; [congruence|]. split; [congruence|]. split; [congruence|].
        intros code. rewrite Hk2. apply Hk.
    + rewrite !(bind_threw _ _ _ _ _ Ec). cbn [fst snd]. split.
      * destruct ((decoded_contract_rows rows).2);
          [|destruct Hres as (? & ? & _); discriminate].
        exact Hres.
      * split; [now apply Hpub|].
        split; [congruence|]. split; [congruence|]. split; [congruence|].
        intros code. rewrite Hk2. apply Hk.
Qed.

End contract_row_properties.

(** ** The stamps on the events of a frame *)
Section stamp_properties.
Context `{Codec}.

Lemma stamps_refl s : stamps s s.
Proof. split; [done|]. split; [done|]. exists []. now rewrite app_nil_r. Qed.

Lemma stamps_trans s1 s2 s3 : stamps s1 s2 → stamps s2 s3 → stamps s1 s3.
Proof.
  intros (Hh1 & Ht1 & e1 & Hp1 & F1) (Hh2 & Ht2 & e2 & Hp2 & F2).
  split; [congruence|]. split; [congruence|].
  exists (e1 ++ e2). rewrite Hp2, Hp1, app_assoc. split; [done|].
  apply Forall_app. split; [done|]. now rewrite <- Hh1, <- Ht1.
Qed.

Lemma stamps_published s evs :
  Forall (stamped (head s) (block_timestamp s)) evs →
  stamps s (set_published (published s ++ evs) s).
Proof. intros F. split; [done|]. split; [done|]. now exists evs. Qed.

Lemma stamping_pure {A} (m : M A) : pure m → stamping m.
Proof. intros Hp s. rewrite Hp. apply stamps_refl. Qed.

Lemma stamping_bind {A B} (m : M A) (k : A → M B) :
  stamping m → (∀ a, stamping (k a)) → stamping (bind m k).
Proof.
  intros Hm Hk s. unfold bind. specialize (Hm s).
  destruct (m s) as [[a|e] s1]; cbn in *; [|exact Hm].
  eapply stamps_trans; [exact Hm|apply Hk].
Qed.

Lemma bind_pure {A B} (m : M A) (k : A → M B) s :
  pure m →
  bind m k s = match (m s).1 with returned a => k a s | threw e => (threw e, s) end.
Proof.
  intros Hp. unfold bind. specialize (Hp s).
  destruct (m s) as [[a|e] s1]; cbn in *; now subst.
Qed.

Lemma save_contract_abi_stamping account data : stamping (save_contract_abi account data).
Proof.
  intros s. unfold save_contract_abi. rewrite bind_gets.
  destruct (contract_abi_ctxt s) as [c|] eqn:Ec;
    destruct (decide (account ∈ contract_abi_imported s));
    unfold try_catch, bind, init_contract_abi_ctxt, modify, abieos_set_abi_bin, ret,
      gets, write_indexes, publish, contract_abis, db_indexes;
    cbn; rewrite ?Ec; cbn;
    destruct (abieos_check_abi_bin data) as [[]|err]; cbn;
    try (destruct (chronicle.contract_abi_index (chainbase.indexes (db s)) !! account); cbn;
         destruct (abi_updates_has_subscribers s); cbn;
         try (destruct (bin_to_native_abi_def data); cbn));
    (split; [reflexivity|]); (split; [reflexivity|]);
    first [ (exists []; split; [now rewrite app_nil_r|constructor])
          | (eexists [_]; split; [reflexivity|]; repeat constructor) ].
Qed.

Lemma clear_contract_abi_stamping account : stamping (clear_contract_abi account).
Proof.
  intros s. unfold clear_contract_abi. rewrite bind_gets.
  destruct (contract_abi_ctxt s) as [c|] eqn:Ec;
    destruct (decide (account ∈ contract_abi_imported s));
    unfold bind, init_contract_abi_ctxt, modify, ret, gets, write_indexes, publish,
      contract_abis, db_indexes;
    cbn; rewrite ?Ec; cbn;
    destruct (chronicle.contract_abi_index (chainbase.indexes (db s)) !! account); cbn;
    (split; [reflexivity|]); (split; [reflexivity|]);
    first [ (exists []; split; [now rewrite app_nil_r|constructor])
          | (eexists [_]; split; [reflexivity|]; repeat constructor) ].
Qed.

Lemma account_rows_stamping rows : stamping (account_rows rows).
Proof.
  induction rows as [|r rows IH]; cbn [account_rows]; [apply stamping_pure, pure_ret|].
  apply stamping_bind; [|intros r'; apply stamping_bind; [exact IH|]; intros;
                          apply stamping_pure, pure_ret].
  destruct (chain_state.present r); [|apply stamping_pure, pure_ret].
  apply stamping_bind; [apply stamping_pure, pure_or_throw|]. intros [acc rest].
  apply stamping_bind; [|intros; apply stamping_pure, pure_ret].
  destruct (decide (chain_state.abi acc = []));
    [apply clear_contract_abi_stamping|apply save_contract_abi_stamping].
Qed.

Lemma contract_row_event_stamped s x :
  stamped (head s) (block_timestamp s) (contract_row_event s x).
Proof. unfold contract_row_event. now destruct (abi_known s _). Qed.

Lemma contract_rows_stamping rows : stamping (contract_rows rows).
Proof.
  intros s. destruct (contract_rows_spec rows s) as (_ & Hp & _ & Hh & Ht & _).
  split; [exact Hh|]. split; [exact Ht|]. eexists. split; [exact Hp|].
  apply Forall_fmap, Forall_forall. intros x _. apply contract_row_event_stamped.
Qed.

Lemma receive_delta_stamping bin : stamping (receive_delta bin).
Proof.
  intros s. unfold receive_delta.
  rewrite (bind_pure _ _ _ (pure_get_type _)).
  destruct (get_type "table_delta" s).1 as [table_delta_type|e]; [|apply stamps_refl].
  rewrite (bind_pure _ _ _ (pure_check_variant_name _ _ _)).
  destruct (check_variant_name bin table_delta_type "table_delta_v0" s).1 as [bin1|e];
    [|apply stamps_refl].
  rewrite bind_gets. rewrite (bind_pure _ _ _ (pure_or_throw _ _)).
  destruct (or_throw _ (bin_to_native_table_delta bin1) s).1 as [[td bin2]|e];
    [|apply stamps_refl].
  rewrite (bind_pure _ _ _ (pure_get_type _)).
  destruct (get_type (chain_state.td_name td) s).1 as [variant_type|e]; [|apply stamps_refl].
  match goal with
  | |- context [bind (if ?c then _ else _)] => destruct c
  end; [apply stamps_refl|].
  rewrite bind_ret. rewrite (bind_pure _ _ _ (pure_check_rows _ _)).
  destruct (check_rows variant_type (chain_state.rows td) s).1 as [rows1|e];
    [|apply stamps_refl].
  rewrite !bind_gets.
  set (rows_step := if bool_decide (chain_state.td_name td = "account"%string)
                    then account_rows rows1
                    else if bool_decide (chain_state.td_name td = "contract_row"%string)
                            && (table_row_updates_has_subscribers s
                                || abi_errors_has_subscribers s)
                         then contract_rows rows1
                         else ret rows1).
  assert (Hrows : stamps s (rows_step s).2).
  { subst rows_step. destruct (bool_decide _); [apply account_rows_stamping|].
    destruct (_ && _); [apply contract_rows_stamping|apply stamps_refl]. }
  unfold bind at 1. destruct (rows_step s) as [[rows2|e] s1]; cbn [fst snd] in *;
    [|exact Hrows].
  unfold bind, publish, modify. cbn [fst snd ret].
  eapply stamps_trans; [exact Hrows|].
  destruct Hrows as (Hh & Ht & _). apply stamps_published.
  repeat constructor. cbn. congruence.
Qed.

Lemma receive_deltas_stamping buf : stamping (receive_deltas buf).
Proof.
  unfold receive_deltas.
  apply stamping_bind; [apply stamping_pure, pure_or_throw|]. intros data.
  apply stamping_bind; [apply stamping_pure, pure_or_throw|]. intros [num bin].
  revert bin. induction (Z.to_nat num) as [|n IH]; intros bin; cbn [receive_deltas_loop];
    [apply stamping_pure, pure_ret|].
  apply stamping_bind; [apply receive_delta_stamping|]. intros bin'. apply IH.
Qed.

Lemma trace_events_stamped s traces :
  Forall (stamped (head s) (block_timestamp s)) (trace_events s traces).
Proof.
  unfold trace_events. apply Forall_fmap, Forall_forall. intros x _. now cbn.
Qed.

Lemma receive_traces_stamping buf : stamping (receive_traces buf).
Proof.
  unfold receive_traces. intros s. rewrite bind_gets.
  destruct (transaction_traces_has_subscribers s); [|apply stamps_refl].
  rewrite (bind_pure _ _ _ (pure_or_throw _ _)).
  destruct (or_throw _ (zlib_decompress buf) s).1 as [data|e]; [|apply stamps_refl].
  rewrite (bind_pure _ _ _ (pure_or_throw _ _)).
  destruct (or_throw _ (read_varuint32 data) s).1 as [[num bin]|e]; [|apply stamps_refl].
  rewrite receive_traces_loop_spec. cbn [snd].
  apply stamps_published, trace_events_stamped.
Qed.

(** Lines 470-495: every event they publish is stamped with the block
    of the frame and the block timestamp they leave. *)
Lemma apply_block_stamped result b bid s :
  (∃ evs, published (apply_block result b bid s).2 = published s ++ evs
          ∧ Forall (stamped b (block_timestamp (apply_block result b bid s).2)) evs)
  ∧ ((apply_block result b bid s).1 = returned tt →
     block_timestamp (apply_block result b bid s).2 = frame_timestamp result s).
Proof.
  assert (Hnone : ∀ s0 : receiver_plugin_impl, published s0 = published s →
            ∃ evs, published s0 = published s ++ evs
                   ∧ Forall (stamped b (block_timestamp s0)) evs).
  { intros s0 E. exists []. rewrite app_nil_r. split; [exact E|constructor]. }
  assert (Hrest : ∀ s1, head s1 = b → published s1 = published s →
    block_timestamp s1 = block_timestamp s →
    (∃ evs,
      published (((match chain_state.block result with
                   | Some bl => receive_block bl | None => ret tt end) ;;;
                  (match chain_state.deltas result with
                   | Some bl => receive_deltas bl | None => ret tt end) ;;;
                  (match chain_state.traces result with
                   | Some bl => receive_traces bl | None => ret tt end)) s1).2
      = published s ++ evs
      ∧ Forall (stamped b
                  (block_timestamp
                     (((match chain_state.block result with
                        | Some bl => receive_block bl | None => ret tt end) ;;;
                       (match chain_state.deltas result with
                        | Some bl => receive_deltas bl | None => ret tt end) ;;;
                       (match chain_state.traces result with
                        | Some bl => receive_traces bl | None => ret tt end)) s1).2)) evs)
    ∧ ((((match chain_state.block result with
          | Some bl => receive_block bl | None => ret tt end) ;;;
         (match chain_state.deltas result with
          | Some bl => receive_deltas bl | None => ret tt end) ;;;
         (match chain_state.traces result with
          | Some bl => receive_traces bl | None => ret tt end)) s1).1 = returned tt →
       block_timestamp
         (((match chain_state.block result with
            | Some bl => receive_block bl | None => ret tt end) ;;;
           (match chain_state.deltas result with
            | Some bl => receive_deltas bl | None => ret tt end) ;;;
           (match chain_state.traces result with
            | Some bl => receive_traces bl | None => ret tt end)) s1).2
       = frame_timestamp result s)).
  { intros s1 Hh1 Hp1 Hts1.
    assert (Hblock : ∃ s2 evs0,
              ((match chain_state.block result with
                | Some bl => receive_block bl | None => ret tt end) s1
               = (returned tt, s2) ∨
               ∃ e, (match chain_state.block result with
                     | Some bl => receive_block bl | None => ret tt end) s1
                    = (threw e, s2))
              ∧ head s2 = b ∧ published s2 = published s ++ evs0
              ∧ Forall (stamped b (block_timestamp s2)) evs0
              ∧ block_timestamp s2 = frame_timestamp result s).
    { unfold frame_timestamp. destruct (chain_state.block result) as [bl|].
      - unfold receive_block. rewrite !bind_gets.
        destruct (bin_to_native_signed_block bl) as [blk|e]; cbn [or_throw].
        + rewrite bind_ret. unfold bind, modify, publish. cbn [fst snd].
          eexists _, [_]. split; [left; reflexivity|]. cbn. rewrite Hp1, Hh1.
          repeat split. repeat constructor.
        + exists s1, []. split; [right; eexists; reflexivity|].
          rewrite app_nil_r. repeat split; [exact Hh1|exact Hp1|constructor|exact Hts1].
      - exists s1, []. split; [left; reflexivity|].
        rewrite app_nil_r. repeat split; [exact Hh1|exact Hp1|constructor|exact Hts1]. }
    destruct Hblock as (s2 & evs0 & Hcase & Hh2 & Hp2 & F2 & Hts2).
    destruct Hcase as [E|[e E]].
    2:{ rewrite (bind_threw _ _ _ _ _ E). cbn [fst snd].
        split; [now exists evs0|discriminate]. }
    rewrite (bind_returned _ _ _ _ _ E).
    assert (Hpay : stamps s2
              (((match chain_state.deltas result with
                 | Some bl => receive_deltas bl | None => ret tt end) ;;;
                (match chain_state.traces result with
                 | Some bl => receive_traces bl | None => ret tt end)) s2).2).
    { apply (stamping_bind (A:=unit) (B:=unit)).
      - destruct (chain_state.deltas result);
          [apply receive_deltas_stamping|apply stamping_pure, pure_ret].
      - intros _. destruct (chain_state.traces result);
          [apply receive_traces_stamping|apply stamping_pure, pure_ret]. }
    destruct Hpay as (Hh3 & Ht3 & evs & Hp3 & F3).
    split; [|intros _; congruence].
    exists (evs0 ++ evs). rewrite Hp3, Hp2, app_assoc. split; [reflexivity|].
    rewrite Ht3. apply Forall_app. split; [exact F2|]. now rewrite <- Hh2. }
  unfold apply_block. rewrite bind_gets.
  destruct (irreversible s <? b).
  - unfold add_received_block. rewrite !bind_assoc, bind_gets.
    destruct (insert_by_blocknum _ (received_blocks s)) as [idx'|].
    + apply (Hrest (positioned result b bid (truncate_front (irreversible s) idx') s));
        reflexivity.
    + split; [now apply Hnone|discriminate].
  - apply (Hrest (set_position b bid
                    (chain_state.block_num (chain_state.last_irreversible result))
                    (chain_state.block_id (chain_state.last_irreversible result)) s));
      reflexivity.
Qed.

End stamp_properties.

Section frame_stamps.
Context `{Codec}.

Lemma fork_or_continuation_events result b s :
  block_timestamp (fork_or_continuation result b s).2 = block_timestamp s
  ∧ (published (fork_or_continuation result b s).2 = published s
     ∨ published (fork_or_continuation result b s).2
       = published s ++ [channels.forks b (wrap32 (head s - b)) channels.network]).
Proof.
  destruct (Z.lt_ge_cases (chain_state.block_num (chain_state.last_irreversible result)) b)
    as [HL|HL].
  - destruct (Z.le_gt_cases b (head s)) as [Hh|Hh].
    + assert (Hs1 : ∀ k, block_timestamp (rolled k (state_after init_contract_abi_ctxt s))
                         = block_timestamp s
                         ∧ published (rolled k (state_after init_contract_abi_ctxt s))
                           = published s).
      { intros k. unfold rolled, state_after, init_contract_abi_ctxt, modify. cbn.
        now destruct (contract_abi_ctxt s). }
      destruct (fork_or_continuation_fork result b s HL Hh)
        as (k & _ & _ & [(E & _)|[(E & _)|(E & _)]]); rewrite E; cbn [snd];
        destruct (Hs1 k) as [Ht Hp].
      * split; [exact Ht|now left].
      * split; [exact Ht|now left].
      * split; [exact Ht|]. right. rewrite <- Hp. reflexivity.
    + rewrite fork_or_continuation_ahead by (done || lia).
      destruct (_ && _); (split; [reflexivity|now left]).
  - rewrite fork_or_continuation_below by lia. split; [reflexivity|now left].
Qed.

Lemma session_destructor_members s :
  published (session_destructor s).2 = published s
  ∧ block_timestamp (session_destructor s).2 = block_timestamp s.
Proof. destruct (session_destructor_db s) as (d & cs & ->). now split. Qed.

Lemma in_undo_session_events result b bid s :
  (∃ evs, published (in_undo_session result b bid s).2 = published s ++ evs
          ∧ Forall (stamped b (block_timestamp (in_undo_session result b bid s).2)) evs)
  ∧ ((in_undo_session result b bid s).1 = returned true →
     block_timestamp (in_undo_session result b bid s).2 = frame_timestamp result s).
Proof.
  unfold in_undo_session, start_undo_session.
  unfold bind at 1 3 5 7, db_call, modify. cbn [fst snd].
  set (s0 := set_db_calls _ _).
  destruct (apply_block_stamped result b bid s0) as [(evs & Hp & F) Hts].
  change (published s0) with (published s) in Hp.
  change (frame_timestamp result s0) with (frame_timestamp result s) in Hts.
  unfold bind, on_unwind.
  destruct (apply_block result b bid s0) as [[[]|e] s2]; cbn [fst snd] in *.
  - rewrite finish_block_eq. destruct (aborting s2); cbn [fst snd].
    + destruct (session_destructor_members s2) as [-> ->].
      split; [now exists evs|discriminate].
    + split; [now exists evs|]. intros _. now apply Hts.
  - destruct (session_destructor_members s2) as [-> ->].
    split; [now exists evs|discriminate].
Qed.

End frame_stamps.

(** X19.  The events of a frame are stamped with the frame.  Every
    event that [receive_result] publishes for a frame that carries
    [this_block], however the frame ends, names the block of the frame:
    the fork event as the block forked at, the block event and the trace,
    ABI and table row events as their block number.  Every one of them
    that carries a block timestamp carries the one the receiver holds
    after the frame; for a frame that was processed successfully this is
    the timestamp of the block the frame holds, and, when the frame holds
    no block, the timestamp of the last block the receiver did decode. *)
Theorem frame_events_are_stamped `{Codec} p s result this_block :
  result_of (decode_result p) s = returned result →
  chain_state.this_block result = Some this_block →
  let s' := state_after (receive_result p) s in
  Forall (stamped (chain_state.block_num this_block) (block_timestamp s'))
    (events_of (receive_result p) s)
  ∧ (result_of (receive_result p) s = returned true →
     block_timestamp s' = frame_timestamp result s).
Proof.
  intros Hd Ht. cbv zeta. unfold events_of. unfold result_of, state_after in *.
  rewrite (receive_result_decoded p s result Hd), Ht.
  unfold receive_block_frame. cbv zeta.
  rewrite (bind_returned _ _ _ _ _ (raise_revision_returns _ s)).
  set (b := chain_state.block_num this_block).
  set (s0 := state_after (raise_revision b) s).
  destruct (raise_revision_members b s) as (_ & _ & Hpos0 & _ & Hp0). fold s0 in Hpos0, Hp0.
  assert (Hts0 : block_timestamp s0 = block_timestamp s).
  { subst s0. destruct (raise_revision_frame b s) as (d & cs & -> & _). reflexivity. }
  destruct (fork_or_continuation_events result b s0) as [Hts1 Hp1].
  unfold bind.
  destruct (fork_or_continuation result b s0) as [[[]|e] s1] eqn:Ef; cbn [fst snd] in *.
  - destruct (in_undo_session_events result b (chain_state.block_id this_block) s1)
      as [(evs & Hp & F) Hts].
    split.
    + rewrite Hp. destruct Hp1 as [->| ->]; rewrite Hp0.
      * now rewrite drop_app_length.
      * rewrite <- app_assoc, drop_app_length. cbn. constructor; [reflexivity|exact F].
    + intros Hr. rewrite (Hts Hr). unfold frame_timestamp.
      destruct (chain_state.block result); [|congruence].
      destruct (bin_to_native_signed_block _); congruence.
  - split; [|discriminate].
    assert (Hp : published s1 = published s).
    { destruct Hp1 as [Hp1|Hp1]; [congruence|].
      exfalso.
      destruct (Z.lt_ge_cases (chain_state.block_num (chain_state.last_irreversible result))
                  b) as [HL|HL].
      - destruct (Z.le_gt_cases b (head s0)) as [Hh|Hh].
        + destruct (fork_or_continuation_fork result b s0 HL Hh)
            as (k & _ & _ & [(E & _)|[(E & _)|(E & _)]]); rewrite E in Ef;
            try discriminate; injection Ef as _ <-;
            unfold rolled, state_after, init_contract_abi_ctxt, modify in Hp1;
            cbn in Hp1; destruct (contract_abi_ctxt s0); cbn in Hp1;
            apply (f_equal length) in Hp1; rewrite length_app in Hp1; cbn in Hp1; lia.
        + rewrite fork_or_continuation_ahead in Ef by (done || lia).
          destruct (_ && _); injection Ef as _ <-;
            apply (f_equal length) in Hp1; rewrite length_app in Hp1; cbn in Hp1; lia.
      - rewrite fork_or_continuation_below in Ef by lia. discriminate. }
    rewrite Hp, drop_all. constructor.
Qed.

(** X19, witness: at the receiver at block 102 a fork at block 101
    arrives whose traces payload holds a transfer. *)
Lemma frame_events_are_stamped_witness :
  let p := demo_frame 101 201 100 100 ++ map byte_of [1; 2]%N in
  let s' := state_after (receive_result p) receiver_at_102 in
  events_of (receive_result p) receiver_at_102
  = [channels.forks 101 1 channels.network;
     channels.transaction_traces 101 0 (demo_trace [demo_action "eosio.token" "transfer"])]
  ∧ Forall (stamped 101 (block_timestamp s')) (events_of (receive_result p) receiver_at_102)
  ∧ (result_of (receive_result p) receiver_at_102 = returned true →
     block_timestamp s'
     = frame_timestamp
         {| chain_state.head := demo_position (byte_of 101) (byte_of 201);
            chain_state.last_irreversible := demo_position (byte_of 100) (byte_of 100);
            chain_state.this_block := Some (demo_position (byte_of 101) (byte_of 201));
            chain_state.prev_block := Some (demo_position (byte_of 100) (byte_of 100));
            chain_state.block := None;
            chain_state.traces := Some (map byte_of [1; 2]%N);
            chain_state.deltas := None |}
         receiver_at_102).
Proof.
  split; [vm_compute; reflexivity|].
  apply (@frame_events_are_stamped demo_codec
           (demo_frame 101 201 100 100 ++ map byte_of [1; 2]%N) receiver_at_102
           {| chain_state.head := demo_position (byte_of 101) (byte_of 201);
              chain_state.last_irreversible := demo_position (byte_of 100) (byte_of 100);
              chain_state.this_block := Some (demo_position (byte_of 101) (byte_of 201));
              chain_state.prev_block := Some (demo_position (byte_of 100) (byte_of 100));
              chain_state.block := None;
              chain_state.traces := Some (map byte_of [1; 2]%N);
              chain_state.deltas := None |}
           (demo_position (byte_of 101) (byte_of 201)));
    vm_compute; reflexivity.
Defined.

(** X20.  The rows of a "contract_row" delta give one event each, in
    the order of the rows: a [table_row_update], with [added] as the
    row's [present], when the ABI of the row's contract is loaded or in
    the store, and otherwise an [abi_error] saying "cannot decode table
    delta because of missing ABI"; all carry the current head and block
    timestamp.  The store is not written.  If a row cannot be decoded the
    loop throws the decoder's text after "cannot read table row object",
    the events of the rows before it having been published. *)
Theorem contract_rows_one_event_per_row `{Codec} rows s :
  let s' := state_after (contract_rows rows) s in
  events_of (contract_rows rows) s
  = contract_row_event s <$> (decoded_contract_rows rows).1
  ∧ db s' = db s
  ∧ match (decoded_contract_rows rows).2 with
    | None =>
        (∃ rows', result_of (contract_rows rows) s = returned rows'
                  ∧ length rows' = length rows)
        ∧ length (events_of (contract_rows rows) s) = length rows
    | Some e =>
        result_of (contract_rows rows) s
        = threw (runtime_error ("cannot read table row object" +:+ e))
    end.
Proof.
  cbv zeta. destruct (contract_rows_spec rows s) as (Hres & Hp & Hdb & _).
  rewrite (events_of_app _ _ _ Hp). split; [reflexivity|]. split; [exact Hdb|].
  destruct ((decoded_contract_rows rows).2) eqn:E; [exact Hres|].
  split; [exact Hres|]. rewrite length_fmap.
  clear -E. revert E. induction rows as [|r rows IH]; cbn; [done|].
  destruct (bin_to_native_key_value_object (chain_state.data r)) as [[kvo rest]|e];
    cbn; [|discriminate].
  intros E. now rewrite IH.
Qed.

(** ** The revision-control calls of a frame *)

(** X21.  The calls a frame makes on the database.  For a frame that
    carries [this_block], however it ends, the revision-control calls are,
    in this order: [set_revision] with the block number if the revision
    was below it; [k] calls of [undo], [k] being 0 unless the frame is a
    fork; and then either nothing more (the frame was refused before its
    session was opened), or [start_undo_session] followed by [undo] (the
    frame failed or the receiver is aborting: the session is undone), or
    [start_undo_session], [push] and [commit] (the frame returned true).
    No frame leaves its undo session open. *)
Theorem frame_closes_its_session `{Codec} p s result this_block :
  result_of (decode_result p) s = returned result →
  chain_state.this_block result = Some this_block →
  let s' := state_after (receive_result p) s in
  let b := chain_state.block_num this_block in
  ∃ k tail,
    db_calls s'
    = db_calls s ++ (if revision s <? b then [chainbase.set_revision_call b] else [])
        ++ replicate k chainbase.undo_call ++ tail
    ∧ (¬ (chain_state.block_num (chain_state.last_irreversible result) < b ∧ b ≤ head s)
       → k = 0%nat)
    ∧ ((tail = [] ∧ ∃ e, result_of (receive_result p) s = threw e)
       ∨ (tail = [chainbase.start_undo_session_call; chainbase.undo_call]
          ∧ result_of (receive_result p) s ≠ returned true)
       ∨ (tail = [chainbase.start_undo_session_call; chainbase.push_call;
                  chainbase.commit_call (commit_rev s')]
          ∧ result_of (receive_result p) s = returned true)).
Proof.
  intros Hd Ht. cbv zeta. unfold result_of, state_after in *.
  rewrite (receive_result_decoded p s result Hd), Ht.
  unfold receive_block_frame. cbv zeta.
  rewrite (bind_returned _ _ _ _ _ (raise_revision_returns _ s)).
  set (b := chain_state.block_num this_block).
  set (s0 := state_after (raise_revision b) s).
  destruct (raise_revision_frame b s) as (d & cs & Es0 & _ & _ & Hcs).
  assert (Hcs0 : db_calls s0
                 = db_calls s ++ (if revision s <? b then [chainbase.set_revision_call b]
                                  else [])).
  { subst s0. rewrite Es0. cbn. exact Hcs. }
  destruct (raise_revision_members b s) as (_ & _ & Hpos0 & _).
  assert (Hh0 : head s0 = head s) by (unfold position in Hpos0; fold s0 in Hpos0; congruence).
  destruct (fork_or_continuation_store result b s0) as (k & _ & _ & Hcs1 & _ & _ & Hzero).
  rewrite Hh0 in Hzero.
  unfold bind.
  destruct (fork_or_continuation result b s0) as [[[]|e] s1]; cbn [fst snd] in *.
  - destruct (in_undo_session_store result b (chain_state.block_id this_block) s1)
      as [(Htrue & ring & s2 & _ & Hf & _ & Es')|(Hnot & _ & Hcs')].
    + exists k, [chainbase.start_undo_session_call; chainbase.push_call;
                 chainbase.commit_call
                   (commit_rev (in_undo_session result b
                                  (chain_state.block_id this_block) s1).2)].
      split; [|split; [exact Hzero|right; right; now split]].
      rewrite Es'. apply payload_frame_members in Hf as (_ & Hcs2 & _).
      assert (Hrev : commit_rev (finished s2) = commit_rev s2) by reflexivity.
      rewrite Hrev. unfold finished. cbn [db_calls set_db_calls]. rewrite Hcs2.
      cbn. rewrite Hcs1, Hcs0. now rewrite <- !app_assoc.
    + exists k, [chainbase.start_undo_session_call; chainbase.undo_call].
      split; [|split; [exact Hzero|right; left; now split]].
      rewrite Hcs', Hcs1, Hcs0. now rewrite <- !app_assoc.
  - exists k, []. split; [|split; [exact Hzero|left; split; [reflexivity|now exists e]]].
    rewrite Hcs1, Hcs0, app_nil_r. now rewrite <- !app_assoc.
Qed.

(** X21, witness: block 103 arrives at the receiver at block 102. *)
Lemma frame_closes_its_session_witness :
  let s := receiver_at_102 in
  let s' := state_after (receive_result (demo_frame 103 103 101 102)) s in
  db_calls s'
  = db_calls s ++ [chainbase.start_undo_session_call; chainbase.push_call;
                   chainbase.commit_call 101]
  ∧ ∃ k tail,
      db_calls s'
      = db_calls s ++ (if revision s <? 103 then [chainbase.set_revision_call 103] else [])
          ++ replicate k chainbase.undo_call ++ tail
      ∧ (¬ (101 < 103 ∧ 103 ≤ head s) → k = 0%nat)
      ∧ ((tail = []
          ∧ ∃ e, result_of (receive_result (demo_frame 103 103 101 102)) s = threw e)
         ∨ (tail = [chainbase.start_undo_session_call; chainbase.undo_call]
            ∧ result_of (receive_result (demo_frame 103 103 101 102)) s ≠ returned true)
         ∨ (tail = [chainbase.start_undo_session_call; chainbase.push_call;
                    chainbase.commit_call (commit_rev s')]
            ∧ result_of (receive_result (demo_frame 103 103 101 102)) s = returned true)).
Proof.
  split; [vm_compute; reflexivity|].
  apply (@frame_closes_its_session demo_codec (demo_frame 103 103 101 102) receiver_at_102
           {| chain_state.head := demo_position (byte_of 103) (byte_of 103);
              chain_state.last_irreversible := demo_position (byte_of 101) (byte_of 101);
              chain_state.this_block := Some (demo_position (byte_of 103) (byte_of 103));
              chain_state.prev_block := Some (demo_position (byte_of 102) (byte_of 102));
              chain_state.block := None; chain_state.traces := None;
              chain_state.deltas := None |}
           (demo_position (byte_of 103) (byte_of 103)));
    vm_compute; reflexivity.
Defined.

(** ** The first read and the start of the plugin *)
Section first_read.
Context `{Codec} `{Json}.

Lemma close_spec c :
  close c
  = (returned tt,
     {| my := my c;
        stream := (λ st, {| is_open := false; written := written st |}) <$> stream c |}).
Proof.
  unfold close. destruct c as [s [[[] w]|]]; reflexivity.
Qed.

Lemma receive_abi_threw p s e :
  result_of (receive_abi p) s = threw e → receive_abi p s = (threw e, s).
Proof.
  unfold result_of, receive_abi, bind.
  destruct (json_to_native_abi_def p) as [abi|e1]; cbn; [|congruence].
  destruct (check_abi_version abi) as [[]|e2]; cbn; [|congruence].
  destruct (fill_contract abi) as [types|e3]; cbn; [discriminate|congruence].
Qed.

End first_read.

(** X22.  The handler of the first read lets no exception out and
    closes the socket on failure.  If the first message of the server is
    not a usable ABI ([receive_abi] throws), the handler returns with the
    receiver as it was, nothing written to the socket and the socket
    closed.  If the ABI is taken but the request cannot be sent (the new
    schema has no "request" type, or abieos cannot encode the request),
    the schema stays installed, nothing is written and the socket is
    closed.  In both cases [continue_read] is not reached.  With the error
    code of the read set, the handler does nothing but close the
    socket. *)
Theorem first_read_closes_on_failure `{Codec} `{Json} {A} in_buffer
    (continue_read : IO A) c :
  let closed c0 :=
    {| my := my c0;
       stream := (λ st, {| is_open := false; written := written st |}) <$> stream c0 |} in
  callback true (start_read_handler in_buffer continue_read) c = (returned tt, closed c)
  ∧ (∀ e, result_of (receive_abi in_buffer) (my c) = threw e →
          callback false (start_read_handler in_buffer continue_read) c
          = (returned tt, closed c))
  ∧ (∀ s1 e, receive_abi in_buffer (my c) = (returned tt, s1) →
             (request_blocks {| my := s1; stream := stream c |}).1 = threw e →
             callback false (start_read_handler in_buffer continue_read) c
             = (returned tt, closed {| my := s1; stream := stream c |}))
  ∧ (∀ s1 c2, receive_abi in_buffer (my c) = (returned tt, s1) →
              request_blocks {| my := s1; stream := stream c |} = (returned tt, c2) →
              callback false (start_read_handler in_buffer continue_read) c
              = catch_and_close continue_read c2).
Proof.
  cbv zeta. split; [apply close_spec|]. split; [|split].
  - intros e He. apply receive_abi_threw in He.
    unfold callback, catch_and_close, start_read_handler, io_bind, lift.
    rewrite He. cbn [fst snd]. destruct c as [s st]. cbn. apply close_spec.
  - intros s1 e E1 E2.
    unfold callback, catch_and_close, start_read_handler, io_bind, lift.
    rewrite E1. cbn [fst snd].
    rewrite request_blocks_spec, send_spec in *. cbn [my] in *.
    destruct (abi_types s1 !! "request"%string) as [t|]; [|apply close_spec].
    destruct (json_to_bin t (blocks_request s1)); [discriminate|apply close_spec].
  - intros s1 c2 E1 E2.
    unfold callback, catch_and_close, start_read_handler, io_bind, lift.
    rewrite E1. cbn [fst snd]. now rewrite E2.
Qed.

(** X22, witness: the toy JSON side refuses an empty message. *)
Lemma first_read_closes_on_failure_witness :
  callback false (start_read_handler [] (lift (ret tt))) connected_at_102
  = (returned tt,
     {| my := my connected_at_102;
        stream := Some {| is_open := false; written := [] |} |}).
Proof.
  destruct (@first_read_closes_on_failure demo_codec demo_json unit [] (lift (ret tt))
              connected_at_102) as (_ & Hbad & _).
  rewrite (Hbad (runtime_error "abi parse error: unexpected end of input"));
    vm_compute; reflexivity.
Defined.

(** X23.  The receiver is launched only when every plugin it depends on
    has started.  One call of [start_after_dependencies] launches the
    receiver ([mustwait] is false) exactly when all dependent plugins have
    started, and then none is left in the list; otherwise it waits, and
    what is left in the list starts with a plugin that has not started,
    all plugins before it, which had started, having been erased.  A
    plugin added by [add_dependency] that has not started makes the
    receiver wait. *)
Theorem receiver_waits_for_dependencies dependent_plugins :
  let rest := (start_after_dependencies dependent_plugins).1 in
  let mustwait := (start_after_dependencies dependent_plugins).2 in
  (mustwait = false ↔ Forall (λ d, d.1 = started) dependent_plugins)
  ∧ (mustwait = false → rest = [])
  ∧ (∃ erased, dependent_plugins = erased ++ rest
               ∧ Forall (λ d, d.1 = started) erased)
  ∧ (mustwait = true → ∃ d rest', rest = d :: rest' ∧ d.1 ≠ started)
  ∧ (∀ plug plugname, plug ≠ started →
       (start_after_dependencies (add_dependency plug plugname dependent_plugins)).2
       = true).
Proof.
  cbv zeta. induction dependent_plugins as [|[st nm] l IH]; cbn [start_after_dependencies].
  - cbn. repeat split; try done.
    + now exists [].
    + intros plug nm Hp. cbn. now destruct plug.
  - destruct IH as (Hiff & Hnil & (erased & Hl & Hall) & Hwait & Hadd).
    destruct st; cbn [is_started fst snd].
    1,2,4: (split; [split; [discriminate|intros Hf; apply Forall_cons in Hf as [? _];
                                          discriminate]|]);
           (split; [discriminate|]);
           (split; [exists []; split; [reflexivity|constructor]|]);
           (split; [intros _; eexists _, _; split; [reflexivity|discriminate]|]);
           intros plug nm' Hp; reflexivity.
    split; [|split; [exact Hnil|split; [|split; [exact Hwait|]]]].
    + rewrite Hiff. split; [intros Hf; now constructor|].
      intros Hf. now apply Forall_cons in Hf as [_ ?].
    + exists ((started, nm) :: erased). split; [cbn; now rewrite <- Hl|].
      now constructor.
    + intros plug nm' Hp. unfold add_dependency in *. cbn. now apply Hadd.
Qed.

(** ** The events of the deltas *)
Section delta_properties.
Context `{Codec}.







End delta_properties.



(** The events of that run. *)
Example demo_deltas_events :
  events_of (@receive_deltas delta_codec demo_deltas) receiver_with_tables
  = [channels.abi_updates 102 0 "alice" [Byte.x07] (abieos.abi_def_of [Byte.x07]);
     channels.block_table_deltas 0
       {| chain_state.td_name := "account";
          chain_state.rows := [{| chain_state.present := true; chain_state.data := [] |}] |};
     channels.table_row_updates 102 0 true
       {| chain_state.kvo_code := "alice"; chain_state.scope := "scope";
          chain_state.table := "table"; chain_state.primary_key := 5;
          chain_state.payer := "alice"; chain_state.value := [] |};
     channels.abi_errors 102 0 "bob" "cannot decode table delta because of missing ABI";
     channels.block_table_deltas 0
       {| chain_state.td_name := "contract_row";
          chain_state.rows := [{| chain_state.present := true; chain_state.data := [] |};
                               {| chain_state.present := true; chain_state.data := [] |}] |}].
Proof. vm_compute; reflexivity. Qed.
